(** * quiche-nwep release tooling: build orchestration and release workflow

    A shallow embedding of the TypeScript scripts of the repository
    (scripts/build.ts, scripts/workflow.ts, the commit script and the release
    script) together with the properties of their specification.

    Layout: the JavaScript runtime pieces the scripts rely on ([JS]), then one
    module per script ([Workflow], [Commit], [Release], [Build]), then the
    lemmas and the theorems. *)

From Stdlib Require Import ZArith String Ascii List Bool Lia DecimalString DecimalPos.
From stdpp Require Import base list gmap strings.

Open Scope Z_scope.

(* ===================================================================== *)
(** * The JavaScript runtime the scripts use *)
(* ===================================================================== *)

Module JS.

(** ** Characters and strings

    A JavaScript string is a sequence of UTF-16 code units.  The texts handled
    here (manifests, version strings, command output) are modelled as [string],
    one [ascii] per code unit, so code units range over U+0000..U+00FF. *)

Definition code (a : ascii) : N := N_of_ascii a.

(** LineTerminator: LF and CR (U+2028 and U+2029 lie outside the alphabet). *)
Definition isLineTerminator (a : ascii) : bool :=
  ((code a =? 10) || (code a =? 13))%N.

(** The class [\s], also what [trim] and [Number] skip: WhiteSpace and
    LineTerminator.  Below U+0100 these are TAB, LF, VT, FF, CR, SP, NBSP. *)
Definition isWhiteSpace (a : ascii) : bool :=
  ((code a =? 9) || (code a =? 10) || (code a =? 11) || (code a =? 12)
   || (code a =? 13) || (code a =? 32) || (code a =? 160))%N.

(** The class [\d]. *)
Definition isDigit (a : ascii) : bool :=
  ((48 <=? code a) && (code a <=? 57))%N.

Definition digitValue (a : ascii) : Z := Z.of_N (code a) - 48.

Definition eqc (a b : ascii) : bool := Ascii.eqb a b.

Fixpoint takeWhile (c : ascii -> bool) (s : string) : string :=
  match s with
  | String a s' => if c a then String a (takeWhile c s') else ""
  | EmptyString => ""
  end.

Fixpoint dropWhile (c : ascii -> bool) (s : string) : string :=
  match s with
  | String a s' => if c a then dropWhile c s' else s
  | EmptyString => ""
  end.

Fixpoint forallb (c : ascii -> bool) (s : string) : bool :=
  match s with
  | String a s' => c a && forallb c s'
  | EmptyString => true
  end.

(** [s.trim()] *)
Definition trim (s : string) : string :=
  String.rev (dropWhile isWhiteSpace (String.rev (dropWhile isWhiteSpace s))).

(** [s.split(sep)] for a one-character separator: never the empty list. *)
Fixpoint split (sep : ascii) (s : string) : list string :=
  match s with
  | EmptyString => [""]
  | String a s' =>
      if eqc a sep then "" :: split sep s'
      else match split sep s' with
           | piece :: rest => String a piece :: rest
           | [] => [String a ""]
           end
  end.

(** [pieces.join(sep)] *)
Fixpoint join (sep : string) (pieces : list string) : string :=
  match pieces with
  | [] => ""
  | [p] => p
  | p :: rest => p +:+ sep +:+ join sep rest
  end.

(** [s.startsWith(p)], returning what follows the prefix. *)
Fixpoint stripPrefix (p s : string) : option string :=
  match p, s with
  | EmptyString, _ => Some s
  | String a p', String b s' => if eqc a b then stripPrefix p' s' else None
  | String _ _, EmptyString => None
  end.

(** ** Numbers

    A JavaScript number is an IEEE 754 binary64 value.  The version code only
    produces NaN, the infinities and integer-valued doubles (a piece of
    [s.split('.')] holds no fraction point); [Int z] stands for the double
    whose value is the integer [z], both zeros being [Int 0]. *)

Inductive number :=
| NaN
| Inf (negative : bool)
| Int (z : Z).

(** Round [a / 2^e] to the nearest integer, ties to even. *)
Definition roundHalfEven (a e : Z) : Z :=
  let q := a / 2 ^ e in
  let r := a mod 2 ^ e in
  let h := 2 ^ (e - 1) in
  if r <? h then q
  else if h <? r then q + 1
  else if Z.even q then q else q + 1.

(** The double nearest to the integer [z]: 53 significant bits, round to
    nearest, ties to even, overflow to an infinity. *)
Definition toDouble (z : Z) : number :=
  let a := Z.abs z in
  let e := Z.log2 a - 52 in
  if e <=? 0 then Int z
  else
    let m := roundHalfEven a e * 2 ^ e in
    if 2 ^ 1024 <=? m then Inf (z <? 0) else Int (Z.sgn z * m).

(** [Number.MAX_SAFE_INTEGER]: up to it, and one past it, every integer is a
    double. *)
Definition MAX_SAFE_INTEGER : Z := 2 ^ 53 - 1.

(** An integer that, like its successor, is a safe integer. *)
Definition safe (z : Z) : Prop := - MAX_SAFE_INTEGER <= z < MAX_SAFE_INTEGER.

(** [x + 1] *)
Definition add1 (x : number) : number :=
  match x with
  | NaN => NaN
  | Inf s => Inf s
  | Int z => toDouble (z + 1)
  end.

(** A value that may be [undefined] (a missing array element). *)
Definition value := option number.

(** [isNaN(v)]: [undefined] converts to NaN. *)
Definition isNaN (v : value) : bool :=
  match v with
  | Some NaN | None => true
  | Some _ => false
  end.

(** [v + 1]: [undefined + 1] is NaN. *)
Definition plus1 (v : value) : number :=
  match v with
  | Some x => add1 x
  | None => NaN
  end.

Definition decimal (z : Z) : string := NilEmpty.string_of_int (Z.to_int z).

(** Number::toString in radix 10.  An integer prints as its decimal digits;
    this is what JavaScript prints for a safe integer (beyond, JavaScript
    prints the shortest decimal that reads back as the same double, with an
    exponent from 10^21 on). *)
Definition numberToString (x : number) : string :=
  match x with
  | NaN => "NaN"
  | Inf false => "Infinity"
  | Inf true => "-Infinity"
  | Int z => decimal z
  end.

(** [`${v}`] *)
Definition toString (v : value) : string :=
  match v with
  | Some x => numberToString x
  | None => "undefined"
  end.

(** Digits in radix [r], most significant first. *)
Definition hexValue (a : ascii) : option Z :=
  let c := Z.of_N (code a) in
  if (48 <=? c) && (c <=? 57) then Some (c - 48)
  else if (97 <=? c) && (c <=? 102) then Some (c - 87)
  else if (65 <=? c) && (c <=? 70) then Some (c - 55)
  else None.

Fixpoint readRadix (r : Z) (acc : Z) (s : string) : option Z :=
  match s with
  | EmptyString => Some acc
  | String a s' =>
      match hexValue a with
      | Some d => if d <? r then readRadix r (acc * r + d) s' else None
      | None => None
      end
  end.

Definition readDigits (r : Z) (s : string) : number :=
  match s with
  | EmptyString => NaN
  | _ => match readRadix r 0 s with
         | Some z => toDouble z
         | None => NaN
         end
  end.

Definition negate (x : number) : number :=
  match x with
  | NaN => NaN
  | Inf s => Inf (negb s)
  | Int z => Int (- z)
  end.

(** StrUnsignedDecimalLiteral without fraction part: [Infinity] or digits.
    A literal with an exponent part ([1e3]) is left out of the model (it is
    answered NaN); nothing below is stated on such a piece. *)
Definition readUnsigned (s : string) : number :=
  if String.eqb s "Infinity" then Inf false else readDigits 10 s.

(** [Number(s)], the StringToNumber conversion: white space is skipped on both
    sides, the empty string is 0, a decimal literal may carry a sign, and a
    binary, octal or hexadecimal literal may not. *)
Definition Number (s : string) : number :=
  match trim s with
  | EmptyString => Int 0
  | String "0" (String "x" t) | String "0" (String "X" t) => readDigits 16 t
  | String "0" (String "o" t) | String "0" (String "O" t) => readDigits 8 t
  | String "0" (String "b" t) | String "0" (String "B" t) => readDigits 2 t
  | String "+" t => readUnsigned t
  | String "-" t => negate (readUnsigned t)
  | t => readUnsigned t
  end.

(** ** Regular expressions

    The scripts use six regular expressions, all of them a sequence of
    literals and greedy character-class repetitions.  [matchHere] is the
    backtracking matcher for such a sequence: a repetition first takes the
    longest run and gives characters back one at a time while the rest of the
    pattern fails.  A match yields one piece of text per atom. *)

Inductive atom :=
| Lit (s : string)            (* the characters of [s] *)
| Star (c : ascii -> bool)    (* [c*] *)
| Plus (c : ascii -> bool)    (* [c+] *)
| Eol                         (* [$] under the m flag *)
| End_.                       (* [$] without the m flag *)

Definition mres : Type := list string * string.

Definition atEol (s : string) : bool :=
  match s with
  | EmptyString => true
  | String a _ => isLineTerminator a
  end.

Fixpoint star (c : ascii -> bool) (k : string -> option mres) (s : string)
  : option (string * mres) :=
  match s with
  | String a s' =>
      if c a then
        match star c k s' with
        | Some (run, m) => Some (String a run, m)
        | None => option_map (pair "") (k s)
        end
      else option_map (pair "") (k s)
  | EmptyString => option_map (pair "") (k s)
  end.

Definition pushPiece (piece : string) (m : option mres) : option mres :=
  match m with
  | Some (pieces, rest) => Some (piece :: pieces, rest)
  | None => None
  end.

Definition pushRun (m : option (string * mres)) : option mres :=
  match m with
  | Some (run, (pieces, rest)) => Some (run :: pieces, rest)
  | None => None
  end.

Fixpoint matchHere (p : list atom) (s : string) : option mres :=
  match p with
  | [] => Some ([], s)
  | Lit l :: p' =>
      match stripPrefix l s with
      | Some s' => pushPiece l (matchHere p' s')
      | None => None
      end
  | Star c :: p' => pushRun (star c (matchHere p') s)
  | Plus c :: p' =>
      match s with
      | String a s' =>
          if c a then
            match star c (matchHere p') s' with
            | Some (run, (pieces, rest)) => Some (String a run :: pieces, rest)
            | None => None
            end
          else None
      | EmptyString => None
      end
  | Eol :: p' => if atEol s then pushPiece "" (matchHere p' s) else None
  | End_ :: p' =>
      match s with
      | EmptyString => pushPiece "" (matchHere p' s)
      | String _ _ => None
      end
  end.

(** A match of a pattern that opens with [^] under the m flag: the leftmost
    line start at which the pattern matches.  [bol] tells whether the current
    position starts a line.  The result is the text before the match, the
    pieces and the text after it. *)
Fixpoint searchLines (p : list atom) (bol : bool) (s : string)
  : option (string * mres) :=
  match (if bol then matchHere p s else None) with
  | Some m => Some ("", m)
  | None =>
      match s with
      | String a s' =>
          match searchLines p (isLineTerminator a) s' with
          | Some (pre, m) => Some (String a pre, m)
          | None => None
          end
      | EmptyString => None
      end
  end.

Definition execM (p : list atom) (s : string) : option (string * mres) :=
  searchLines p true s.

(** [re.test(s)] for a pattern that opens with [^] without the m flag. *)
Definition testAnchored (p : list atom) (s : string) : bool :=
  match matchHere p s with
  | Some _ => true
  | None => false
  end.

Fixpoint concat (pieces : list string) : string :=
  match pieces with
  | [] => ""
  | p :: rest => p +:+ concat rest
  end.

(** A capture group spanning [len] atoms from atom [start]. *)
Definition group (start len : nat) (pieces : list string) : string :=
  concat (take len (drop start pieces)).

(** GetSubstitution: the expansion of a replacement template.  [$$] is a
    dollar sign, [$&] the match, [$`] and [$'] the text before and after it,
    [$n] and [$nn] a capture; a two-digit reference beyond the number of
    captures is a one-digit reference followed by a digit.  There are no named
    captures. *)
Definition capture (caps : list string) (index : Z) (ref : string) : string :=
  if (1 <=? index) && (index <=? Z.of_nat (length caps))
  then nth (Z.to_nat (index - 1)) caps ""
  else ref.

Fixpoint substitute (caps : list string) (pre matched post : string)
    (template : string) : string :=
  match template with
  | EmptyString => ""
  | String a t1 =>
      if eqc a "$" then
        match t1 with
        | EmptyString => "$"
        | String b t2 =>
            if eqc b "$" then String "$" (substitute caps pre matched post t2)
            else if eqc b "`" then pre +:+ substitute caps pre matched post t2
            else if eqc b "&" then matched +:+ substitute caps pre matched post t2
            else if eqc b "'" then post +:+ substitute caps pre matched post t2
            else if isDigit b then
              let one :=
                capture caps (digitValue b) (String "$" (String b ""))
                +:+ substitute caps pre matched post t2 in
              match t2 with
              | String d t3 =>
                  if isDigit d then
                    let index := 10 * digitValue b + digitValue d in
                    if Z.of_nat (length caps) <? index then one
                    else capture caps index (String "$" (String b (String d "")))
                         +:+ substitute caps pre matched post t3
                  else one
              | EmptyString => one
              end
            else String "$" (substitute caps pre matched post t1)
        end
      else String a (substitute caps pre matched post t1)
  end.

(** [s.replace(re, template)] without the g flag: the first match only, and
    [s] itself when there is none.  [groups] lists the capture groups as atom
    ranges. *)
Definition replace (p : list atom) (groups : list (nat * nat))
    (template : string) (s : string) : string :=
  match execM p s with
  | Some (pre, (pieces, post)) =>
      let caps := map (fun g => group (fst g) (snd g) pieces) groups in
      pre +:+ substitute caps pre (concat pieces) post template +:+ post
  | None => s
  end.

Definition quote : string := String "034" "".
Definition isQuote (a : ascii) : bool := eqc a "034".
Definition notQuote (a : ascii) : bool := negb (isQuote a).
Definition notLineTerminator (a : ascii) : bool := negb (isLineTerminator a).

(** [s.substring(start)] and [s.substring(0, finish)] *)
Fixpoint substringFrom (start : nat) (s : string) : string :=
  match start, s with
  | S n, String _ s' => substringFrom n s'
  | _, _ => s
  end.

Fixpoint substringTo (finish : nat) (s : string) : string :=
  match finish, s with
  | S n, String a s' => String a (substringTo n s')
  | _, _ => ""
  end.

(** [s.includes(c)] for a one-character [c]. *)
Fixpoint includes (c : ascii) (s : string) : bool :=
  match s with
  | String a s' => eqc a c || includes c s'
  | EmptyString => false
  end.

End JS.
(* ===================================================================== *)
(** * The process around a script: files, operator, commands *)
(* ===================================================================== *)

Module Proc.

(** A file of the working directory.  [readFileSync] throws on a missing
    path; [writeFileSync] creates a missing file and throws on one that is
    read-only. *)
Record file := { data : string; readOnly : bool }.

(** What the try block around [execSync(command).trim()] sees: the command's
    standard output ([None] is JavaScript's null, returned when the output is
    not piped to the script), or the error thrown for a non-zero exit status
    or a command that could not be started. *)
Inductive execResult :=
| Returned (stdout : option string)
| Failed (message : string).

(** The kinds of version bump. *)
Inductive BumpType := Major | Minor | Patch.

(** The choices of the version prompt. *)
Inductive action := Skip | Bump (type : BumpType) | Custom.

(** The operator and the commands, as the script meets them: the answer to
    the n-th confirmation ([None] is a cancelled prompt), the answer to the
    version prompt, the lines typed at the custom-version prompt, and the
    result of the n-th command. *)
Record env := {
  confirms : nat -> option bool;
  versionAction : option action;
  customInputs : list string;
  shell : nat -> string -> execResult;
}.

Inductive channel := Intro | Note | Info | Warn | Err | Cancel | Spinner | Outro.

Inductive event :=
| EvSay (on : channel) (message : string)
| EvConfirm (message : string)
| EvSelect (message : string)
| EvText (message : string)
| EvExec (command : string) (silent : bool)
| EvWrite (path : string) (content : string).

Record world := {
  files : gmap string file;
  asked : nat;            (* confirmations answered so far *)
  ran : nat;              (* commands run so far *)
  trace : list event;     (* what happened, oldest first *)
}.

Definition start (fs : gmap string file) : world :=
  {| files := fs; asked := 0; ran := 0; trace := [] |}.

Definition emit (e : event) (w : world) : world :=
  {| files := files w; asked := asked w; ran := ran w; trace := trace w ++ [e] |}.

(** How a computation ends: with a value, by [process.exit(code)], or by a
    thrown error. *)
Inductive outcome (A : Type) :=
| Done (a : A)
| Exit (status : Z)
| Raise (message : string).
Arguments Done {A} a.
Arguments Exit {A} status.
Arguments Raise {A} message.

Definition M (A : Type) : Type := env -> world -> outcome A * world.

Definition ret {A} (a : A) : M A := fun _ w => (Done a, w).

Definition bind {A B} (m : M A) (k : A -> M B) : M B :=
  fun e w =>
    match m e w with
    | (Done a, w') => k a e w'
    | (Exit c, w') => (Exit c, w')
    | (Raise msg, w') => (Raise msg, w')
    end.

Definition lift {A} (o : outcome A) : M A := fun _ w => (o, w).
Definition exit {A} (status : Z) : M A := fun _ w => (Exit status, w).
Definition throw {A} (message : string) : M A := fun _ w => (Raise message, w).

(** [try { body } catch (error) { handler(error.message) }] *)
Definition try {A} (body : M A) (handler : string -> M A) : M A :=
  fun e w =>
    match body e w with
    | (Raise msg, w') => handler msg e w'
    | r => r
    end.

Definition say (on : channel) (message : string) : M unit :=
  fun _ w => (Done tt, emit (EvSay on message) w).

Definition confirm (message : string) : M (option bool) :=
  fun e w =>
    (Done (confirms e (asked w)),
     emit (EvConfirm message)
       {| files := files w; asked := S (asked w); ran := ran w; trace := trace w |}).

Definition select (message : string) : M (option action) :=
  fun e w => (Done (versionAction e), emit (EvSelect message) w).

(** The text prompt asks again until [validate] accepts the line; the operator
    giving up is a cancelled prompt. *)
Definition text (message : string) (validate : string -> bool) : M (option string) :=
  fun e w => (Done (find validate (customInputs e)), emit (EvText message) w).

Definition readFileSync (path : string) : M string :=
  fun _ w =>
    match files w !! path with
    | Some f => (Done (data f), w)
    | None => (Raise ("ENOENT: no such file or directory, open " +:+ path), w)
    end.

Definition writeFileSync (path content : string) : M unit :=
  fun _ w =>
    match files w !! path with
    | Some {| readOnly := true |} =>
        (Raise ("EACCES: permission denied, open " +:+ path), w)
    | _ =>
        (Done tt,
         emit (EvWrite path content)
           {| files := <[path := {| data := content; readOnly := false |}]> (files w);
              asked := asked w; ran := ran w; trace := trace w |})
    end.

Definition execSync (command : string) (silent : bool) : M execResult :=
  fun e w =>
    (Done (shell e (ran w) command),
     emit (EvExec command silent)
       {| files := files w; asked := asked w; ran := S (ran w); trace := trace w |}).

#[global] Instance M_ret : MRet M := @ret.
#[global] Instance M_bind : MBind M := fun A B k m => bind m k.

End Proc.

(* ===================================================================== *)
(** * scripts/workflow.ts *)
(* ===================================================================== *)

(** Colours and glyphs are left out of the messages. *)

Module Workflow.
Import Proc.

Record Version := { major : JS.number; minor : JS.number; patch : JS.number }.

Definition exec (command : string) (silent : bool) : M string :=
  try (r ← execSync command silent;
       match r with
       | Returned (Some stdout) => mret (JS.trim stdout)
       | Returned None => throw "Cannot read properties of null (reading 'trim')"
       | Failed message => throw message
       end)
      (fun message => if silent then mret "" else throw message).

Definition parseVersion (versionStr : string) : outcome Version :=
  let parts := JS.Number <$> JS.split "." versionStr in
  let major := parts !! 0%nat in
  let minor := parts !! 1%nat in
  let patch := parts !! 2%nat in
  if existsb JS.isNaN [major; minor; patch]
  then Raise ("Invalid version format: " +:+ versionStr)
  else Done {| major := default JS.NaN major;
               minor := default JS.NaN minor;
               patch := default JS.NaN patch |}.

Definition formatVersion (v : Version) : string :=
  JS.numberToString (major v) +:+ "." +:+ JS.numberToString (minor v)
  +:+ "." +:+ JS.numberToString (patch v).

(** The pattern of [getCurrentVersion] and [updateQuicheVersion], under the m
    flag: at a line start, the word version, an equals sign with optional
    white space around it, and a non-empty quoted value.  The first reads the
    value as its group; the second groups what stands before the value and
    the closing quote. *)
Definition versionField : list JS.atom :=
  [JS.Lit "version"; JS.Star JS.isWhiteSpace; JS.Lit "="; JS.Star JS.isWhiteSpace;
   JS.Lit JS.quote; JS.Plus JS.notQuote; JS.Lit JS.quote].

(** The pattern of [updateWorkspaceVersion]: the quiche entry of the
    workspace dependencies, up to its version value. *)
Definition workspaceDependency : list JS.atom :=
  [JS.Lit "quiche"; JS.Star JS.isWhiteSpace; JS.Lit "="; JS.Star JS.isWhiteSpace;
   JS.Lit "{"; JS.Star JS.isWhiteSpace;
   JS.Lit "version"; JS.Star JS.isWhiteSpace; JS.Lit "="; JS.Star JS.isWhiteSpace;
   JS.Lit JS.quote; JS.Plus JS.notQuote; JS.Lit JS.quote].

(** The pattern the custom-version prompt validates against (no m flag):
    digits, a point, digits, a point, digits, and nothing else. *)
Definition customFormat : list JS.atom :=
  [JS.Plus JS.isDigit; JS.Lit "."; JS.Plus JS.isDigit; JS.Lit ".";
   JS.Plus JS.isDigit; JS.End_].

Definition quicheManifest : string := "quiche/Cargo.toml".
Definition workspaceManifest : string := "Cargo.toml".

(** The match and the default of [getCurrentVersion], on the manifest text. *)
Definition currentVersionOf (cargoToml : string) : string :=
  match JS.execM versionField cargoToml with
  | Some (_, (pieces, _)) => JS.group 5 1 pieces
  | None => "1.0.0"
  end.

Definition getCurrentVersion : M string :=
  cargoToml ← readFileSync quicheManifest;
  mret (currentVersionOf cargoToml).

(** The replacement of [updateQuicheVersion], on the manifest text. *)
Definition withQuicheVersion (newVersion content : string) : string :=
  JS.replace versionField [(0, 5); (6, 1)]%nat ("$1" +:+ newVersion +:+ "$2") content.

Definition updateQuicheVersion (newVersion : string) : M unit :=
  content ← readFileSync quicheManifest;
  writeFileSync quicheManifest (withQuicheVersion newVersion content).

(** The replacement of [updateWorkspaceVersion], on the manifest text. *)
Definition withWorkspaceVersion (newVersion content : string) : string :=
  JS.replace workspaceDependency [(0, 11); (12, 1)]%nat
    ("$1" +:+ newVersion +:+ "$2") content.

Definition updateWorkspaceVersion (newVersion : string) : M unit :=
  content ← readFileSync workspaceManifest;
  writeFileSync workspaceManifest (withWorkspaceVersion newVersion content).

Definition bumpVersion (current : Version) (type : BumpType) : Version :=
  match type with
  | Major => {| major := JS.add1 (major current); minor := JS.Int 0; patch := JS.Int 0 |}
  | Minor => {| major := major current; minor := JS.add1 (minor current); patch := JS.Int 0 |}
  | Patch => {| major := major current; minor := minor current;
                patch := JS.add1 (patch current) |}
  end.

Definition gitStatus : string := "git status --porcelain".

Definition checkGitClean : M bool :=
  status ← exec gitStatus true;
  mret (String.eqb status "").

Definition npmRun (npmScript : string) : string := "npm run " +:+ npmScript.

Definition runScript (scriptName npmScript : string) : M bool :=
  shouldRun ← confirm ("Run " +:+ scriptName +:+ "?");
  match shouldRun with
  | None => say Cancel "Workflow cancelled.";; exit 0
  | Some false => say Info ("Skipped " +:+ scriptName);; mret false
  | Some true =>
      say Info ("Running " +:+ scriptName +:+ "...");;
      try (exec (npmRun npmScript) false;;
           say Info (scriptName +:+ " completed");;
           mret true)
          (fun _ =>
             say Err (scriptName +:+ " failed");;
             continueAnyway ← confirm "Continue with workflow despite error?";
             match continueAnyway with
             | Some true => mret false
             | _ => say Cancel ("Workflow stopped at " +:+ scriptName);; exit 1
             end)
  end.

(** main, up to the version step: the check of the working tree. *)
Definition preflight : M unit :=
  say Intro "quiche-nwep Workflow Orchestrator";;
  say Note "Workflow Steps";;
  clean ← checkGitClean;
  if negb clean then
    say Warn "Git working directory has uncommitted changes";;
    proceedDirty ← confirm "Continue anyway?";
    match proceedDirty with
    | Some true => mret tt
    | _ => say Cancel "Workflow cancelled. Commit or stash your changes first.";; exit 0
    end
  else say Info "Git working directory is clean".

(** The try block of step 1: both manifests are rewritten, then
    [versionChanged] is set. *)
Definition applyVersion (newVersion : string) : M bool :=
  say Spinner "Updating version in Cargo.toml files...";;
  try (updateQuicheVersion newVersion;;
       updateWorkspaceVersion newVersion;;
       say Spinner ("Updated version to " +:+ newVersion);;
       mret true)
      (fun message =>
         say Spinner "Failed to update version";;
         say Err message;;
         exit 1).

(** main, step 1: the version in memory and whether it was changed. *)
Definition versionStep : M (string * bool) :=
  currentVersion ← getCurrentVersion;
  currentParsed ← lift (parseVersion currentVersion);
  say Note ("Current version: " +:+ currentVersion);;
  versionAction ← select "Version update:";
  match versionAction with
  | None => say Cancel "Workflow cancelled.";; exit 0
  | Some Skip => mret (currentVersion, false)
  | Some choice =>
      newVersion ←
        match choice with
        | Bump type => mret (formatVersion (bumpVersion currentParsed type))
        | _ =>
            customVersion ← text "Enter version:" (JS.testAnchored customFormat);
            match customVersion with
            | None => say Cancel "Workflow cancelled.";; exit 0
            | Some v => mret v
            end
        end;
      versionChanged ← applyVersion newVersion;
      say Note "Updated files: quiche/Cargo.toml, Cargo.toml";;
      mret (newVersion, versionChanged)
  end.

Definition buildPhase : M bool :=
  say Info "Build Phase";;
  runScript "build script" "build".

(** main, from step 3 on. *)
Definition afterBuild (newVersion : string) (versionChanged buildRan : bool) : M unit :=
  (if buildRan then
     say Info "Package Phase";;
     runScript "package script" "package";;
     mret tt
   else mret tt);;
  (if versionChanged || buildRan then
     say Info "Commit Phase";;
     clean ← checkGitClean;
     if (clean : bool) then say Info "No changes to commit"
     else runScript "commit script" "commit";; mret tt
   else mret tt);;
  say Info "Release Phase";;
  shouldRelease ← confirm ("Create GitHub release for v" +:+ newVersion +:+ "?");
  match shouldRelease with
  | None => say Cancel "Workflow cancelled.";; exit 0
  | Some true => runScript "release script" "release";; mret tt
  | Some false => say Info "Skipped release creation"
  end;;
  clean ← checkGitClean;
  say Outro
    ("Workflow complete!"
     +:+ (if versionChanged then " Version updated to " +:+ newVersion else "")
     +:+ (if buildRan then " Build completed" else "")
     +:+ (if (clean : bool) then " All changes committed" else " Uncommitted changes remain")).

Definition main : M unit :=
  preflight;;
  '(newVersion, versionChanged) ← versionStep;
  buildRan ← buildPhase;
  afterBuild newVersion versionChanged buildRan.

(** [main().catch(...)]: an error that escapes is reported and the process
    exits with status 1; otherwise it ends with status 0. *)
Definition run (e : env) (fs : gmap string file) : Z * world :=
  match main e (start fs) with
  | (Done _, w) => (0, w)
  | (Exit status, w) => (status, w)
  | (Raise message, w) => (1, emit (EvSay Err ("Fatal error: " +:+ message)) w)
  end.

End Workflow.

(* ===================================================================== *)
(** * The commit script: its version helpers *)
(* ===================================================================== *)

Module Commit.
Import Proc.

(** [parseVersion] checks nothing: a piece may be missing or not a number. *)
Record Parsed := { major : JS.value; minor : JS.value; patch : JS.value }.

Definition parseVersion (version : string) : Parsed :=
  let parts := JS.Number <$> JS.split "." version in
  {| major := parts !! 0%nat; minor := parts !! 1%nat; patch := parts !! 2%nat |}.

Definition bumpVersion (version : string) (type : BumpType) : string :=
  let v := parseVersion version in
  match type with
  | Major => JS.numberToString (JS.plus1 (major v)) +:+ ".0.0"
  | Minor => JS.toString (major v) +:+ "." +:+ JS.numberToString (JS.plus1 (minor v)) +:+ ".0"
  | Patch => JS.toString (major v) +:+ "." +:+ JS.toString (minor v) +:+ "."
             +:+ JS.numberToString (JS.plus1 (patch v))
  end.

(** [exec], as in the workflow. *)
Definition exec (command : string) (silent : bool) : M string :=
  try (r ← execSync command silent;
       match r with
       | Returned (Some stdout) => mret (JS.trim stdout)
       | Returned None => throw "Cannot read properties of null (reading 'trim')"
       | Failed message => throw message
       end)
      (fun message => if silent then mret "" else throw message).

Record GitStatus := {
  modified : list string;
  added : list string;
  deleted : list string;
  untracked : list string;
}.

(** The body of the loop of [getGitStatus]: one line of the short status, two
    characters of status code, a space, the file. *)
Definition classify (status : GitStatus) (line : string) : GitStatus :=
  let statusCode := JS.substringTo 2 line in
  let file := JS.substringFrom 3 line in
  if String.eqb statusCode "??" then
    {| modified := modified status; added := added status; deleted := deleted status;
       untracked := untracked status ++ [file] |}
  else if JS.includes "M" statusCode then
    {| modified := modified status ++ [file]; added := added status;
       deleted := deleted status; untracked := untracked status |}
  else if JS.includes "A" statusCode then
    {| modified := modified status; added := added status ++ [file];
       deleted := deleted status; untracked := untracked status |}
  else if JS.includes "D" statusCode then
    {| modified := modified status; added := added status;
       deleted := deleted status ++ [file]; untracked := untracked status |}
  else
    {| modified := modified status ++ [file]; added := added status;
       deleted := deleted status; untracked := untracked status |}.

(** The lines of the status that are not blank. *)
Definition statusLines (status : string) : list string :=
  List.filter (fun l => negb (String.eqb (JS.trim l) "")) (JS.split "010" status).

Definition getGitStatus : M GitStatus :=
  status ← exec "git status --porcelain" true;
  mret (fold_left classify (statusLines status)
          {| modified := []; added := []; deleted := []; untracked := [] |}).

(** [allFiles] of [main]: the four lists one after the other. *)
Definition allFiles (status : GitStatus) : list string :=
  modified status ++ added status ++ deleted status ++ untracked status.

Record CommitOptions := {
  type : string;
  scope : option string;
  message : string;
  body : option string;
  breaking : bool;
}.

(** An optional text that is absent or empty is falsy. *)
Definition given (text : option string) : option string :=
  match text with
  | Some s => if String.eqb s "" then None else Some s
  | None => None
  end.

Definition formatCommitMessage (options : CommitOptions) : string :=
  let message0 := type options in
  let message1 :=
    match given (scope options) with
    | Some s => message0 +:+ "(" +:+ s +:+ ")"
    | None => message0
    end in
  let message2 := if breaking options then message1 +:+ "!" else message1 in
  let message3 := message2 +:+ ": " +:+ message options in
  let message4 :=
    match given (body options) with
    | Some b => message3 +:+ String "010" (String "010" "") +:+ b
    | None => message3
    end in
  if breaking options
  then message4 +:+ String "010" (String "010" "")
       +:+ "BREAKING CHANGE: This commit contains breaking changes"
  else message4.

End Commit.

(* ===================================================================== *)
(** * The release script: its version helpers *)
(* ===================================================================== *)

Module Release.
Import Proc.

Record Version := { major : JS.number; minor : JS.number; patch : JS.number }.

Definition parseVersion (version : string) : outcome Version :=
  let parts := JS.Number <$> JS.split "." version in
  if negb (length parts =? 3)%nat || existsb (fun x => JS.isNaN (Some x)) parts
  then Raise ("invalid version format: " +:+ version)
  else Done {| major := nth 0 parts JS.NaN;
               minor := nth 1 parts JS.NaN;
               patch := nth 2 parts JS.NaN |}.

Definition formatVersion (v : Version) : string :=
  JS.numberToString (major v) +:+ "." +:+ JS.numberToString (minor v)
  +:+ "." +:+ JS.numberToString (patch v).

Definition CARGO_TOML_PATH : string := "quiche/Cargo.toml".

(** The pattern of [getVersion], under the m flag: as in the workflow, with
    optional white space before the word version.  Its group is the value. *)
Definition versionMatch : list JS.atom :=
  [JS.Star JS.isWhiteSpace; JS.Lit "version"; JS.Star JS.isWhiteSpace; JS.Lit "=";
   JS.Star JS.isWhiteSpace; JS.Lit JS.quote; JS.Plus JS.notQuote; JS.Lit JS.quote].

(** The pattern of [updateVersion]: the same, followed by the rest of the
    line.  Its groups are what stands before the value and what follows it. *)
Definition versionRegex : list JS.atom :=
  versionMatch ++ [JS.Star JS.notLineTerminator; JS.Eol].

Definition notFound : string := "version not found in Cargo.toml".
Definition parseFailed : string := "failed to parse version from Cargo.toml: ".

Definition getVersion : M Version :=
  content ← readFileSync CARGO_TOML_PATH;
  match JS.execM versionMatch content with
  | Some (_, (pieces, _)) =>
      if String.eqb (JS.group 6 1 pieces) ""
      then say Err notFound;; exit 1
      else try (lift (parseVersion (JS.group 6 1 pieces)))
               (fun message => say Err (parseFailed +:+ message);; exit 1)
  | None => say Err notFound;; exit 1
  end.

Definition updateVersion (newVersion : Version) : M unit :=
  try (content ← readFileSync CARGO_TOML_PATH;
       let versionString := formatVersion newVersion in
       match JS.execM versionRegex content with
       | None => throw "could not find version line in Cargo.toml"
       | Some _ =>
           writeFileSync CARGO_TOML_PATH
             (JS.replace versionRegex [(0, 6); (7, 3)]%nat
                ("$1" +:+ versionString +:+ "$2") content);;
           say Info ("updated version to " +:+ versionString)
       end)
      (fun message => say Err ("failed to update version: " +:+ message);; exit 1).

(** [checkGitClean]: two commands run for their exit status alone, output
    ignored; any error thrown by either reads as a tree that is not clean. *)
Definition checkGitClean : M bool :=
  try (r1 ← execSync "git diff --quiet --exit-code" true;
       match r1 with
       | Failed message => throw message
       | Returned _ =>
           r2 ← execSync "git diff --cached --quiet --exit-code" true;
           match r2 with
           | Failed message => throw message
           | Returned _ => mret true
           end
       end)
      (fun _ => mret false).

(** [runCommand]: the command is shown, then run with its output on the
    terminal; a failure is reported and thrown again. *)
Definition runCommand (command : string) : M unit :=
  try (say Info ("$ " +:+ command);;
       r ← execSync command false;
       match r with
       | Failed message => throw message
       | Returned _ => mret tt
       end)
      (fun message => say Err ("command failed: " +:+ command);; throw message).

(** [try { body } finally { cleanup }]: the cleanup runs however the body
    ends, short of [process.exit]; an error of the cleanup replaces the
    outcome of the body. *)
Definition finally {A} (body : M A) (cleanup : M unit) : M A :=
  fun e w =>
    match body e w with
    | (Exit status, w') => (Exit status, w')
    | (outcome, w') =>
        match cleanup e w' with
        | (Done _, w'') => (outcome, w'')
        | (Exit status, w'') => (Exit status, w'')
        | (Raise message, w'') => (Raise message, w'')
        end
    end.

(** The switch of the native build. *)
Definition nativeCommand (target : string) : option string :=
  if String.eqb target "android"
  then Some "cargo build --features ffi --target aarch64-linux-android"
  else if String.eqb target "ios"
  then Some "cargo build --features ffi --target aarch64-apple-ios"
  else if String.eqb target "computer"
  then Some "cargo build --features ffi"
  else None.

(** [buildTarget(target, false)] *)
Definition buildNative (target : string) : M unit :=
  say Info ("building for " +:+ target +:+ "...");;
  match nativeCommand target with
  | Some command => runCommand command
  | None => throw ("unknown target: " +:+ target)
  end;;
  say Info (target +:+ " build completed").

Definition containerName (target : string) (now : Z) : string :=
  "nwep-build-" +:+ target +:+ "-" +:+ JS.decimal now.

(** [buildTarget]: [ROOT_DIR] is the root of the repository and [now] the
    reading of [Date.now()] that names the container.  The call of
    [buildTarget] by itself, for a mobile target under Docker, is the native
    build. *)
Definition buildTarget (ROOT_DIR : string) (now : Z) (target : string)
    (useDocker : bool) : M unit :=
  if useDocker then
    say Info ("building for " +:+ target +:+ " (using Docker)...");;
    if String.eqb target "android" || String.eqb target "ios" then
      say Info ("Docker builds for " +:+ target
                +:+ " require additional cross-compilation setup");;
      say Info "Falling back to native build...";;
      buildNative target
    else
      let cargoCommand := "cargo build --features ffi" in
      say Info "Building in Docker container...";;
      runCommand ("docker build -t nwep-build --build-arg CARGO_CMD=" +:+ JS.quote
                  +:+ cargoCommand +:+ JS.quote +:+ " .");;
      say Info "Extracting build artifacts...";;
      runCommand ("docker create --name " +:+ containerName target now +:+ " nwep-build");;
      finally
        (runCommand ("mkdir -p " +:+ ROOT_DIR +:+ "/target");;
         runCommand ("docker cp " +:+ containerName target now +:+ ":/nwep/target/. "
                     +:+ ROOT_DIR +:+ "/target/");;
         say Info "extracted build artifacts to target/")
        (runCommand ("docker rm " +:+ containerName target now));;
      say Info (target +:+ " build completed")
  else buildNative target.

End Release.

(* ===================================================================== *)
(** * scripts/build.ts *)
(* ===================================================================== *)

Module Build.

Inductive Mode := debug | release.

Definition modeName (m : Mode) : string :=
  match m with
  | debug => "debug"
  | release => "release"
  end.

Record BuildOptions := {
  mode : Mode;
  features : list string;
  parallel : bool;
  verbose : bool;
}.

(** An optional flag that is absent is [false]; an absent [target] is [None]. *)
Record Platform := {
  id : string;
  label : string;
  description : string;
  target : option string;
  buildCommand : BuildOptions -> string;
  requiresDocker : bool;
  requiresCross : bool;
}.

Record BuildResult := {
  platform : Platform;
  success : bool;
  duration : Z;
  error : option string;
  outputPath : option string;
}.

Definition releaseFlag (opts : BuildOptions) : string :=
  match mode opts with
  | release => "--release"
  | debug => ""
  end.

Definition crossBuild (triple : string) (opts : BuildOptions) : string :=
  "cross build " +:+ releaseFlag opts +:+ " --target " +:+ triple
  +:+ " --features " +:+ JS.join "," (features opts).

Definition dockerBuild (triple tag : string) (opts : BuildOptions) : string :=
  "docker build -f Dockerfile.android --build-arg ANDROID_TARGET=" +:+ triple
  +:+ " --build-arg CARGO_FEATURES=" +:+ JS.join "," (features opts)
  +:+ " -t " +:+ tag +:+ " .".

Definition cargoBuild (opts : BuildOptions) : string :=
  "cargo build " +:+ releaseFlag opts +:+ " --features "
  +:+ JS.join "," (features opts) +:+ " --workspace".

Definition crossPlatform (id label description triple : string) : Platform :=
  {| id := id; label := label; description := description; target := Some triple;
     buildCommand := crossBuild triple; requiresDocker := false; requiresCross := true |}.

Definition dockerPlatform (id label description triple tag : string) : Platform :=
  {| id := id; label := label; description := description; target := Some triple;
     buildCommand := dockerBuild triple tag; requiresDocker := true; requiresCross := false |}.

Definition PLATFORMS : list Platform :=
  [ crossPlatform "windows-x64-gnu" "Windows x64 (GNU)"
      "Windows 64-bit with MinGW-w64 toolchain" "x86_64-pc-windows-gnu";
    crossPlatform "windows-x64-msvc" "Windows x64 (MSVC)"
      "Windows 64-bit with MSVC toolchain" "x86_64-pc-windows-msvc";
    dockerPlatform "android-arm64" "Android ARM64" "Android ARM64 (modern phones)"
      "aarch64-linux-android" "quiche-nwep-android-arm64";
    dockerPlatform "android-arm32" "Android ARM32" "Android ARMv7 (older devices)"
      "armv7-linux-androideabi" "quiche-nwep-android-arm32";
    dockerPlatform "android-x64" "Android x86_64" "Android x86_64 (emulators)"
      "x86_64-linux-android" "quiche-nwep-android-x64";
    dockerPlatform "android-x86" "Android x86" "Android x86 (older emulators)"
      "i686-linux-android" "quiche-nwep-android-x86";
    crossPlatform "linux-arm64" "Linux ARM64"
      "Linux AArch64 (ARM servers, Raspberry Pi)" "aarch64-unknown-linux-gnu";
    crossPlatform "linux-armv7" "Linux ARMv7"
      "Linux ARMv7 (Raspberry Pi 32-bit)" "armv7-unknown-linux-gnueabihf";
    {| id := "native"; label := "Native (current platform)";
       description := "Build for your current platform"; target := None;
       buildCommand := cargoBuild; requiresDocker := false; requiresCross := false |} ].

(** The filter of [main] over the registry. *)
Definition availablePlatforms (hasCross hasDocker : bool) : list Platform :=
  List.filter (fun p => negb ((requiresCross p && negb hasCross)
                         || (requiresDocker p && negb hasDocker))) PLATFORMS.

(** What a spawned child does, as the parent sees it: chunks written to its
    standard output and standard error, and the [close] and [error] events,
    each with the reading of [Date.now()] when it is delivered.  The exit code
    of [close] is null ([None]) for a child killed by a signal. *)
Inductive childEvent :=
| Stdout (data : string)
| Stderr (data : string)
| Close (code : option Z) (now : Z)
| Error (message : string) (now : Z).

(** One child: the clock when [buildPlatform] starts, and its events. *)
Record Child := { startTime : Z; events : list childEvent }.

(** The state the listeners of [buildPlatform] close over, and the promise. *)
Record Listener := {
  output : string;
  errorOutput : string;
  settled : option BuildResult;
}.

(** [resolve(result)]: only the first call settles the promise. *)
Definition resolve (st : Listener) (result : BuildResult) : Listener :=
  match settled st with
  | Some _ => st
  | None => {| output := output st; errorOutput := errorOutput st; settled := Some result |}
  end.

(** [a || b] on strings: the empty string is falsy. *)
Definition orElse (a b : string) : string :=
  if String.eqb a "" then b else a.

(** [`${code}`] *)
Definition codeToString (code : option Z) : string :=
  match code with
  | Some c => JS.decimal c
  | None => "null"
  end.

(** The output path of a successful build: the [target] is tested for
    truthiness, so an empty triple counts as absent. *)
Definition outputPathOf (target : option string) (m : Mode) : string :=
  match target with
  | Some triple =>
      if String.eqb triple "" then "target/" +:+ modeName m +:+ "/"
      else "target/" +:+ triple +:+ "/" +:+ modeName m +:+ "/"
  | None => "target/" +:+ modeName m +:+ "/"
  end.

Definition onEvent (p : Platform) (options : BuildOptions) (start : Z)
    (st : Listener) (ev : childEvent) : Listener :=
  match ev with
  | Stdout data =>
      if verbose options then st
      else {| output := output st +:+ data; errorOutput := errorOutput st;
              settled := settled st |}
  | Stderr data =>
      if verbose options then st
      else {| output := output st; errorOutput := errorOutput st +:+ data;
              settled := settled st |}
  | Close code now =>
      if bool_decide (code = Some 0) then
        resolve st {| platform := p; success := true; duration := now - start;
                      error := None;
                      outputPath := Some (outputPathOf (target p) (mode options)) |}
      else
        resolve st {| platform := p; success := false; duration := now - start;
                      error := Some (orElse (errorOutput st)
                                       (orElse (output st)
                                          ("Build failed with exit code "
                                           +:+ codeToString code)));
                      outputPath := None |}
  | Error message now =>
      resolve st {| platform := p; success := false; duration := now - start;
                    error := Some message; outputPath := None |}
  end.

(** [buildPlatform]: the value the returned promise settles to, [None] when
    the child never closes. *)
Definition buildPlatform (p : Platform) (options : BuildOptions) (child : Child)
  : option BuildResult :=
  settled (fold_left (onEvent p options (startTime child)) (events child)
             {| output := ""; errorOutput := ""; settled := None |}).

(** [Promise.all]: a slot per promise, filled when the promise settles, in
    whatever order the promises settle; the array is handed over when the
    count of unsettled promises reaches zero. *)
Record Gather (A : Type) := {
  values : list (option A);
  remaining : nat;
  handed : option (list (option A));
}.
Arguments values {A} _.
Arguments remaining {A} _.
Arguments handed {A} _.

Definition fulfil {A} (promises : list (option A)) (g : Gather A) (index : nat)
  : Gather A :=
  match promises !! index with
  | Some (Some v) =>
      let values' := <[index := Some v]> (values g) in
      let remaining' := pred (remaining g) in
      {| values := values'; remaining := remaining';
         handed := match handed g with
                   | Some a => Some a
                   | None => if (remaining' =? 0)%nat then Some values' else None
                   end |}
  | _ => g
  end.

(** [promises]: what each promise settles to ([None]: never); [order]: the
    indices of the promises in the order they settle. *)
Definition promiseAll {A} (promises : list (option A)) (order : list nat)
  : option (list A) :=
  match promises with
  | [] => Some []
  | _ =>
      match handed (fold_left (fulfil promises) order
                      {| values := replicate (length promises) None;
                         remaining := length promises; handed := None |}) with
      | Some a => mapM (fun slot => slot) a
      | None => None
      end
  end.

(** The sequential loop of [main]: the i-th build starts when the one
    before it has settled, and its child is the i-th one spawned. *)
Fixpoint sequential (platforms : list Platform) (options : BuildOptions)
    (children : nat -> Child) (i : nat) (results : list BuildResult)
  : option (list BuildResult) :=
  match platforms with
  | [] => Some results
  | p :: rest =>
      match buildPlatform p options (children i) with
      | Some result => sequential rest options children (S i) (results ++ [result])
      | None => None
      end
  end.

(** The build loop of [main]: [results] after it, [None] when some build
    never settles.  In parallel mode all children are spawned at once, the
    i-th for the i-th platform, and [order] is the order they finish in. *)
Definition runAll (selectedPlatforms : list Platform) (buildOptions : BuildOptions)
    (children : nat -> Child) (order : list nat) : option (list BuildResult) :=
  if parallel buildOptions then
    let buildPromises :=
      imap (fun index p => buildPlatform p buildOptions (children index))
        selectedPlatforms in
    match promiseAll buildPromises order with
    | Some parallelResults => Some ([] ++ parallelResults)
    | None => None
    end
  else sequential selectedPlatforms buildOptions children 0 [].

(** The exit status of [main] after the builds. *)
Definition exitStatus (results : list BuildResult) : Z :=
  if (0 <? length (List.filter (fun r => negb (success r)) results))%nat then 1 else 0.

(** [formatDuration].  [ms] is a whole number of milliseconds, the difference
    of two readings of [Date.now()]; below 2^53 the floor of the double
    [ms / 1000] is the floor of the exact quotient, and [%] is the remainder
    that takes the sign of the dividend. *)
Definition formatDuration (ms : Z) : string :=
  let seconds := ms / 1000 in
  let minutes := seconds / 60 in
  let remainingSeconds := Z.rem seconds 60 in
  if 0 <? minutes
  then JS.decimal minutes +:+ "m " +:+ JS.decimal remainingSeconds +:+ "s"
  else JS.decimal seconds +:+ "s".

(** The selection of [main]: the available platforms whose id was ticked. *)
Definition selectedPlatforms (availablePlatforms : list Platform)
    (selectedPlatformIds : list string) : list Platform :=
  List.filter (fun p => existsb (String.eqb (id p)) selectedPlatformIds)
    availablePlatforms.

(** Line 180 splits the command at its spaces into a program and its
    arguments; [spawn], asked for a shell, hands the shell the program and
    the arguments joined by single spaces. *)
Definition shellCommand (command : string) : string :=
  JS.join " " (JS.split " " command).

(** The summary of [main]. *)
Definition successful (results : list BuildResult) : list BuildResult :=
  List.filter success results.

Definition failed (results : list BuildResult) : list BuildResult :=
  List.filter (fun r => negb (success r)) results.


(** The glyph of the closing line. *)
Inductive Icon := Party | Cross | Warning.

Definition statusIcon (results : list BuildResult) : Icon :=
  if (length (failed results) =? 0)%nat then Party
  else if (length (failed results) =? length results)%nat then Cross
  else Warning.

Definition outroLine (results : list BuildResult) (totalDuration : Z) : string :=
  "Build complete: " +:+ JS.decimal (Z.of_nat (length (successful results)))
  +:+ " succeeded, " +:+ JS.decimal (Z.of_nat (length (failed results)))
  +:+ " failed (" +:+ formatDuration totalDuration +:+ ")".

End Build.

(* ===================================================================== *)
(** * The vocabulary of the statements

    Predicates, shorthands and sample inputs the lemmas and theorems below
    are stated with. *)
(* ===================================================================== *)

Section BuildTerms.
Import Build.

(** Output written by the child, as opposed to its end. *)
Definition isData (ev : childEvent) : bool :=
  match ev with
  | Stdout _ | Stderr _ => true
  | _ => false
  end.

(** The listener at the moment the child is spawned. *)
Definition fresh : Listener := {| output := ""; errorOutput := ""; settled := None |}.

(** The child spawned at [start] that goes through the events [evs]. *)
Definition childOf (start : Z) (evs : list childEvent) : Child :=
  {| startTime := start; events := evs |}.


(** Two results that agree on everything but the error of a failed build. *)
Definition agree (a b : option BuildResult) : Prop :=
  match a, b with
  | Some x, Some y =>
      platform x = platform y /\ success x = success y /\ duration x = duration y
      /\ outputPath x = outputPath y /\ (success x = true -> error x = error y)
  | None, None => True
  | _, _ => False
  end.

(** The first entry of PLATFORMS. *)
Definition nativePlatform : Platform :=
  {| id := "native"; label := "Native (current platform)";
     description := "Build for your current platform"; target := None;
     buildCommand := cargoBuild; requiresDocker := false; requiresCross := false |}.



(** The state of [Promise.all] once the promises listed in [settledSoFar] have
    settled and no other. *)
Definition gathered {A} (promises : list (option A)) (settledSoFar : list nat)
    (g : Gather A) : Prop :=
  length (values g) = length promises
  /\ (forall i, i ∈ settledSoFar -> values g !! i = promises !! i)
  /\ (forall i, i ∉ settledSoFar -> (i < length promises)%nat -> values g !! i = Some None)
  /\ remaining g = (length promises - length settledSoFar)%nat
  /\ handed g = if decide (length settledSoFar = length promises)
                then Some (values g) else None.

(** The results named in the theorem: the i-th is what the build of the i-th
    platform, run on the i-th child, settles to. *)
Definition inOrder (platforms : list Platform) (options : BuildOptions)
    (children : nat -> Child) (first : nat) (results : list BuildResult) : Prop :=
  length results = length platforms
  /\ forall i p, platforms !! i = Some p ->
       exists r, results !! i = Some r
                 /\ buildPlatform p options (children (first + i)%nat) = Some r
                 /\ platform r = p.

(** Two builds: the first succeeds after 100 ms, the second fails after 50. *)
Definition twoChildren (i : nat) : Child :=
  match i with
  | O => childOf 0 [Stdout "ok"; Close (Some 0) 100]
  | _ => childOf 0 [Stderr "boom"; Close (Some 1) 50]
  end.

(** As [quietRelease], with all platforms built at once. *)
Definition parallelQuiet : BuildOptions :=
  {| mode := release; features := ["ffi"]; parallel := true; verbose := false |}.

(** A child whose first event after its output is a close with exit code 0. *)
Definition exitsClean (child : Child) : Prop :=
  exists before now after,
    events child = before ++ Close (Some 0) now :: after
    /\ forallb isData before = true.

(** The ids of a list of platforms. *)
Definition idsOf (platforms : list Platform) : list string := id <$> platforms.

End BuildTerms.

Section TextTerms.

Abbreviation ws := JS.isWhiteSpace.
Abbreviation nq := JS.notQuote.
Abbreviation Q := JS.quote.

(** What a piece of a match is, atom by atom. *)
Definition pieceOf (a : JS.atom) (piece : string) : Prop :=
  match a with
  | JS.Lit l => piece = l
  | JS.Star c => JS.forallb c piece = true
  | JS.Plus c => JS.forallb c piece = true /\ piece <> ""
  | JS.Eol | JS.End_ => piece = ""
  end.

(** Text without a dollar sign: a replacement template reproduces it. *)
Definition dollarFree (s : string) : Prop :=
  JS.forallb (fun a => negb (JS.eqc a "$")) s = true.

(** The head of a version line, up to the opening quote. *)
Definition headOf (F : string) : Prop :=
  exists w1 w2, F = "version" +:+ w1 +:+ "=" +:+ w2
                /\ JS.forallb ws w1 = true /\ JS.forallb ws w2 = true.

(** The texts a version line starts: a head, then a non-empty quoted value. *)
Definition startsVersionLine (s : string) : Prop :=
  exists F val r, s = F +:+ Q +:+ val +:+ Q +:+ r
                  /\ headOf F /\ JS.forallb nq val = true /\ val <> "".

(** The version line with value [v]. *)
Definition lineWith (w1 w2 v post : string) : string :=
  "version" +:+ w1 +:+ "=" +:+ w2 +:+ Q +:+ v +:+ Q +:+ post.

(** The pieces of the match of [lineWith w1 w2 v post]. *)
Definition piecesWith (w1 w2 v : string) : list string :=
  ["version"; w1; "="; w2; Q; v; Q].

(** Characters that are neither a quote nor a dollar sign. *)
Definition plainChar (a : ascii) : bool := JS.notQuote a && negb (JS.eqc a "$").

(** Text of plain characters only. *)
Definition plain (s : string) : Prop := JS.forallb plainChar s = true.

(** The texts a version line of the release script starts: white space, then
    what a version line starts. *)
Definition startsReleaseLine (s : string) : Prop :=
  exists w0 rest,
    s = w0 +:+ rest /\ JS.forallb ws w0 = true /\ startsVersionLine rest.

(** A text without a line feed. *)
Definition oneLine (s : string) : Prop := JS.includes "010" s = false.

(** The header of a commit message: the type, the scope in parentheses, the
    mark of a breaking change, a colon and the subject. *)
Definition header (options : Commit.CommitOptions) : string :=
  Commit.type options
  +:+ match Commit.given (Commit.scope options) with
      | Some s => "(" +:+ s +:+ ")"
      | None => ""
      end
  +:+ (if Commit.breaking options then "!" else "")
  +:+ ": " +:+ Commit.message options.

End TextTerms.

Section WorkflowTerms.
Import Proc.

(** The version 9007199254740992.0.0, whose major component is the first
    integer past the safe range. *)
Definition atTwoTo53 : Workflow.Version :=
  {| Workflow.major := JS.Int (2 ^ 53); Workflow.minor := JS.Int 0;
     Workflow.patch := JS.Int 0 |}.

(** The world after one silent run of the status command. *)
Definition ranOne (w : world) : world :=
  emit (EvExec Workflow.gitStatus true)
    {| files := files w; asked := asked w; ran := S (ran w); trace := trace w |}.

(** A machine without git: every command fails. *)
Definition noGit : env :=
  {| confirms := fun _ => Some false; versionAction := None; customInputs := [];
     shell := fun _ _ => Failed "/bin/sh: 1: git: not found" |}.

(** The world after [writeFileSync path content]. *)
Definition wrote (path content : string) (w : world) : world :=
  emit (EvWrite path content)
    {| files := <[path := {| data := content; readOnly := false |}]> (files w);
       asked := asked w; ran := ran w; trace := trace w |}.

(** A package manifest at version 2.3.1, with a comment after the value. *)
Definition sampleManifest : string :=
  "[package]" +:+ String "010" "" +:+
  "name = " +:+ JS.quote +:+ "quiche" +:+ JS.quote +:+ String "010" "" +:+
  "version = " +:+ JS.quote +:+ "2.3.1" +:+ JS.quote +:+ "  # bumped by hand" +:+ String "010" "" +:+
  "edition = " +:+ JS.quote +:+ "2018" +:+ JS.quote +:+ String "010" "".

(** The same manifest at version 2.4.0. *)
Definition sampleManifestAfter : string :=
  "[package]" +:+ String "010" "" +:+
  "name = " +:+ JS.quote +:+ "quiche" +:+ JS.quote +:+ String "010" "" +:+
  "version = " +:+ JS.quote +:+ "2.4.0" +:+ JS.quote +:+ "  # bumped by hand" +:+ String "010" "" +:+
  "edition = " +:+ JS.quote +:+ "2018" +:+ JS.quote +:+ String "010" "".

(** A package manifest that declares no version. *)
Definition noVersionLine : string :=
  "[package]" +:+ String "010" "" +:+
  "name = " +:+ JS.quote +:+ "quiche" +:+ JS.quote +:+ String "010" "".

(** A working directory that holds the quiche manifest and nothing else. *)
Definition onlyManifest (content : string) : gmap string file :=
  {[ Workflow.quicheManifest := {| data := content; readOnly := false |} ]}.

(** An operator who says yes to everything and keeps the version. *)
Definition anyone : env :=
  {| confirms := fun _ => Some true; versionAction := Some Skip; customInputs := [];
     shell := fun _ _ => Returned (Some "") |}.

(** The version the workflow holds after reading the manifest. *)
Definition readVersion : M Workflow.Version :=
  currentVersion ← Workflow.getCurrentVersion;
  lift (Workflow.parseVersion currentVersion).

(** The event the catch block of the version update emits. *)
Definition updateFailed : event := EvSay Spinner "Failed to update version".

(** Recognises [updateFailed]. *)
Definition isUpdateFailed (ev : event) : bool :=
  match ev with
  | EvSay Spinner message => String.eqb message "Failed to update version"
  | _ => false
  end.

(** A write of the quiche manifest. *)
Definition isManifestWrite (ev : event) : bool :=
  match ev with
  | EvWrite path _ => String.eqb path Workflow.quicheManifest
  | _ => false
  end.

(** A script started by [runScript]: a command run with inherited output. *)
Definition isScript (ev : event) : bool :=
  match ev with
  | EvExec _ silent => negb silent
  | _ => false
  end.

(** A write of any file. *)
Definition isWrite (ev : event) : bool :=
  match ev with
  | EvWrite _ _ => true
  | _ => false
  end.

(** The events of the check of the working tree: no write, no script, no
    failed update. *)
Definition okBefore (ev : event) : bool :=
  negb (isWrite ev) && negb (isScript ev) && negb (isUpdateFailed ev).

(** The events of the phases after the version step: no write, no failed
    update. *)
Definition okAfter (ev : event) : bool :=
  negb (isWrite ev) && negb (isUpdateFailed ev).

(** A computation that leaves the files alone and adds only events that
    satisfy [ok]. *)
Definition only (ok : event -> bool) {A} (m : M A) : Prop :=
  forall e w, exists evs,
    trace (m e w).2 = trace w ++ evs /\ forallb ok evs = true
    /\ files (m e w).2 = files w.

(** Events of the version step when the update does not fail. *)
Definition quietOk (ev : event) : bool :=
  negb (isScript ev) && negb (isUpdateFailed ev).

(** A computation that adds only events satisfying [ok], at most [n] of them
    writes of the quiche manifest. *)
Definition emits (ok : event -> bool) (n : nat) {A} (m : M A) : Prop :=
  forall e w, exists evs,
    trace (m e w).2 = trace w ++ evs /\ forallb ok evs = true
    /\ (length (List.filter isManifestWrite evs) <= n)%nat.

(** The events of the version step: no script, at most one write of the
    quiche manifest, and the failed-update event only on the way to exit
    status 1. *)
Definition tame {A} (m : M A) : Prop :=
  forall e w, exists evs,
    trace (m e w).2 = trace w ++ evs
    /\ forallb (fun ev => negb (isScript ev)) evs = true
    /\ (length (List.filter isManifestWrite evs) <= 1)%nat
    /\ (existsb isUpdateFailed evs = true -> (m e w).1 = Exit 1).

(** main, from the build phase on. *)
Definition fromBuild (newVersion : string) (versionChanged : bool) : M unit :=
  buildRan ← Workflow.buildPhase;
  Workflow.afterBuild newVersion versionChanged buildRan.

(** main, up to the build phase. *)
Definition untilBuild : M (string * bool) :=
  Workflow.preflight;; Workflow.versionStep.

(** A workspace manifest that depends on quiche 2.3.1. *)
Definition workspaceText : string :=
  "[workspace.dependencies]" +:+ String "010" "" +:+
  "quiche = { version = " +:+ JS.quote +:+ "2.3.1" +:+ JS.quote +:+ ", path = "
  +:+ JS.quote +:+ "./quiche" +:+ JS.quote +:+ " }" +:+ String "010" "".

(** A workspace manifest without the quiche dependency line. *)
Definition bareWorkspace : string :=
  "[workspace]" +:+ String "010" "" +:+
  "members = [ " +:+ JS.quote +:+ "quiche" +:+ JS.quote +:+ " ]" +:+ String "010" "".

(** A working directory that holds the two manifests. *)
Definition bothManifests (quiche workspace : string) : gmap string file :=
  <[Workflow.quicheManifest := {| data := quiche; readOnly := false |}]>
    {[ Workflow.workspaceManifest := {| data := workspace; readOnly := false |} ]}.

(** An operator who says yes to everything and asks for the bump [type]; the
    status command prints nothing, and a script's output is not piped. *)
Definition operator (type : BumpType) : env :=
  {| confirms := fun _ => Some true;
     versionAction := Some (Bump type);
     customInputs := [];
     shell := fun _ command =>
                if String.eqb command Workflow.gitStatus then Returned (Some "")
                else Returned None |}.

(** A working directory in which neither manifest names a version. *)
Definition noVersionAnywhere : gmap string file :=
  bothManifests noVersionLine bareWorkspace.

(** The two rewrites of the try block. *)
Definition rewriteBoth (newVersion : string) : M unit :=
  Workflow.updateQuicheVersion newVersion;;
  Workflow.updateWorkspaceVersion newVersion.

(** As [only], at one operator and one starting world. *)
Definition onlyAt (ok : event -> bool) {A} (m : M A) (e : env) (w : world) : Prop :=
  exists evs,
    trace (m e w).2 = trace w ++ evs /\ forallb ok evs = true
    /\ files (m e w).2 = files w.

(** The start of the package script. *)
Definition isPackage (ev : event) : bool :=
  match ev with
  | EvExec command silent => negb silent && String.eqb command (Workflow.npmRun "package")
  | _ => false
  end.

(** A command result that hands the script no text: a failure, or output that
    was not piped to the script (null). *)
Definition notCaptured (r : execResult) : Prop :=
  match r with
  | Returned (Some _) => False
  | _ => True
  end.

(** A computation that ends the process with status 0 or 1, if it ends it. *)
Definition exitsZeroOrOne {A} (m : M A) : Prop :=
  forall e w, match (m e w).1 with
              | Exit status => status = 0 \/ status = 1
              | _ => True
              end.

(** The world after the command [command] was run. *)
Definition ranCommand (command : string) (silent : bool) (w : world) : world :=
  emit (EvExec command silent)
    {| files := files w; asked := asked w; ran := S (ran w); trace := trace w |}.

(** The commands run in a trace, oldest first. *)
Definition commandOf (ev : event) : option string :=
  match ev with
  | EvExec command _ => Some command
  | _ => None
  end.

Definition commandsOf (evs : list event) : list string := omap commandOf evs.

(** The commands of a Docker build of the release script, for the container
    [name] and the repository at [root]. *)
Definition dockerBuildImage : string :=
  "docker build -t nwep-build --build-arg CARGO_CMD=" +:+ JS.quote
  +:+ "cargo build --features ffi" +:+ JS.quote +:+ " .".

Definition dockerCreate (name : string) : string :=
  "docker create --name " +:+ name +:+ " nwep-build".

Definition makeTargetDir (root : string) : string := "mkdir -p " +:+ root +:+ "/target".

Definition dockerCopy (name root : string) : string :=
  "docker cp " +:+ name +:+ ":/nwep/target/. " +:+ root +:+ "/target/".

Definition dockerRemove (name : string) : string := "docker rm " +:+ name.


(** The start of the commit script. *)
Definition isCommit (ev : event) : bool :=
  match ev with
  | EvExec command silent => negb silent && String.eqb command (Workflow.npmRun "commit")
  | _ => false
  end.

(** A result of the status command that [checkGitClean] reads as a clean
    working tree: blank output, no output handed back, or a failure. *)
Definition readsClean (r : execResult) : Prop :=
  match r with
  | Returned (Some stdout) => JS.trim stdout = ""
  | _ => True
  end.

(** An operator who says yes to everything and asks for a patch bump, on a
    machine where every command fails. *)
Definition eagerWithoutGit : env :=
  {| confirms := fun _ => Some true;
     versionAction := Some (Bump Patch);
     customInputs := [];
     shell := fun _ _ => Failed "/bin/sh: 1: git: not found" |}.

End WorkflowTerms.

(* ===================================================================== *)
(** * Lemmas on the runtime *)
(* ===================================================================== *)

Section Strings.

Lemma sapp_nil_l (s : string) : "" +:+ s = s.
Proof. reflexivity. Qed.

Lemma sapp_cons (a : ascii) (s t : string) : String a s +:+ t = String a (s +:+ t).
Proof. reflexivity. Qed.

Lemma sapp_nil_r (s : string) : s +:+ "" = s.
Proof. induction s as [|a s IH]; [reflexivity|]. rewrite sapp_cons, IH. reflexivity. Qed.

Lemma sapp_assoc (s t u : string) : (s +:+ t) +:+ u = s +:+ t +:+ u.
Proof.
  induction s as [|a s IH]; [reflexivity|].
  rewrite !sapp_cons, IH. reflexivity.
Qed.

Lemma sapp_eq_nil (s t : string) : s +:+ t = "" -> s = "" /\ t = "".
Proof. destruct s; [auto|]. rewrite sapp_cons. discriminate. Qed.

End Strings.

Section Numbers.

Lemma toDouble_small (z : Z) : Z.abs z < 2 ^ 53 -> JS.toDouble z = JS.Int z.
Proof.
  intros Hz. unfold JS.toDouble.
  destruct (Z.eq_dec z 0) as [->|Hne]; [reflexivity|].
  assert (Hlog : Z.log2 (Z.abs z) < 53).
  { apply Z.log2_lt_pow2; lia. }
  destruct (Z.leb_spec (Z.log2 (Z.abs z) - 52) 0); [reflexivity | lia].
Qed.

Lemma add1_safe (z : Z) : JS.safe z -> JS.add1 (JS.Int z) = JS.Int (z + 1).
Proof.
  unfold JS.safe, JS.MAX_SAFE_INTEGER. intros Hz. simpl.
  apply toDouble_small. lia.
Qed.

Lemma toDouble_exact (z : Z) : Z.abs z <= 2 ^ 53 -> JS.toDouble z = JS.Int z.
Proof.
  intros Hz.
  destruct (Z.eq_dec z (2 ^ 53)) as [->|H1]; [vm_compute; reflexivity|].
  destruct (Z.eq_dec z (- 2 ^ 53)) as [->|H2]; [vm_compute; reflexivity|].
  apply toDouble_small. lia.
Qed.

Lemma add1_twice_safe (z : Z) :
  JS.safe z -> JS.add1 (JS.add1 (JS.Int z)) = JS.Int (z + 2).
Proof.
  intros Hz. rewrite (add1_safe z Hz).
  unfold JS.safe, JS.MAX_SAFE_INTEGER in Hz. simpl.
  rewrite toDouble_exact by lia. f_equal. lia.
Qed.

End Numbers.

(* ===================================================================== *)
(** * Version bumps (workflow.ts, commit script) *)
(* ===================================================================== *)

Section Bumps.
Import Proc.

(** C6, counterexample.  The components are doubles: at 2^53 adding one
    changes nothing, so the major bump of 9007199254740992.0.0 is that version
    again (not 9007199254740993.0.0), and bumping it twice equals bumping it
    once. *)
Lemma bump_idempotent_at_2_53 :
  Workflow.bumpVersion atTwoTo53 Major = atTwoTo53
  /\ Workflow.bumpVersion (Workflow.bumpVersion atTwoTo53 Major) Major
     = Workflow.bumpVersion atTwoTo53 Major
  /\ Workflow.parseVersion "9007199254740992.0.0" = Done atTwoTo53.
Proof. vm_compute. repeat split; reflexivity. Qed.

(** C6, as amended.  For a version whose components are safe integers (with a
    safe successor), the major bump is [major+1, 0, 0], the minor bump
    [major, minor+1, 0], the patch bump [major, minor, patch+1], and bumping
    twice differs from bumping once for every kind. *)
Theorem bump_laws (a b c : Z) (type : BumpType) :
  JS.safe a -> JS.safe b -> JS.safe c ->
  let v := {| Workflow.major := JS.Int a; Workflow.minor := JS.Int b;
              Workflow.patch := JS.Int c |} in
  Workflow.bumpVersion v Major
  = {| Workflow.major := JS.Int (a + 1); Workflow.minor := JS.Int 0;
       Workflow.patch := JS.Int 0 |}
  /\ Workflow.bumpVersion v Minor
     = {| Workflow.major := JS.Int a; Workflow.minor := JS.Int (b + 1);
          Workflow.patch := JS.Int 0 |}
  /\ Workflow.bumpVersion v Patch
     = {| Workflow.major := JS.Int a; Workflow.minor := JS.Int b;
          Workflow.patch := JS.Int (c + 1) |}
  /\ Workflow.bumpVersion (Workflow.bumpVersion v type) type
     <> Workflow.bumpVersion v type.
Proof.
  intros Ha Hb Hc v. subst v.
  unfold Workflow.bumpVersion; cbn [Workflow.major Workflow.minor Workflow.patch].
  split; [|split; [|split]].
  1-3: rewrite add1_safe by assumption; reflexivity.
  destruct type; cbn [Workflow.major Workflow.minor Workflow.patch];
    rewrite add1_twice_safe, add1_safe by assumption; intros [= H]; lia.
Qed.

Lemma bump_laws_witness :
  Workflow.bumpVersion
    {| Workflow.major := JS.Int 1; Workflow.minor := JS.Int 2; Workflow.patch := JS.Int 3 |}
    Patch
  = {| Workflow.major := JS.Int 1; Workflow.minor := JS.Int 2; Workflow.patch := JS.Int 4 |}
  /\ JS.safe 1 /\ JS.safe 2 /\ JS.safe 3.
Proof.
  assert (H1 : JS.safe 1) by (unfold JS.safe, JS.MAX_SAFE_INTEGER; lia).
  assert (H2 : JS.safe 2) by (unfold JS.safe, JS.MAX_SAFE_INTEGER; lia).
  assert (H3 : JS.safe 3) by (unfold JS.safe, JS.MAX_SAFE_INTEGER; lia).
  split; [|auto].
  exact (proj1 (proj2 (proj2 (bump_laws 1 2 3 Patch H1 H2 H3)))).
Defined.

Lemma parseVersion_pieces (s : string) (v : Workflow.Version) :
  Workflow.parseVersion s = Done v ->
  (JS.Number <$> JS.split "." s) !! 0%nat = Some (Workflow.major v)
  /\ (JS.Number <$> JS.split "." s) !! 1%nat = Some (Workflow.minor v)
  /\ (JS.Number <$> JS.split "." s) !! 2%nat = Some (Workflow.patch v)
  /\ JS.isNaN (Some (Workflow.major v)) = false
  /\ JS.isNaN (Some (Workflow.minor v)) = false
  /\ JS.isNaN (Some (Workflow.patch v)) = false.
Proof.
  unfold Workflow.parseVersion. set (parts := JS.Number <$> JS.split "." s). intros H.
  destruct (existsb _ _) eqn:E; [discriminate|].
  injection H as <-. cbn [Workflow.major Workflow.minor Workflow.patch].
  cbn [existsb] in E. rewrite !orb_false_iff in E.
  destruct E as (E0 & E1 & E2 & _).
  destruct (parts !! 0%nat) as [x|]; [|discriminate].
  destruct (parts !! 1%nat) as [y|]; [|discriminate].
  destruct (parts !! 2%nat) as [z|]; [|discriminate].
  cbn [default]. repeat split; assumption.
Qed.

(** C9.  On every version string the workflow parses, the commit script's
    bump of the string is the workflow's bump of the parsed version, printed. *)
Theorem bump_agree (s : string) (v : Workflow.Version) (type : BumpType) :
  Workflow.parseVersion s = Done v ->
  Commit.bumpVersion s type = Workflow.formatVersion (Workflow.bumpVersion v type).
Proof.
  intros H. destruct (parseVersion_pieces s v H) as (H0 & H1 & H2 & _).
  unfold Commit.bumpVersion, Commit.parseVersion.
  cbn [Commit.major Commit.minor Commit.patch].
  rewrite H0, H1, H2.
  unfold Workflow.formatVersion, Workflow.bumpVersion.
  destruct type; cbn [Workflow.major Workflow.minor Workflow.patch JS.plus1 JS.toString];
    reflexivity.
Qed.

Lemma bump_agree_witness :
  Workflow.parseVersion "2.3.1"
  = Done {| Workflow.major := JS.Int 2; Workflow.minor := JS.Int 3;
            Workflow.patch := JS.Int 1 |}
  /\ Commit.bumpVersion "2.3.1" Minor = "2.4.0".
Proof.
  split; [reflexivity|].
  exact (bump_agree "2.3.1" _ Minor eq_refl).
Defined.

End Bumps.

(* ===================================================================== *)
(** * The build executor (build.ts) *)
(* ===================================================================== *)

Section Executor.
Import Build.

Lemma fold_settled p options start (evs : list childEvent) (st : Listener) r :
  settled st = Some r ->
  settled (fold_left (onEvent p options start) evs st) = Some r.
Proof.
  revert st. induction evs as [|ev evs IH]; intros st H; [exact H|].
  cbn [fold_left]. apply IH.
  destruct ev; cbn [onEvent]; unfold resolve;
    repeat (case_match; cbn [settled]); congruence.
Qed.

Lemma fold_data p options start (evs : list childEvent) (st : Listener) :
  forallb isData evs = true -> settled st = None ->
  settled (fold_left (onEvent p options start) evs st) = None.
Proof.
  revert st. induction evs as [|ev evs IH]; intros st Hd H; [exact H|].
  cbn [forallb] in Hd. apply andb_true_iff in Hd as [Hev Hd].
  cbn [fold_left]. apply IH; [exact Hd|].
  destruct ev; try discriminate; cbn [onEvent]; case_match; exact H.
Qed.

Lemma fold_first p options start (before after : list childEvent) ev (st : Listener) r :
  settled (onEvent p options start
             (fold_left (onEvent p options start) before st) ev) = Some r ->
  settled (fold_left (onEvent p options start) (before ++ ev :: after) st) = Some r.
Proof.
  intros H. rewrite fold_left_app. cbn [fold_left]. apply fold_settled. exact H.
Qed.

Lemma orElse_nonempty (a b : string) : b <> "" -> orElse a b <> "".
Proof.
  intros Hb. unfold orElse. destruct (String.eqb_spec a ""); assumption.
Qed.

Lemma failure_message_nonempty (out err : string) (code : option Z) :
  orElse err (orElse out ("Build failed with exit code " +:+ codeToString code)) <> "".
Proof. apply orElse_nonempty, orElse_nonempty. discriminate. Qed.

(** C1.  The first [close] or [error] event of the child decides the result.
    Exit code 0: success, no error, and an output path that depends only on
    the target triple and the mode ([target/<triple>/<mode>/] for a triple,
    [target/<mode>/] without one).  Any other exit code, or a spawn error
    (whose message Node never leaves empty): failure, a non-empty error, no
    output path, the error of a spawn error being its message.  Every triple
    of the registry is non-empty. *)
Theorem buildPlatform_result (p : Platform) (options : BuildOptions) (start now : Z)
    (before after : list childEvent) :
  forallb isData before = true ->
  buildPlatform p options (childOf start (before ++ Close (Some 0) now :: after))
  = Some {| platform := p; success := true; duration := now - start; error := None;
            outputPath := Some (outputPathOf (target p) (mode options)) |}
  /\ (forall code, code <> Some 0 ->
      exists message, message <> ""
        /\ buildPlatform p options (childOf start (before ++ Close code now :: after))
           = Some {| platform := p; success := false; duration := now - start;
                     error := Some message; outputPath := None |})
  /\ (forall message,
      buildPlatform p options (childOf start (before ++ Error message now :: after))
      = Some {| platform := p; success := false; duration := now - start;
                error := Some message; outputPath := None |})
  /\ (forall triple, target p = Some triple -> triple <> "" ->
      outputPathOf (target p) (mode options)
      = "target/" +:+ triple +:+ "/" +:+ modeName (mode options) +:+ "/")
  /\ (target p = None ->
      outputPathOf (target p) (mode options) = "target/" +:+ modeName (mode options) +:+ "/")
  /\ Forall (fun q => target q <> Some "") PLATFORMS.
Proof.
  intros Hd.
  assert (Hnone : settled (fold_left (onEvent p options start) before fresh) = None)
    by (apply fold_data; [exact Hd | reflexivity]).
  repeat apply conj.
  - unfold buildPlatform, childOf; cbn [startTime events]. apply fold_first.
    cbn [onEvent]. rewrite bool_decide_eq_true_2 by reflexivity.
    unfold resolve. fold fresh. rewrite Hnone. reflexivity.
  - intros code Hcode. eexists. split; [|].
    2:{ unfold buildPlatform, childOf; cbn [startTime events]. apply fold_first.
        cbn [onEvent]. rewrite bool_decide_eq_false_2 by exact Hcode.
        unfold resolve. fold fresh. rewrite Hnone. reflexivity. }
    apply failure_message_nonempty.
  - intros message. unfold buildPlatform, childOf; cbn [startTime events].
    apply fold_first. cbn [onEvent]. unfold resolve. fold fresh. rewrite Hnone.
    reflexivity.
  - intros triple -> Hne. unfold outputPathOf.
    destruct (String.eqb_spec triple ""); [contradiction | reflexivity].
  - intros ->. reflexivity.
  - repeat constructor; discriminate.
Qed.

Lemma buildPlatform_result_witness :
  forallb isData [Stdout "Compiling quiche"; Stderr "warning: unused"] = true
  /\ buildPlatform (crossPlatform "linux-arm64" "Linux ARM64" "" "aarch64-unknown-linux-gnu")
       {| mode := release; features := ["ffi"]; parallel := false; verbose := false |}
       (childOf 1000 ([Stdout "Compiling quiche"; Stderr "warning: unused"]
                      ++ Close (Some 0) 61000 :: []))
     = Some {| platform := crossPlatform "linux-arm64" "Linux ARM64" "" "aarch64-unknown-linux-gnu";
               success := true; duration := 60000; error := None;
               outputPath := Some "target/aarch64-unknown-linux-gnu/release/" |}.
Proof.
  split; [reflexivity|].
  exact (proj1 (buildPlatform_result
                  (crossPlatform "linux-arm64" "Linux ARM64" "" "aarch64-unknown-linux-gnu")
                  {| mode := release; features := ["ffi"]; parallel := false; verbose := false |}
                  1000 61000 [Stdout "Compiling quiche"; Stderr "warning: unused"] []
                  eq_refl)).
Defined.

Lemma agree_refl (a : option BuildResult) : agree a a.
Proof. destruct a; cbn; auto. Qed.







End Executor.

(* ===================================================================== *)
(** * The build loop (build.ts) *)
(* ===================================================================== *)

Section Controller.
Import Build.

Context {A : Type}.
Implicit Types (promises : list (option A)) (g : Gather A).

Lemma gathered_step promises (before : list nat) (i : nat) (rest : list nat) g :
  (forall j, (j < length promises)%nat -> exists v, promises !! j = Some (Some v)) ->
  NoDup (before ++ i :: rest) ->
  (forall j, j ∈ before ++ i :: rest -> (j < length promises)%nat) ->
  length (before ++ i :: rest) = length promises ->
  gathered promises before g ->
  gathered promises (before ++ [i]) (fulfil promises g i).
Proof.
  intros Hall Hnd Hlt Hlen (Hv & Hin & Hout & Hrem & Hh).
  assert (Hi : (i < length promises)%nat) by (apply Hlt; set_solver).
  destruct (Hall i Hi) as [v Hpi].
  assert (Hfresh : i ∉ before).
  { apply NoDup_app in Hnd as (_ & Hnd & _). intros Hb. apply (Hnd i Hb). set_solver. }
  rewrite length_app in Hlen. cbn [length] in Hlen.
  unfold fulfil. rewrite Hpi. unfold gathered. cbn [values remaining handed].
  rewrite length_insert, length_app. cbn [length].
  split; [exact Hv|]. split; [|split; [|split]].
  - intros j Hj. destruct (decide (j = i)) as [->|Hne].
    + rewrite list_lookup_insert_eq by lia. symmetry; exact Hpi.
    + rewrite list_lookup_insert_ne by congruence. apply Hin.
      apply elem_of_app in Hj as [Hj|Hj]; [exact Hj|].
      apply list_elem_of_singleton in Hj. contradiction.
  - intros j Hj Hjn.
    assert (j <> i) by (intros ->; apply Hj, elem_of_app; right; constructor).
    rewrite list_lookup_insert_ne by congruence.
    apply Hout; [|exact Hjn]. intros Hb. apply Hj, elem_of_app. left; exact Hb.
  - rewrite Hrem. lia.
  - rewrite Hh, Hrem. rewrite decide_False by lia.
    destruct (Nat.eqb_spec (Nat.pred (length promises - length before)) 0);
      [rewrite decide_True by lia | rewrite decide_False by lia]; reflexivity.
Qed.

Lemma gathered_fold promises (todo before : list nat) g :
  (forall j, (j < length promises)%nat -> exists v, promises !! j = Some (Some v)) ->
  NoDup (before ++ todo) ->
  (forall j, j ∈ before ++ todo -> (j < length promises)%nat) ->
  length (before ++ todo) = length promises ->
  gathered promises before g ->
  gathered promises (before ++ todo) (fold_left (fulfil promises) todo g).
Proof.
  intros Hall. revert before g.
  induction todo as [|i rest IH]; intros before g Hnd Hlt Hlen Hg.
  - rewrite app_nil_r. exact Hg.
  - cbn [fold_left].
    replace (before ++ i :: rest) with ((before ++ [i]) ++ rest) in *
      by (rewrite <- app_assoc; reflexivity).
    apply IH; try assumption.
    apply (gathered_step promises before i rest); try assumption;
      rewrite <- app_assoc in *; assumption.
Qed.

Lemma promiseAll_any_order promises (order : list nat) :
  (forall j, (j < length promises)%nat -> exists v, promises !! j = Some (Some v)) ->
  order ≡ₚ seq 0 (length promises) ->
  promiseAll promises order = mapM (fun slot => slot) promises.
Proof.
  intros Hall Hperm. unfold promiseAll.
  destruct promises as [|p0 ps] eqn:Ep; [reflexivity|]. rewrite <- Ep in *.
  assert (Hn : length promises <> 0%nat) by (rewrite Ep; discriminate).
  set (g0 := {| values := replicate (length promises) None;
                remaining := length promises; handed := None |}).
  assert (H0 : gathered promises [] g0).
  { unfold gathered, g0; cbn [values remaining handed length].
    rewrite length_replicate. repeat split.
    - intros i Hi. set_solver.
    - intros i _ Hi. apply lookup_replicate_2. exact Hi.
    - lia.
    - rewrite decide_False by lia. reflexivity. }
  assert (Hg : gathered promises ([] ++ order) (fold_left (fulfil promises) order g0)).
  { apply gathered_fold; try assumption; cbn [app].
    - rewrite Hperm. apply NoDup_seq.
    - intros j Hj. rewrite Hperm in Hj. apply elem_of_seq in Hj. lia.
    - rewrite Hperm. apply length_seq. }
  cbn [app] in Hg. destruct Hg as (Hv & Hin & _ & _ & Hh).
  rewrite Hh, decide_True by (rewrite Hperm; apply length_seq).
  f_equal. apply list_eq. intros i.
  destruct (decide (i < length promises)%nat) as [Hi|Hi].
  - apply Hin. rewrite Hperm. apply elem_of_seq. lia.
  - rewrite !lookup_ge_None_2 by lia. reflexivity.
Qed.

End Controller.

Section RunAll.
Import Build.

Lemma fold_platform p options start (evs : list childEvent) (st : Listener) r :
  (forall r0, settled st = Some r0 -> platform r0 = p) ->
  settled (fold_left (onEvent p options start) evs st) = Some r -> platform r = p.
Proof.
  revert st. induction evs as [|ev evs IH]; intros st Hst H; [apply Hst, H|].
  cbn [fold_left] in H. apply (IH _) in H; [exact H|].
  intros r0. destruct ev; cbn [onEvent].
  - case_match; cbn [settled]; apply Hst.
  - case_match; cbn [settled]; apply Hst.
  - unfold resolve. case_bool_decide; destruct (settled st) eqn:E; cbn [settled];
      rewrite ?E; try (intros [= <-]; reflexivity); apply Hst.
  - unfold resolve. destruct (settled st) eqn:E; cbn [settled];
      rewrite ?E; try (intros [= <-]; reflexivity); apply Hst.
Qed.

Lemma buildPlatform_platform p options child r :
  buildPlatform p options child = Some r -> platform r = p.
Proof. unfold buildPlatform. apply fold_platform. discriminate. Qed.

Lemma sequential_in_order (platforms : list Platform) options children first acc :
  (forall i p, platforms !! i = Some p ->
     is_Some (buildPlatform p options (children (first + i)%nat))) ->
  exists results, sequential platforms options children first acc = Some (acc ++ results)
                  /\ inOrder platforms options children first results.
Proof.
  revert first acc. induction platforms as [|p rest IH]; intros first acc Hall.
  - exists []. cbn [sequential]. rewrite app_nil_r. split; [reflexivity|].
    split; [reflexivity|]. intros i p H. rewrite lookup_nil in H. discriminate.
  - destruct (Hall 0%nat p eq_refl) as [r Hr]. rewrite Nat.add_0_r in Hr.
    destruct (IH (S first) (acc ++ [r])) as (results & Hs & Hlen & Hres).
    { intros i q Hq. replace (S first + i)%nat with (first + S i)%nat by lia.
      apply Hall. exact Hq. }
    exists (r :: results). cbn [sequential]. rewrite Hr, Hs, <- app_assoc.
    split; [reflexivity|]. split; [cbn [length]; lia|].
    intros [|i] q Hq.
    + injection Hq as <-. exists r. rewrite Nat.add_0_r.
      repeat split; [exact Hr | exact (buildPlatform_platform _ _ _ _ Hr)].
    + replace (first + S i)%nat with (S first + i)%nat by lia.
      apply Hres. exact Hq.
Qed.

(** C2.  When every build settles, [runAll] returns one result per selected
    platform, the i-th being the result of the i-th platform, in sequential
    mode and, for every order in which the builds finish, in parallel mode. *)
Theorem runAll_keeps_order (platforms : list Platform) (options : BuildOptions)
    (children : nat -> Child) (order : list nat) :
  (forall i p, platforms !! i = Some p ->
     is_Some (buildPlatform p options (children i))) ->
  order ≡ₚ seq 0 (length platforms) ->
  exists results, runAll platforms options children order = Some results
                  /\ inOrder platforms options children 0 results.
Proof.
  intros Hall Hperm. unfold runAll. destruct (parallel options).
  - set (promises := imap (fun index p => buildPlatform p options (children index)) platforms).
    assert (Hlen : length promises = length platforms) by apply length_imap.
    assert (Hlook : forall i, promises !! i
                     = (fun p => buildPlatform p options (children i)) <$> platforms !! i)
      by (intros i; apply list_lookup_imap).
    assert (Hsome : forall j, (j < length promises)%nat ->
                              exists v, promises !! j = Some (Some v)).
    { intros j Hj. rewrite Hlen in Hj.
      destruct (lookup_lt_is_Some_2 platforms j Hj) as [p Hp].
      destruct (Hall j p Hp) as [r Hr]. exists r. rewrite Hlook, Hp. cbn. rewrite Hr.
      reflexivity. }
    rewrite (promiseAll_any_order promises order Hsome) by (rewrite Hlen; exact Hperm).
    destruct (mapM (fun slot => slot) promises) as [results|] eqn:Em.
    + exists results. split; [reflexivity|].
      apply mapM_Some_1 in Em.
      split; [rewrite <- (Forall2_length _ _ _ Em); exact Hlen|].
      intros i p Hp. cbn [Nat.add].
      destruct (Forall2_lookup_l _ _ _ i (buildPlatform p options (children i)) Em)
        as (r & Hr & Heq).
      { rewrite Hlook, Hp. reflexivity. }
      exists r. repeat split; [exact Hr | exact Heq |
        exact (buildPlatform_platform _ _ _ _ Heq)].
    + exfalso. apply mapM_None_1, Exists_exists in Em as (x & Hx & Hnone).
      apply list_elem_of_lookup in Hx as [j Hj].
      destruct (Hsome j (lookup_lt_Some _ _ _ Hj)) as [v Hv]. congruence.
  - destruct (sequential_in_order platforms options children 0 []) as (results & Hs & Hin).
    { intros i p Hp. apply Hall. exact Hp. }
    exists results. split; [exact Hs | exact Hin].
Qed.

(** Target B finishes first (after 50 ms), target A second. *)
Lemma runAll_keeps_order_witness :
  exists results,
    runAll (take 2 PLATFORMS) parallelQuiet twoChildren [1; 0]%nat = Some results
    /\ inOrder (take 2 PLATFORMS) parallelQuiet twoChildren 0 results.
Proof.
  apply (runAll_keeps_order (take 2 PLATFORMS) parallelQuiet twoChildren [1; 0]%nat).
  - intros [|[|i]] p Hp; cbn in Hp; try discriminate; injection Hp as <-;
      eexists; reflexivity.
  - cbn. apply Permutation_swap.
Defined.

End RunAll.

(* ===================================================================== *)
(** * The clean-tree check (workflow.ts) *)
(* ===================================================================== *)

Section CleanTree.
Import Proc.

(** C10.  When the status command fails, the silent [exec] returns the empty
    string, so [checkGitClean] answers true; [main] then reports a clean tree
    and neither warns nor asks for confirmation. *)
Theorem failed_status_reads_clean (e : env) (w : world) (message : string) :
  shell e (ran w) Workflow.gitStatus = Failed message ->
  Workflow.exec Workflow.gitStatus true e w = (Done "", ranOne w)
  /\ Workflow.checkGitClean e w = (Done true, ranOne w)
  /\ (forall fs, w = start fs ->
      Workflow.preflight e w
      = (Done tt,
         {| files := fs; asked := 0; ran := 1;
            trace := [EvSay Intro "quiche-nwep Workflow Orchestrator";
                      EvSay Note "Workflow Steps";
                      EvExec Workflow.gitStatus true;
                      EvSay Info "Git working directory is clean"] |})).
Proof.
  intros H.
  assert (Hexec : Workflow.exec Workflow.gitStatus true e w = (Done "", ranOne w)).
  { unfold Workflow.exec, try, mbind, M_bind, bind, execSync. rewrite H. reflexivity. }
  split; [exact Hexec|]. split.
  - unfold Workflow.checkGitClean, mbind, M_bind, bind. rewrite Hexec. reflexivity.
  - intros fs ->. cbn [start ran] in H.
    unfold Workflow.preflight, Workflow.checkGitClean, Workflow.exec, try, mbind, M_bind,
      bind, execSync, say, start, emit. cbn [ran trace files asked app].
    rewrite H. reflexivity.
Qed.

Lemma failed_status_reads_clean_witness :
  Workflow.checkGitClean noGit (start ∅) = (Done true, ranOne (start ∅)).
Proof.
  exact (proj1 (proj2 (failed_status_reads_clean noGit (start ∅)
                         "/bin/sh: 1: git: not found" eq_refl))).
Defined.

End CleanTree.

(* ===================================================================== *)
(** * Lemmas on matching and replacing *)
(* ===================================================================== *)

Section RegExp.

Lemma stripPrefix_sound (p s r : string) : JS.stripPrefix p s = Some r -> s = p +:+ r.
Proof.
  revert s. induction p as [|a p IH]; intros s H.
  - injection H as ->. reflexivity.
  - destruct s as [|b s]; [discriminate|]. cbn [JS.stripPrefix] in H.
    unfold JS.eqc in H. destruct (Ascii.eqb_spec a b) as [->|]; [|discriminate].
    rewrite sapp_cons, <- (IH s H). reflexivity.
Qed.

Lemma stripPrefix_app (p r : string) : JS.stripPrefix p (p +:+ r) = Some r.
Proof.
  induction p as [|a p IH]; [reflexivity|].
  rewrite sapp_cons. cbn [JS.stripPrefix]. unfold JS.eqc.
  rewrite Ascii.eqb_refl. exact IH.
Qed.

Lemma star_sound c k (s run : string) (m : JS.mres) :
  JS.star c k s = Some (run, m) ->
  JS.forallb c run = true /\ exists s', s = run +:+ s' /\ k s' = Some m.
Proof.
  revert run. induction s as [|a s IH]; intros run H; cbn [JS.star] in H.
  - destruct (k "") as [m'|] eqn:Ek; [|discriminate]. injection H as <- <-.
    split; [reflexivity|]. exists "". auto.
  - assert (Hstop : option_map (pair "") (k (String a s)) = Some (run, m) ->
                    JS.forallb c run = true
                    /\ exists s', String a s = run +:+ s' /\ k s' = Some m).
    { intros H'. destruct (k (String a s)) as [m'|] eqn:Ek; [|discriminate].
      injection H' as <- <-. split; [reflexivity|]. exists (String a s). auto. }
    destruct (c a) eqn:Eca; [|exact (Hstop H)].
    destruct (JS.star c k s) as [[run' m']|] eqn:Es; [|exact (Hstop H)].
    injection H as <- <-. destruct (IH run' eq_refl) as (Hc & s' & -> & Hk).
    split; [cbn [JS.forallb]; rewrite Eca, Hc; reflexivity|].
    exists s'. rewrite sapp_cons. auto.
Qed.

Lemma matchHere_sound (p : list JS.atom) (s : string) (pieces : list string) (rest : string) :
  JS.matchHere p s = Some (pieces, rest) ->
  s = JS.concat pieces +:+ rest /\ Forall2 pieceOf p pieces.
Proof.
  revert s pieces. induction p as [|a p IH]; intros s pieces H.
  - injection H as <- <-. split; [reflexivity | constructor].
  - destruct a as [l|c|c| |]; cbn [JS.matchHere] in H.
    + destruct (JS.stripPrefix l s) as [s'|] eqn:El; [|discriminate].
      destruct (JS.matchHere p s') as [[ps r]|] eqn:Em; [|discriminate].
      injection H as <- <-. destruct (IH s' ps Em) as [-> Hf].
      apply stripPrefix_sound in El as ->.
      split; [cbn [JS.concat]; rewrite sapp_assoc; reflexivity|].
      constructor; [reflexivity | exact Hf].
    + destruct (JS.star c (JS.matchHere p) s) as [[run [ps r]]|] eqn:Es; [|discriminate].
      injection H as <- <-. apply star_sound in Es as (Hc & s' & -> & Hk).
      destruct (IH s' ps Hk) as [-> Hf].
      split; [cbn [JS.concat]; rewrite sapp_assoc; reflexivity|].
      constructor; [exact Hc | exact Hf].
    + destruct s as [|a s]; [discriminate|].
      destruct (c a) eqn:Eca; [|discriminate].
      destruct (JS.star c (JS.matchHere p) s) as [[run [ps r]]|] eqn:Es; [|discriminate].
      injection H as <- <-. apply star_sound in Es as (Hc & s' & -> & Hk).
      destruct (IH s' ps Hk) as [-> Hf].
      split; [cbn [JS.concat]; rewrite sapp_assoc; reflexivity|].
      constructor; [|exact Hf].
      split; [cbn [JS.forallb]; rewrite Eca, Hc; reflexivity | discriminate].
    + destruct (JS.atEol s); [|discriminate].
      destruct (JS.matchHere p s) as [[ps r]|] eqn:Em; [|discriminate].
      injection H as <- <-. destruct (IH s ps Em) as [-> Hf].
      split; [reflexivity|]. constructor; [reflexivity | exact Hf].
    + destruct s; [|discriminate].
      destruct (JS.matchHere p "") as [[ps r]|] eqn:Em; [|discriminate].
      injection H as <- <-. destruct (IH "" ps Em) as [Heq Hf].
      split; [exact Heq|]. constructor; [reflexivity | exact Hf].
Qed.

(** A match found by the search starts the text after [pre]. *)
Lemma searchLines_sound (p : list JS.atom) (bol : bool) (s pre : string) (m : JS.mres) :
  JS.searchLines p bol s = Some (pre, m) ->
  exists here, s = pre +:+ here /\ JS.matchHere p here = Some m.
Proof.
  revert bol pre. induction s as [|a s IH]; intros bol pre H; cbn [JS.searchLines] in H.
  - destruct bol; [|discriminate].
    destruct (JS.matchHere p "") as [m'|] eqn:Em; [|discriminate].
    injection H as <- <-. exists "". auto.
  - destruct (if bol then JS.matchHere p (String a s) else None) as [m'|] eqn:Em.
    + injection H as <- <-. exists (String a s). split; [reflexivity|].
      destruct bol; [exact Em | discriminate].
    + destruct (JS.searchLines p (JS.isLineTerminator a) s) as [[pre' m']|] eqn:Es;
        [|discriminate].
      injection H as <- <-. destruct (IH _ _ Es) as (here & -> & Hm).
      exists here. rewrite sapp_cons. auto.
Qed.

Lemma concat_app (xs ys : list string) :
  JS.concat (xs ++ ys) = JS.concat xs +:+ JS.concat ys.
Proof.
  induction xs as [|x xs IH]; [reflexivity|].
  cbn [app JS.concat]. rewrite IH, sapp_assoc. reflexivity.
Qed.

Lemma substitute_plain caps pre matched post (nv t : string) :
  dollarFree nv ->
  JS.substitute caps pre matched post (nv +:+ t)
  = nv +:+ JS.substitute caps pre matched post t.
Proof.
  unfold dollarFree. induction nv as [|a nv IH]; intros H; [reflexivity|].
  cbn [JS.forallb] in H. apply andb_true_iff in H as [Ha H].
  rewrite !sapp_cons. cbn [JS.substitute].
  apply negb_true_iff in Ha. rewrite Ha, (IH H). reflexivity.
Qed.

Lemma isDigit_value (d : ascii) : JS.isDigit d = true -> 0 <= JS.digitValue d <= 9.
Proof.
  unfold JS.isDigit, JS.digitValue. intros H.
  apply andb_true_iff in H as [H1 H2].
  apply N.leb_le in H1, H2. lia.
Qed.

(** The template of the version updates, with two captures. *)
Lemma substitute_version (c1 c2 pre matched post nv : string) :
  dollarFree nv ->
  JS.substitute [c1; c2] pre matched post ("$1" +:+ nv +:+ "$2") = c1 +:+ nv +:+ c2.
Proof.
  intros Hnv.
  assert (Htail : JS.substitute [c1; c2] pre matched post (nv +:+ "$2") = nv +:+ c2).
  { rewrite substitute_plain by exact Hnv. f_equal.
    cbn. unfold JS.capture. cbn. apply sapp_nil_r. }
  change ("$1" +:+ nv +:+ "$2") with (String "$" (String "1" (nv +:+ "$2"))).
  cbn [JS.substitute].
  change (JS.eqc "$" "$") with true. change (JS.eqc "1" "$") with false.
  change (JS.eqc "1" "`") with false. change (JS.eqc "1" "&") with false.
  change (JS.eqc "1" "'") with false. change (JS.isDigit "1") with true.
  cbv iota.
  change (JS.capture [c1; c2] (JS.digitValue "1") "$1") with c1.
  rewrite Htail.
  destruct (nv +:+ "$2") as [|d t3] eqn:E; [reflexivity|].
  destruct (JS.isDigit d) eqn:Ed; [|reflexivity].
  apply isDigit_value in Ed.
  change (JS.digitValue "1") with 1. cbn [length].
  destruct (Z.ltb_spec (Z.of_nat 2) (10 * 1 + JS.digitValue d)); [reflexivity | lia].
Qed.

(** The frame of a version update.  For a pattern whose two groups are the
    atoms before atom [k] and the atoms after it, replacing with the template
    [$1 newVersion $2] changes the piece of atom [k] and nothing else. *)
Lemma replace_frame (p : list JS.atom) (k : nat) (nv s pre post : string)
    (pieces : list string) :
  dollarFree nv ->
  JS.execM p s = Some (pre, (pieces, post)) ->
  (k < length pieces)%nat ->
  s = pre +:+ JS.concat (take k pieces) +:+ nth k pieces "" +:+
      JS.concat (drop (S k) pieces) +:+ post
  /\ JS.replace p [(0, k); (S k, length p - S k)]%nat ("$1" +:+ nv +:+ "$2") s
     = pre +:+ JS.concat (take k pieces) +:+ nv +:+
       JS.concat (drop (S k) pieces) +:+ post.
Proof.
  intros Hnv Hex Hk. unfold JS.replace. rewrite Hex.
  destruct (searchLines_sound _ _ _ _ _ Hex) as (here & -> & Hm).
  destruct (matchHere_sound _ _ _ _ Hm) as [-> Hf].
  assert (Hlen : length p = length pieces) by exact (Forall2_length _ _ _ Hf).
  destruct (lookup_lt_is_Some_2 pieces k Hk) as [x Hx].
  rewrite (nth_lookup_Some _ _ "" _ Hx).
  split.
  - f_equal. rewrite <- !sapp_assoc. f_equal.
    rewrite <- (take_drop k pieces) at 1.
    rewrite (drop_S pieces x k Hx), concat_app. cbn [JS.concat].
    rewrite !sapp_assoc. reflexivity.
  - cbn [map fst snd]. rewrite substitute_version by exact Hnv.
    unfold JS.group. cbn [drop]. rewrite Hlen.
    rewrite (take_ge (drop (S k) pieces)) by (rewrite length_drop; lia).
    rewrite !sapp_assoc. reflexivity.
Qed.

(** A repetition followed by something no character of its class can start
    never gives a character back: it takes the longest run. *)
Lemma star_greedy c k (s : string) :
  (forall a t, c a = true -> k (String a t) = None) ->
  JS.star c k s = option_map (pair (JS.takeWhile c s)) (k (JS.dropWhile c s)).
Proof.
  intros Hk. induction s as [|a s IH]; [reflexivity|].
  cbn [JS.star JS.takeWhile JS.dropWhile]. destruct (c a) eqn:Eca; [|reflexivity].
  rewrite IH. destruct (k (JS.dropWhile c s)) as [m|]; cbn [option_map]; [reflexivity|].
  rewrite (Hk a s Eca). reflexivity.
Qed.

Lemma lit_rejects c (b : ascii) (l : string) (p : list JS.atom) (a : ascii) (t : string) :
  c b = false -> c a = true -> JS.matchHere (JS.Lit (String b l) :: p) (String a t) = None.
Proof.
  intros Hb Ha. cbn [JS.matchHere JS.stripPrefix]. unfold JS.eqc.
  destruct (Ascii.eqb_spec b a) as [->|]; [congruence | reflexivity].
Qed.

Lemma takeWhile_run c (w rest : string) :
  JS.forallb c w = true -> JS.takeWhile c rest = "" ->
  JS.takeWhile c (w +:+ rest) = w /\ JS.dropWhile c (w +:+ rest) = JS.dropWhile c rest.
Proof.
  intros Hw Hr. induction w as [|a w IH]; [split; [exact Hr | reflexivity]|].
  cbn [JS.forallb] in Hw. apply andb_true_iff in Hw as [Ha Hw].
  rewrite sapp_cons. cbn [JS.takeWhile JS.dropWhile]. rewrite Ha.
  destruct (IH Hw) as [-> ->]. split; reflexivity.
Qed.

Lemma dropWhile_stop c (a : ascii) (t : string) :
  c a = false -> JS.takeWhile c (String a t) = "" /\ JS.dropWhile c (String a t) = String a t.
Proof. intros H. cbn. rewrite H. split; reflexivity. Qed.

Lemma sforallb_app c (s t : string) :
  JS.forallb c (s +:+ t) = JS.forallb c s && JS.forallb c t.
Proof.
  induction s as [|a s IH]; [reflexivity|].
  rewrite sapp_cons. cbn [JS.forallb]. rewrite IH, andb_assoc. reflexivity.
Qed.

Lemma sforallb_impl (c d : ascii -> bool) (s : string) :
  (forall a, c a = true -> d a = true) -> JS.forallb c s = true -> JS.forallb d s = true.
Proof.
  intros Hcd. induction s as [|a s IH]; [reflexivity|]. cbn [JS.forallb].
  intros H. apply andb_true_iff in H as [Ha H]. rewrite (Hcd a Ha), (IH H). reflexivity.
Qed.

Lemma whiteSpace_notQuote (a : ascii) : JS.isWhiteSpace a = true -> JS.notQuote a = true.
Proof.
  unfold JS.notQuote, JS.isQuote, JS.eqc. destruct (Ascii.eqb_spec a "034") as [->|]; [|reflexivity].
  vm_compute. discriminate.
Qed.

End RegExp.

(* ===================================================================== *)
(** * The version line of the manifest (workflow.ts) *)
(* ===================================================================== *)

Section VersionField.

Abbreviation ws := JS.isWhiteSpace.
Abbreviation nq := JS.notQuote.
Abbreviation Q := JS.quote.

Lemma matchHere_lit l p (s : string) :
  JS.matchHere (JS.Lit l :: p) s
  = match JS.stripPrefix l s with
    | Some s' => JS.pushPiece l (JS.matchHere p s')
    | None => None
    end.
Proof. reflexivity. Qed.

Lemma matchHere_star c p (s : string) :
  JS.matchHere (JS.Star c :: p) s = JS.pushRun (JS.star c (JS.matchHere p) s).
Proof. reflexivity. Qed.

Lemma matchHere_plus c p (a : ascii) (s : string) :
  c a = true ->
  JS.matchHere (JS.Plus c :: p) (String a s)
  = match JS.star c (JS.matchHere p) s with
    | Some (run, (pieces, rest)) => Some (String a run :: pieces, rest)
    | None => None
    end.
Proof. intros H. cbn [JS.matchHere]. rewrite H. reflexivity. Qed.

(** A white-space run followed by a literal that starts with another
    character. *)
Lemma matchHere_star_lit c (b : ascii) (l : string) p (w rest : string) :
  c b = false -> JS.forallb c w = true ->
  JS.matchHere (JS.Star c :: JS.Lit (String b l) :: p) (w +:+ String b rest)
  = JS.pushPiece w (JS.matchHere (JS.Lit (String b l) :: p) (String b rest)).
Proof.
  intros Hb Hw. rewrite matchHere_star.
  rewrite star_greedy by (intros a t Ha; apply (lit_rejects c); assumption).
  destruct (takeWhile_run c w (String b rest) Hw) as [-> ->];
    [cbn; rewrite Hb; reflexivity|].
  cbn [JS.dropWhile]. rewrite Hb.
  destruct (JS.matchHere _ _) as [[ps r]|]; reflexivity.
Qed.

(** The text of a version line matches, with these pieces. *)
Lemma versionField_match (w1 w2 val r : string) :
  JS.forallb ws w1 = true -> JS.forallb ws w2 = true ->
  JS.forallb nq val = true -> val <> "" ->
  JS.matchHere Workflow.versionField
    ("version" +:+ w1 +:+ "=" +:+ w2 +:+ Q +:+ val +:+ Q +:+ r)
  = Some (["version"; w1; "="; w2; Q; val; Q], r).
Proof.
  intros H1 H2 Hv Hne. unfold Workflow.versionField, JS.quote.
  rewrite matchHere_lit, stripPrefix_app.
  change ("=" +:+ ?x) with (String "=" x).
  rewrite (matchHere_star_lit ws) by (reflexivity || assumption).
  rewrite matchHere_lit. cbn [JS.stripPrefix]. change (JS.eqc "=" "=") with true. cbv iota.
  change (String "034" "" +:+ ?x) with (String "034" x).
  rewrite (matchHere_star_lit ws) by (reflexivity || assumption).
  rewrite matchHere_lit. cbn [JS.stripPrefix]. change (JS.eqc "034" "034") with true.
  cbv iota.
  destruct val as [|a val]; [contradiction|].
  cbn [JS.forallb] in Hv. apply andb_true_iff in Hv as [Ha Hv].
  rewrite sapp_cons, (matchHere_plus nq) by exact Ha.
  rewrite star_greedy by (intros b t Hb; apply (lit_rejects nq); [reflexivity | exact Hb]).
  destruct (takeWhile_run nq val (String "034" "" +:+ r) Hv eq_refl) as [-> ->].
  reflexivity.
Qed.

(** Every match of the version line has this shape. *)
Lemma versionField_shape (s : string) (pieces : list string) (r : string) :
  JS.matchHere Workflow.versionField s = Some (pieces, r) ->
  exists w1 w2 val,
    pieces = ["version"; w1; "="; w2; Q; val; Q]
    /\ s = "version" +:+ w1 +:+ "=" +:+ w2 +:+ Q +:+ val +:+ Q +:+ r
    /\ JS.forallb ws w1 = true /\ JS.forallb ws w2 = true
    /\ JS.forallb nq val = true /\ val <> "".
Proof.
  intros H. destruct (matchHere_sound _ _ _ _ H) as [-> Hf].
  unfold Workflow.versionField in Hf.
  repeat match goal with
         | Hf : Forall2 _ (_ :: _) _ |- _ =>
             apply Forall2_cons_inv_l in Hf as (? & ? & ? & Hf & ->)
         | Hf : Forall2 _ [] _ |- _ => apply Forall2_nil_inv_l in Hf as ->
         end.
  cbn [pieceOf] in *. subst.
  match goal with Hp : _ /\ _ |- _ => destruct Hp as [Hv Hne] end.
  eexists _, _, _. split; [reflexivity|]. split.
  { cbn [JS.concat]. rewrite sapp_nil_r, !sapp_assoc. reflexivity. }
  auto.
Qed.

(** Cutting a text at its first quote. *)
Lemma quote_split_unique (a1 b1 a2 b2 : string) :
  JS.forallb nq a1 = true -> JS.forallb nq a2 = true ->
  a1 +:+ Q +:+ b1 = a2 +:+ Q +:+ b2 -> a1 = a2 /\ b1 = b2.
Proof.
  revert a2. induction a1 as [|x a1 IH]; intros [|y a2] H1 H2 H.
  - change (String "034" b1 = String "034" b2) in H. injection H as ->. auto.
  - change (String "034" b1 = String y (a2 +:+ Q +:+ b2)) in H.
    injection H as <- _. discriminate.
  - change (String x (a1 +:+ Q +:+ b1) = String "034" b2) in H.
    injection H as -> _. discriminate.
  - change (String x (a1 +:+ Q +:+ b1) = String y (a2 +:+ Q +:+ b2)) in H.
    injection H as <- H.
    cbn [JS.forallb] in H1, H2.
    apply andb_true_iff in H1 as [_ H1]. apply andb_true_iff in H2 as [_ H2].
    destruct (IH a2 H1 H2 H) as [-> ->]. auto.
Qed.

Lemma quote_cases (y : string) :
  JS.forallb nq y = true
  \/ exists y1 y2, y = y1 +:+ Q +:+ y2 /\ JS.forallb nq y1 = true.
Proof.
  induction y as [|a y IH]; [left; reflexivity|].
  destruct (nq a) eqn:Ea.
  - destruct IH as [IH|(y1 & y2 & -> & H1)].
    + left. cbn [JS.forallb]. rewrite Ea, IH. reflexivity.
    + right. exists (String a y1), y2. rewrite sapp_cons. split; [reflexivity|].
      cbn [JS.forallb]. rewrite Ea, H1. reflexivity.
  - right. exists "", y. split; [|reflexivity].
    unfold JS.notQuote, JS.isQuote, JS.eqc in Ea. apply negb_false_iff in Ea.
    destruct (Ascii.eqb_spec a "034") as [->|]; [reflexivity | discriminate].
Qed.

Lemma headOf_notQuote (F : string) : headOf F -> JS.forallb nq F = true.
Proof.
  intros (w1 & w2 & -> & H1 & H2).
  rewrite !sforallb_app, (sforallb_impl ws nq w1 whiteSpace_notQuote H1),
    (sforallb_impl ws nq w2 whiteSpace_notQuote H2).
  reflexivity.
Qed.

Lemma matchHere_startsVersionLine (s : string) :
  startsVersionLine s <-> JS.matchHere Workflow.versionField s <> None.
Proof.
  split.
  - intros (F & val & r & -> & (w1 & w2 & -> & H1 & H2) & Hv & Hne).
    rewrite !sapp_assoc, (versionField_match w1 w2 val r) by assumption. discriminate.
  - intros H. destruct (JS.matchHere _ s) as [[pieces r]|] eqn:E; [|contradiction].
    apply versionField_shape in E as (w1 & w2 & val & _ & -> & H1 & H2 & Hv & Hne).
    exists ("version" +:+ w1 +:+ "=" +:+ w2), val, r.
    split; [rewrite !sapp_assoc; reflexivity|].
    split; [exists w1, w2; auto | auto].
Qed.

(** Whether a text starts a version line does not depend on the value of a
    later version line. *)
Lemma startsVersionLine_swap (y F nv old post : string) :
  JS.forallb nq F = true ->
  JS.forallb nq old = true -> old <> "" ->
  JS.forallb nq nv = true ->
  startsVersionLine (y +:+ F +:+ Q +:+ nv +:+ Q +:+ post) ->
  startsVersionLine (y +:+ F +:+ Q +:+ old +:+ Q +:+ post).
Proof.
  intros HF Hold Hne Hnv (F' & val & r & Heq & Hhead & Hval & Hvne).
  pose proof (headOf_notQuote F' Hhead) as HF'.
  destruct (quote_cases y) as [Hy|(y1 & y2 & -> & Hy1)].
  - rewrite <- sapp_assoc in Heq.
    apply quote_split_unique in Heq as [<- Heq];
      [|rewrite sforallb_app, Hy, HF; reflexivity | exact HF'].
    exists (y +:+ F), old, post. rewrite !sapp_assoc. auto.
  - rewrite !sapp_assoc in Heq.
    apply quote_split_unique in Heq as [<- Heq]; [|exact Hy1 | exact HF'].
    destruct (quote_cases y2) as [Hy2|(y3 & y4 & -> & Hy3)].
    + rewrite <- sapp_assoc in Heq.
      apply quote_split_unique in Heq as [Hv Hr];
        [|rewrite sforallb_app, Hy2, HF; reflexivity | exact Hval].
      exists y1, val, (old +:+ Q +:+ post). subst val. rewrite !sapp_assoc. auto.
    + rewrite !sapp_assoc in Heq.
      apply quote_split_unique in Heq as [Hv Hr]; [|exact Hy3 | exact Hval].
      exists y1, val, (y4 +:+ F +:+ Q +:+ old +:+ Q +:+ post). subst val.
      rewrite !sapp_assoc. auto.
Qed.

Lemma searchLines_eq (p : list JS.atom) (bol : bool) (s : string) :
  JS.searchLines p bol s
  = match (if bol then JS.matchHere p s else None) with
    | Some m => Some ("", m)
    | None =>
        match s with
        | String a s' =>
            match JS.searchLines p (JS.isLineTerminator a) s' with
            | Some (pre, m) => Some (String a pre, m)
            | None => None
            end
        | EmptyString => None
        end
    end.
Proof. destruct s; reflexivity. Qed.

(** The search finds the rewritten line where it found the line. *)
Lemma searchLines_swap (pre : string) (bol : bool) (w1 w2 old nv post : string) :
  JS.forallb ws w1 = true -> JS.forallb ws w2 = true ->
  JS.forallb nq old = true -> old <> "" ->
  JS.forallb nq nv = true -> nv <> "" ->
  JS.searchLines Workflow.versionField bol (pre +:+ lineWith w1 w2 old post)
  = Some (pre, (piecesWith w1 w2 old, post)) ->
  JS.searchLines Workflow.versionField bol (pre +:+ lineWith w1 w2 nv post)
  = Some (pre, (piecesWith w1 w2 nv, post)).
Proof.
  intros H1 H2 Hold Holdne Hnv Hnvne. revert bol.
  induction pre as [|a pre IH]; intros bol H.
  - rewrite sapp_nil_l in *. rewrite searchLines_eq in H. rewrite searchLines_eq.
    unfold lineWith in *.
    destruct bol.
    + rewrite versionField_match by assumption. reflexivity.
    + change ("version" +:+ ?x) with (String "v" ("ersion" +:+ x)) in H.
      cbv iota in H.
      destruct (JS.searchLines _ _ _) as [[pre' m']|]; discriminate.
  - rewrite sapp_cons in *. rewrite searchLines_eq in H. rewrite searchLines_eq.
    assert (Hrec : JS.searchLines Workflow.versionField (JS.isLineTerminator a)
                     (pre +:+ lineWith w1 w2 old post)
                   = Some (pre, (piecesWith w1 w2 old, post))).
    { destruct (if bol then _ else None); [discriminate|].
      destruct (JS.searchLines _ _ _) as [[pre' m']|]; [|discriminate].
      injection H as -> ->. reflexivity. }
    assert (Hnone : (if bol then JS.matchHere Workflow.versionField
                                   (String a (pre +:+ lineWith w1 w2 old post))
                     else None) = None).
    { destruct (if bol then _ else None); [discriminate | reflexivity]. }
    rewrite (IH _ Hrec).
    destruct bol; [|reflexivity].
    destruct (JS.matchHere Workflow.versionField
                (String a (pre +:+ lineWith w1 w2 nv post))) as [m|] eqn:Em;
      [|reflexivity].
    exfalso.
    assert (Hs : startsVersionLine (String a pre +:+ ("version" +:+ w1 +:+ "=" +:+ w2)
                                    +:+ Q +:+ old +:+ Q +:+ post)).
    { apply (startsVersionLine_swap _ _ nv); try assumption.
      - apply headOf_notQuote. exists w1, w2. auto.
      - apply matchHere_startsVersionLine. rewrite sapp_cons.
        unfold lineWith in Em. rewrite !sapp_assoc. rewrite Em. discriminate. }
    apply matchHere_startsVersionLine in Hs. apply Hs.
    rewrite sapp_cons, !sapp_assoc. exact Hnone.
Qed.

(** Reading after writing: once the manifest has a version line, the version
    read back from the rewritten manifest is the version written. *)
Lemma read_after_write (content nv : string) :
  JS.execM Workflow.versionField content <> None ->
  JS.forallb nq nv = true -> dollarFree nv -> nv <> "" ->
  Workflow.currentVersionOf (Workflow.withQuicheVersion nv content) = nv.
Proof.
  intros Hex Hnq Hdf Hne.
  destruct (JS.execM _ content) as [[pre [pieces post]]|] eqn:E; [|contradiction].
  destruct (searchLines_sound _ _ _ _ _ E) as (here & -> & Hm).
  destruct (versionField_shape _ _ _ Hm) as (w1 & w2 & old & -> & -> & H1 & H2 & Hv & Hvne).
  destruct (replace_frame Workflow.versionField 5 nv _ pre post _ Hdf E) as [_ Hr];
    [cbn; lia|].
  unfold Workflow.withQuicheVersion. cbn [length Workflow.versionField Nat.sub] in Hr.
  rewrite Hr. cbn [take drop JS.concat].
  rewrite !sapp_nil_r, !sapp_assoc.
  unfold Workflow.currentVersionOf, JS.execM.
  unfold JS.execM in E.
  fold (lineWith w1 w2 old post) in E. fold (piecesWith w1 w2 old) in E.
  fold (lineWith w1 w2 nv post).
  rewrite (searchLines_swap pre true w1 w2 old nv post) by assumption.
  cbn. apply sapp_nil_r.
Qed.

End VersionField.

(* ===================================================================== *)
(** * The text of a version *)
(* ===================================================================== *)

Section VersionText.
Import Proc.

Lemma plain_notQuote (s : string) : plain s -> JS.forallb JS.notQuote s = true.
Proof.
  apply sforallb_impl. intros a H. apply andb_true_iff in H as [H _]. exact H.
Qed.

Lemma plain_dollarFree (s : string) : plain s -> dollarFree s.
Proof.
  apply sforallb_impl. intros a H. apply andb_true_iff in H as [_ H]. exact H.
Qed.

Lemma plain_app (s t : string) : plain s -> plain t -> plain (s +:+ t).
Proof. unfold plain. intros Hs Ht. rewrite sforallb_app, Hs, Ht. reflexivity. Qed.

Lemma plain_uint (d : Decimal.uint) : plain (NilEmpty.string_of_uint d).
Proof.
  unfold plain. induction d; cbn [NilEmpty.string_of_uint JS.forallb];
    try rewrite IHd; reflexivity.
Qed.

Lemma plain_decimal (z : Z) : plain (JS.decimal z).
Proof.
  unfold JS.decimal. destruct (Z.to_int z) as [d|d]; cbn [NilEmpty.string_of_int].
  - apply plain_uint.
  - unfold plain. cbn [JS.forallb]. rewrite (plain_uint d). reflexivity.
Qed.

Lemma decimal_nonempty (z : Z) : JS.decimal z <> "".
Proof.
  unfold JS.decimal. destruct z as [|p|p]; cbn [Z.to_int NilEmpty.string_of_int];
    try discriminate.
  pose proof (Unsigned.to_uint_nonnil p) as H.
  destruct (Pos.to_uint p); [contradiction | discriminate..].
Qed.

Lemma plain_number (x : JS.number) :
  plain (JS.numberToString x) /\ JS.numberToString x <> "".
Proof.
  destruct x as [|[|]|z]; cbn [JS.numberToString];
    try (split; [reflexivity | discriminate]).
  split; [apply plain_decimal | apply decimal_nonempty].
Qed.

Lemma plain_formatVersion (v : Workflow.Version) :
  plain (Workflow.formatVersion v) /\ Workflow.formatVersion v <> "".
Proof.
  unfold Workflow.formatVersion. split.
  - repeat apply plain_app; try apply plain_number; reflexivity.
  - intros H. apply sapp_eq_nil in H as [H _].
    exact (proj2 (plain_number _) H).
Qed.

Lemma matchHere_end (p : list JS.atom) (s : string) (pieces : list string) (rest : string) :
  In JS.End_ p -> JS.matchHere p s = Some (pieces, rest) -> rest = "".
Proof.
  revert s pieces. induction p as [|a p IH]; intros s pieces Hin H; [destruct Hin|].
  destruct a as [l|c|c| |]; cbn [JS.matchHere] in H;
    try (destruct Hin as [Hin|Hin]; [discriminate|]).
  - destruct (JS.stripPrefix l s) as [s'|]; [|discriminate].
    destruct (JS.matchHere p s') as [[ps r]|] eqn:Em; [|discriminate].
    injection H as <- <-. exact (IH _ _ Hin Em).
  - destruct (JS.star c (JS.matchHere p) s) as [[run [ps r]]|] eqn:Es; [|discriminate].
    injection H as <- <-. apply star_sound in Es as (_ & s' & _ & Hk).
    exact (IH _ _ Hin Hk).
  - destruct s as [|a s]; [discriminate|]. destruct (c a); [|discriminate].
    destruct (JS.star c (JS.matchHere p) s) as [[run [ps r]]|] eqn:Es; [|discriminate].
    injection H as <- <-. apply star_sound in Es as (_ & s' & _ & Hk).
    exact (IH _ _ Hin Hk).
  - destruct (JS.atEol s); [|discriminate].
    destruct (JS.matchHere p s) as [[ps r]|] eqn:Em; [|discriminate].
    injection H as <- <-. exact (IH _ _ Hin Em).
  - destruct s; [|discriminate].
    destruct (JS.matchHere p "") as [[ps r]|] eqn:Em; [|discriminate].
    injection H as <- <-. apply matchHere_sound in Em as [Heq _].
    symmetry in Heq. apply sapp_eq_nil in Heq as [_ Heq]. exact Heq.
Qed.



End VersionText.

(* ===================================================================== *)
(** * Writing the version (workflow.ts, release script) *)
(* ===================================================================== *)

Section VersionWrite.
Import Proc.

Lemma bind_done {A B} (m : M A) (k : A -> M B) (e : env) (w w' : world) (a : A) :
  m e w = (Done a, w') -> (m ≫= k) e w = k a e w'.
Proof. intros H. unfold mbind, M_bind, bind. rewrite H. reflexivity. Qed.

Lemma bind_exit {A B} (m : M A) (k : A -> M B) (e : env) (w w' : world) (c : Z) :
  m e w = (Exit c, w') -> (m ≫= k) e w = (Exit c, w').
Proof. intros H. unfold mbind, M_bind, bind. rewrite H. reflexivity. Qed.

Lemma bind_raise {A B} (m : M A) (k : A -> M B) (e : env) (w w' : world) (msg : string) :
  m e w = (Raise msg, w') -> (m ≫= k) e w = (Raise msg, w').
Proof. intros H. unfold mbind, M_bind, bind. rewrite H. reflexivity. Qed.

Lemma readFileSync_some (path : string) (e : env) (w : world) (f : file) :
  files w !! path = Some f -> readFileSync path e w = (Done (data f), w).
Proof. intros H. unfold readFileSync. rewrite H. reflexivity. Qed.

Lemma writeFileSync_ok (path content : string) (e : env) (w : world) (f : file) :
  files w !! path = Some f -> readOnly f = false ->
  writeFileSync path content e w = (Done tt, wrote path content w).
Proof.
  intros H Hro. unfold writeFileSync. rewrite H. destruct f as [d ro]. cbn in Hro.
  subst ro. reflexivity.
Qed.

Lemma updateQuicheVersion_writes (nv : string) (e : env) (w : world) (f : file) :
  files w !! Workflow.quicheManifest = Some f -> readOnly f = false ->
  Workflow.updateQuicheVersion nv e w
  = (Done tt, wrote Workflow.quicheManifest (Workflow.withQuicheVersion nv (data f)) w).
Proof.
  intros Hf Hro. unfold Workflow.updateQuicheVersion.
  rewrite (bind_done _ _ _ _ _ _ (readFileSync_some _ e w f Hf)).
  apply writeFileSync_ok with (f := f); assumption.
Qed.

Lemma plain_release_formatVersion (v : Release.Version) : plain (Release.formatVersion v).
Proof.
  unfold Release.formatVersion. repeat apply plain_app; try apply plain_number; reflexivity.
Qed.



End VersionWrite.

(* ===================================================================== *)
(** * Reading the version (workflow.ts, release script) *)
(* ===================================================================== *)

Section VersionRead.
Import Proc.









End VersionRead.

(* ===================================================================== *)
(** * What the phases of the workflow add to the trace *)
(* ===================================================================== *)

Section Traces.
Import Proc.

Lemma only_ret ok {A} (a : A) : only ok (mret a).
Proof. intros e w. exists []. cbn. rewrite app_nil_r. auto. Qed.

Lemma only_exit ok {A} (c : Z) : only ok (@exit A c).
Proof. intros e w. exists []. cbn. rewrite app_nil_r. auto. Qed.

Lemma only_throw ok {A} (msg : string) : only ok (@throw A msg).
Proof. intros e w. exists []. cbn. rewrite app_nil_r. auto. Qed.

Lemma only_lift ok {A} (o : outcome A) : only ok (lift o).
Proof. intros e w. exists []. cbn. rewrite app_nil_r. auto. Qed.

Lemma only_bind ok {A B} (m : M A) (k : A -> M B) :
  only ok m -> (forall a, only ok (k a)) -> only ok (m ≫= k).
Proof.
  intros Hm Hk e w. destruct (Hm e w) as (evs & Ht & Hok & Hfs).
  unfold mbind, M_bind, bind.
  destruct (m e w) as [[a|c|msg] w1]; cbn [fst snd] in *; try (exists evs; auto; fail).
  destruct (Hk a e w1) as (evs' & Ht' & Hok' & Hfs').
  exists (evs ++ evs'). rewrite Ht', Ht, Hfs', Hfs, app_assoc, forallb_app, Hok, Hok'. auto.
Qed.

Lemma only_try ok {A} (body : M A) (handler : string -> M A) :
  only ok body -> (forall msg, only ok (handler msg)) -> only ok (try body handler).
Proof.
  intros Hm Hk e w. destruct (Hm e w) as (evs & Ht & Hok & Hfs).
  unfold try.
  destruct (body e w) as [[a|c|msg] w1]; cbn [fst snd] in *; try (exists evs; auto; fail).
  destruct (Hk msg e w1) as (evs' & Ht' & Hok' & Hfs').
  exists (evs ++ evs'). rewrite Ht', Ht, Hfs', Hfs, app_assoc, forallb_app, Hok, Hok'. auto.
Qed.

Lemma only_say ok (on : channel) (message : string) :
  ok (EvSay on message) = true -> only ok (say on message).
Proof. intros H e w. exists [EvSay on message]. cbn. rewrite H. auto. Qed.

Lemma only_confirm ok (message : string) :
  ok (EvConfirm message) = true -> only ok (confirm message).
Proof. intros H e w. exists [EvConfirm message]. cbn. rewrite H. auto. Qed.

Lemma only_select ok (message : string) :
  ok (EvSelect message) = true -> only ok (select message).
Proof. intros H e w. exists [EvSelect message]. cbn. rewrite H. auto. Qed.

Lemma only_text ok (message : string) validate :
  ok (EvText message) = true -> only ok (text message validate).
Proof. intros H e w. exists [EvText message]. cbn. rewrite H. auto. Qed.

Lemma only_readFileSync ok (path : string) : only ok (readFileSync path).
Proof.
  intros e w. exists []. unfold readFileSync.
  destruct (files w !! path); cbn; rewrite app_nil_r; auto.
Qed.

Lemma only_execSync ok (command : string) (silent : bool) :
  ok (EvExec command silent) = true -> only ok (execSync command silent).
Proof. intros H e w. exists [EvExec command silent]. cbn. rewrite H. auto. Qed.

Lemma only_weaken (ok ok' : event -> bool) {A} (m : M A) :
  (forall ev, ok ev = true -> ok' ev = true) -> only ok m -> only ok' m.
Proof.
  intros Himp Hm e w. destruct (Hm e w) as (evs & Ht & Hok & Hfs).
  exists evs. repeat split; try assumption.
  rewrite forallb_forall in *. auto.
Qed.

End Traces.

Ltac only_step :=
  first
    [ apply only_bind; [|intros ?]
    | apply only_try; [|intros ?]
    | apply only_ret
    | apply only_exit
    | apply only_throw
    | apply only_lift
    | apply only_say; reflexivity
    | apply only_confirm; reflexivity
    | apply only_select; reflexivity
    | apply only_text; reflexivity
    | apply only_readFileSync
    | apply only_execSync; assumption
    | match goal with
      | |- only _ (match ?x with _ => _ end) => destruct x
      | |- only _ (if ?b then _ else _) => destruct b
      end ].

Section Phases.
Import Proc.

Lemma only_exec ok (command : string) (silent : bool) :
  ok (EvExec command silent) = true -> only ok (Workflow.exec command silent).
Proof. intros H. unfold Workflow.exec. repeat only_step. Qed.

Lemma okBefore_okAfter (ev : event) : okBefore ev = true -> okAfter ev = true.
Proof.
  unfold okBefore, okAfter. intros H.
  apply andb_true_iff in H as [H H3]. apply andb_true_iff in H as [H1 H2].
  rewrite H1, H3. reflexivity.
Qed.

Lemma only_checkGitClean : only okBefore Workflow.checkGitClean.
Proof.
  unfold Workflow.checkGitClean. apply only_bind; [|intros ?; apply only_ret].
  apply only_exec. reflexivity.
Qed.

Lemma only_runScript (scriptName npmScript : string) :
  only okAfter (Workflow.runScript scriptName npmScript).
Proof.
  unfold Workflow.runScript.
  repeat first [apply only_exec; reflexivity | only_step].
Qed.

Lemma only_preflight : only okBefore Workflow.preflight.
Proof.
  unfold Workflow.preflight.
  repeat first [apply only_checkGitClean | only_step].
Qed.

Lemma only_buildPhase : only okAfter Workflow.buildPhase.
Proof.
  unfold Workflow.buildPhase.
  repeat first [apply only_runScript | only_step].
Qed.

Lemma only_afterBuild (newVersion : string) (versionChanged buildRan : bool) :
  only okAfter (Workflow.afterBuild newVersion versionChanged buildRan).
Proof.
  unfold Workflow.afterBuild.
  repeat first [apply only_runScript
               | apply (only_weaken okBefore okAfter _ okBefore_okAfter only_checkGitClean)
               | only_step].
Qed.

End Phases.

Section VersionStep.
Import Proc.

Lemma trace_emit (ev : event) (w : world) : trace (emit ev w) = trace w ++ [ev].
Proof. reflexivity. Qed.

Lemma filter_app_length (P : event -> bool) (xs ys : list event) :
  length (List.filter P (xs ++ ys))
  = (length (List.filter P xs) + length (List.filter P ys))%nat.
Proof. rewrite List.filter_app, length_app. reflexivity. Qed.

Lemma emits_bind ok (n1 n2 : nat) {A B} (m : M A) (k : A -> M B) :
  emits ok n1 m -> (forall a, emits ok n2 (k a)) -> emits ok (n1 + n2) (m ≫= k).
Proof.
  intros Hm Hk e w. destruct (Hm e w) as (evs & Ht & Hok & Hn).
  unfold mbind, M_bind, bind.
  destruct (m e w) as [[a|c|msg] w1]; cbn [fst snd] in *;
    try (exists evs; repeat split; [assumption | assumption | lia]).
  destruct (Hk a e w1) as (evs' & Ht' & Hok' & Hn').
  exists (evs ++ evs'). rewrite Ht', Ht, app_assoc, forallb_app, Hok, Hok', filter_app_length.
  repeat split; lia.
Qed.

Lemma emits_of_only {A} (m : M A) : only okBefore m -> emits quietOk 0 m.
Proof.
  intros Hm e w. destruct (Hm e w) as (evs & Ht & Hok & _).
  exists evs. split; [exact Ht|]. clear Ht.
  induction evs as [|ev evs IH]; [auto|].
  cbn [forallb] in Hok. apply andb_true_iff in Hok as [Hev Hok].
  destruct (IH Hok) as [IH1 IH2].
  unfold okBefore in Hev. apply andb_true_iff in Hev as [Hev H3].
  apply andb_true_iff in Hev as [H1 H2].
  split.
  - cbn [forallb]. unfold quietOk at 1. rewrite H2, H3, IH1. reflexivity.
  - cbn [List.filter]. destruct ev; cbn in H1 |- *; try exact IH2. discriminate.
Qed.

Lemma emits_weaken ok (n n' : nat) {A} (m : M A) :
  (n <= n')%nat -> emits ok n m -> emits ok n' m.
Proof.
  intros Hn Hm e w. destruct (Hm e w) as (evs & Ht & Hok & Hc).
  exists evs. repeat split; [assumption | assumption | lia].
Qed.

Lemma emits_readFileSync (path : string) : emits quietOk 0 (readFileSync path).
Proof. apply emits_of_only, only_readFileSync. Qed.

Lemma emits_writeFileSync (path content : string) :
  emits quietOk (if String.eqb path Workflow.quicheManifest then 1 else 0)
    (writeFileSync path content).
Proof.
  intros e w. unfold writeFileSync.
  destruct (files w !! path) as [[d [|]]|]; cbn [fst snd trace emit].
  - exists []. rewrite app_nil_r. repeat split. cbn. lia.
  - exists [EvWrite path content]. repeat split. cbn.
    destruct (String.eqb path Workflow.quicheManifest); cbn; lia.
  - exists [EvWrite path content]. repeat split. cbn.
    destruct (String.eqb path Workflow.quicheManifest); cbn; lia.
Qed.

(** The two rewrites of the try block: one write of the quiche manifest at
    most. *)
Lemma emits_updates (newVersion : string) :
  emits quietOk 1
    (Workflow.updateQuicheVersion newVersion;;
     Workflow.updateWorkspaceVersion newVersion;;
     say Spinner ("Updated version to " +:+ newVersion);;
     mret true).
Proof.
  apply (emits_bind quietOk 1 0).
  { unfold Workflow.updateQuicheVersion. apply (emits_bind quietOk 0 1).
    - apply emits_readFileSync.
    - intros content. apply (emits_writeFileSync Workflow.quicheManifest). }
  intros _. apply (emits_bind quietOk 0 0).
  { unfold Workflow.updateWorkspaceVersion. apply (emits_bind quietOk 0 0).
    - apply emits_readFileSync.
    - intros content. apply (emits_writeFileSync Workflow.workspaceManifest). }
  intros _. apply emits_of_only. repeat only_step.
Qed.

Lemma quietOk_split (evs : list event) :
  forallb quietOk evs = true ->
  forallb (fun ev => negb (isScript ev)) evs = true /\ existsb isUpdateFailed evs = false.
Proof.
  induction evs as [|ev evs IH]; [auto|]. cbn [forallb existsb]. intros H.
  apply andb_true_iff in H as [Hev H]. destruct (IH H) as [-> ->].
  unfold quietOk in Hev. apply andb_true_iff in Hev as [-> H2].
  apply negb_true_iff in H2. rewrite H2. auto.
Qed.

Lemma tame_of_emits {A} (m : M A) : emits quietOk 1 m -> tame m.
Proof.
  intros Hm e w. destruct (Hm e w) as (evs & Ht & Hok & Hn).
  destruct (quietOk_split evs Hok) as [H1 H2].
  exists evs. repeat split; try assumption. rewrite H2. discriminate.
Qed.

Lemma tame_bind_l {A B} (m : M A) (k : A -> M B) :
  emits quietOk 0 m -> (forall a, tame (k a)) -> tame (m ≫= k).
Proof.
  intros Hm Hk e w. destruct (Hm e w) as (evs & Ht & Hok & Hn).
  destruct (quietOk_split evs Hok) as [H1 H2].
  unfold mbind, M_bind, bind.
  destruct (m e w) as [[a|c|msg] w1]; cbn [fst snd] in *;
    try (exists evs; repeat split; [assumption | assumption | lia | rewrite H2; discriminate]).
  destruct (Hk a e w1) as (evs' & Ht' & Hs' & Hn' & Hf').
  exists (evs ++ evs').
  rewrite Ht', Ht, app_assoc, forallb_app, H1, Hs', filter_app_length, existsb_app, H2.
  repeat split; [lia | exact Hf'].
Qed.

Lemma tame_bind_r {A B} (m : M A) (k : A -> M B) :
  tame m -> (forall a, emits quietOk 0 (k a)) -> tame (m ≫= k).
Proof.
  intros Hm Hk e w. destruct (Hm e w) as (evs & Ht & Hs & Hn & Hf).
  unfold mbind, M_bind, bind.
  destruct (m e w) as [[a|c|msg] w1]; cbn [fst snd] in *;
    [| exists evs; split; [|split; [|split]]; try assumption;
       intros H; specialize (Hf H); simplify_eq; reflexivity..].
  destruct (Hk a e w1) as (evs' & Ht' & Hok' & Hn').
  destruct (quietOk_split evs' Hok') as [H1 H2].
  exists (evs ++ evs').
  rewrite Ht', Ht, app_assoc, forallb_app, Hs, H1, filter_app_length, existsb_app, H2,
    orb_false_r.
  split; [reflexivity|]. split; [reflexivity|]. split; [lia|].
  intros H. specialize (Hf H). discriminate.
Qed.

(** [applyVersion], by the outcome of its try block. *)
Lemma applyVersion_eq (newVersion : string) (e : env) (w : world) :
  Workflow.applyVersion newVersion e w
  = match (Workflow.updateQuicheVersion newVersion;;
           Workflow.updateWorkspaceVersion newVersion;;
           say Spinner ("Updated version to " +:+ newVersion);;
           mret true) e
          (emit (EvSay Spinner "Updating version in Cargo.toml files...") w) with
    | (Raise msg, w2) => (Exit 1, emit (EvSay Err msg) (emit updateFailed w2))
    | r => r
    end.
Proof.
  unfold Workflow.applyVersion, try. unfold mbind at 1, M_bind at 1, bind at 1, say at 1.
  match goal with |- context [?body e (emit ?ev w)] =>
    destruct (body e (emit ev w)) as [[a|c|msg] w2]; reflexivity end.
Qed.

Lemma tame_applyVersion (newVersion : string) : tame (Workflow.applyVersion newVersion).
Proof.
  intros e w. rewrite applyVersion_eq.
  set (w1 := emit (EvSay Spinner "Updating version in Cargo.toml files...") w).
  destruct (emits_updates newVersion e w1) as (evs & Ht & Hok & Hn).
  destruct (quietOk_split evs Hok) as [H1 H2].
  match goal with |- context [?body e w1] =>
    destruct (body e w1) as [[a|c|msg] w2]; cbn [fst snd] in * end.
  - exists ([EvSay Spinner "Updating version in Cargo.toml files..."] ++ evs).
    rewrite Ht. unfold w1. rewrite trace_emit, <- app_assoc.
    rewrite forallb_app, filter_app_length, existsb_app, H1, H2.
    split; [reflexivity|]. split; [reflexivity|]. split; [cbn; lia | discriminate].
  - exists ([EvSay Spinner "Updating version in Cargo.toml files..."] ++ evs).
    rewrite Ht. unfold w1. rewrite trace_emit, <- app_assoc.
    rewrite forallb_app, filter_app_length, existsb_app, H1, H2.
    split; [reflexivity|]. split; [reflexivity|]. split; [cbn; lia | discriminate].
  - exists ([EvSay Spinner "Updating version in Cargo.toml files..."] ++ evs
            ++ [updateFailed; EvSay Err msg]).
    rewrite !trace_emit, Ht. unfold w1. rewrite trace_emit, <- !app_assoc.
    rewrite !forallb_app, !filter_app_length, H1.
    split; [reflexivity|]. split; [reflexivity|]. split; [cbn; lia | reflexivity].
Qed.

Lemma tame_versionStep : tame Workflow.versionStep.
Proof.
  unfold Workflow.versionStep.
  apply tame_bind_l; [apply emits_of_only; unfold Workflow.getCurrentVersion; repeat only_step|].
  intros currentVersion.
  apply tame_bind_l; [apply emits_of_only; repeat only_step|]. intros currentParsed.
  apply tame_bind_l; [apply emits_of_only; repeat only_step|]. intros _.
  apply tame_bind_l; [apply emits_of_only; repeat only_step|]. intros [[|type|]|].
  - apply tame_of_emits, (emits_weaken quietOk 0); [lia|].
    apply emits_of_only; repeat only_step.
  - apply tame_bind_l; [apply emits_of_only; repeat only_step|]. intros newVersion.
    apply tame_bind_r; [apply tame_applyVersion|].
    intros versionChanged. apply emits_of_only; repeat only_step.
  - apply tame_bind_l; [apply emits_of_only; repeat only_step|]. intros newVersion.
    apply tame_bind_r; [apply tame_applyVersion|].
    intros versionChanged. apply emits_of_only; repeat only_step.
  - apply tame_of_emits, (emits_weaken quietOk 0); [lia|].
    apply emits_of_only; repeat only_step.
Qed.

End VersionStep.

(* ===================================================================== *)
(** * The workflow as a whole (workflow.ts) *)
(* ===================================================================== *)

Section WorkflowRun.
Import Proc.

Lemma bind_assoc {A B C} (m : M A) (k : A -> M B) (h : B -> M C) (e : env) (w : world) :
  ((m ≫= k) ≫= h) e w = (m ≫= fun a => k a ≫= h) e w.
Proof.
  unfold mbind, M_bind, bind. destruct (m e w) as [[a|c|msg] w1]; reflexivity.
Qed.

Lemma main_eq (e : env) (w : world) :
  Workflow.main e w = (untilBuild ≫= fun r => fromBuild r.1 r.2) e w.
Proof.
  unfold Workflow.main, untilBuild, fromBuild. rewrite bind_assoc.
  unfold mbind, M_bind, bind. destruct (Workflow.preflight e w) as [[a|c|msg] w1];
    [|reflexivity..].
  destruct (Workflow.versionStep e w1) as [[[nv ch]|c|msg] w2]; reflexivity.
Qed.

Lemma only_fromBuild (newVersion : string) (versionChanged : bool) :
  only okAfter (fromBuild newVersion versionChanged).
Proof.
  unfold fromBuild. apply only_bind; [apply only_buildPhase|].
  intros buildRan. apply only_afterBuild.
Qed.

Lemma tame_untilBuild : tame untilBuild.
Proof.
  unfold untilBuild. apply tame_bind_l; [apply emits_of_only, only_preflight|].
  intros _. apply tame_versionStep.
Qed.

(** The trace of main: the events up to the build phase, then the events from
    the build phase on. *)
Lemma main_trace (e : env) (w : world) :
  exists evsA evsB,
    trace (Workflow.main e w).2 = trace w ++ evsA ++ evsB
    /\ forallb (fun ev => negb (isScript ev)) evsA = true
    /\ (length (List.filter isManifestWrite evsA) <= 1)%nat
    /\ forallb okAfter evsB = true
    /\ (existsb isUpdateFailed evsA = true ->
        (Workflow.main e w).1 = Exit 1 /\ evsB = []).
Proof.
  rewrite main_eq. destruct (tame_untilBuild e w) as (evsA & Ht & Hs & Hn & Hf).
  unfold mbind, M_bind, bind.
  destruct (untilBuild e w) as [[[nv ch]|c|msg] w1]; cbn [fst snd] in *.
  - destruct (only_fromBuild nv ch e w1) as (evsB & Ht' & Hok & _).
    exists evsA, evsB. rewrite Ht', Ht, app_assoc.
    split; [reflexivity|]. split; [exact Hs|]. split; [exact Hn|]. split; [exact Hok|].
    intros H; specialize (Hf H); discriminate.
  - exists evsA, []. rewrite app_nil_r.
    split; [exact Ht|]. split; [exact Hs|]. split; [exact Hn|]. split; [reflexivity|].
    intros H; specialize (Hf H); simplify_eq; split; reflexivity.
  - exists evsA, []. rewrite app_nil_r.
    split; [exact Ht|]. split; [exact Hs|]. split; [exact Hn|]. split; [reflexivity|].
    intros H; specialize (Hf H); discriminate.
Qed.

Lemma okAfter_split (evs : list event) :
  forallb okAfter evs = true ->
  List.filter isManifestWrite evs = [] /\ existsb isUpdateFailed evs = false.
Proof.
  induction evs as [|ev evs IH]; [auto|]. cbn [forallb existsb List.filter]. intros H.
  apply andb_true_iff in H as [Hev H]. destruct (IH H) as [-> ->].
  unfold okAfter in Hev. apply andb_true_iff in Hev as [H1 H2].
  apply negb_true_iff in H2. rewrite H2.
  destruct ev; cbn in H1 |- *; try discriminate; auto.
Qed.









(** C4, counterexample.  The workspace manifest is missing: the quiche
    manifest is rewritten to 2.4.0, the second rewrite fails, and the workflow
    exits with status 1 before any script; the quiche manifest keeps 2.4.0. *)
Lemma failed_update_keeps_new_version :
  (Workflow.run (operator Minor) (onlyManifest sampleManifest)).1 = 1
  /\ data <$> files (Workflow.run (operator Minor) (onlyManifest sampleManifest)).2
              !! Workflow.quicheManifest
     = Some sampleManifestAfter
  /\ Workflow.currentVersionOf sampleManifest = "2.3.1"
  /\ Workflow.currentVersionOf sampleManifestAfter = "2.4.0"
  /\ existsb isUpdateFailed
       (trace (Workflow.run (operator Minor) (onlyManifest sampleManifest)).2) = true
  /\ existsb isScript
       (trace (Workflow.run (operator Minor) (onlyManifest sampleManifest)).2) = false.
Proof. vm_compute. repeat split; reflexivity. Qed.

Lemma run_trace (e : env) (fs : gmap string file) :
  (Workflow.run e fs).1 = match (Workflow.main e (start fs)).1 with
                          | Done _ => 0
                          | Exit status => status
                          | Raise _ => 1
                          end
  /\ exists last, trace (Workflow.run e fs).2 = trace (Workflow.main e (start fs)).2 ++ last
                  /\ existsb isUpdateFailed last = false
                  /\ existsb isScript last = false.
Proof.
  unfold Workflow.run. destruct (Workflow.main e (start fs)) as [[a|c|msg] w];
    cbn [fst snd]; (split; [reflexivity|]).
  - exists []. rewrite app_nil_r. auto.
  - exists []. rewrite app_nil_r. auto.
  - exists [EvSay Err ("Fatal error: " +:+ msg)]. auto.
Qed.

(** C4, as amended.  When one of the two rewrites throws, the try block ends
    the process with status 1: [versionChanged] is never set and nothing runs
    after it.  In a run where the update failed the exit status is 1 and no
    script, the build included, was started.  What was written before the
    failure stays written. *)
Theorem failed_update_stops_workflow (e : env) (fs : gmap string file) :
  (forall newVersion w message w',
      rewriteBoth newVersion e
        (emit (EvSay Spinner "Updating version in Cargo.toml files...") w)
      = (Raise message, w') ->
      Workflow.applyVersion newVersion e w
      = (Exit 1, emit (EvSay Err message) (emit updateFailed w')))
  /\ (existsb isUpdateFailed (trace (Workflow.run e fs).2) = true ->
      (Workflow.run e fs).1 = 1
      /\ existsb isScript (trace (Workflow.run e fs).2) = false).
Proof.
  split.
  - intros nv w msg w' H. rewrite applyVersion_eq.
    unfold rewriteBoth in H.
    rewrite <- bind_assoc.
    rewrite (bind_raise _ _ _ _ _ _ H). reflexivity.
  - destruct (run_trace e fs) as (Hstatus & last & Ht & Hl1 & Hl2).
    destruct (main_trace e (start fs)) as (evsA & evsB & Hm & Hs & _ & Hok & Hf).
    cbn [trace start app] in Hm.
    destruct (okAfter_split evsB Hok) as [_ HfB].
    rewrite Ht, Hm, !existsb_app, HfB, Hl1, Hl2, !orb_false_r.
    intros H. destruct (Hf H) as [Hexit ->].
    rewrite Hstatus, Hexit. split; [reflexivity|]. cbn [existsb]. rewrite orb_false_r.
    clear -Hs. induction evsA as [|ev evsA IH]; [reflexivity|].
    cbn [forallb existsb] in *. apply andb_true_iff in Hs as [Hev Hs].
    apply negb_true_iff in Hev. rewrite Hev, (IH Hs). reflexivity.
Qed.

Lemma failed_update_stops_workflow_witness :
  (Workflow.run (operator Minor) (onlyManifest sampleManifest)).1 = 1
  /\ existsb isScript
       (trace (Workflow.run (operator Minor) (onlyManifest sampleManifest)).2) = false.
Proof.
  apply (proj2 (failed_update_stops_workflow (operator Minor) (onlyManifest sampleManifest))).
  vm_compute. reflexivity.
Defined.

End WorkflowRun.

(* ===================================================================== *)
(** * The build script around the executor (build.ts) *)
(* ===================================================================== *)

Section BuildSummary.
Import Build.

(** X1.  A duration below one minute prints as whole seconds; from one minute
    on it prints as minutes and seconds, the seconds below 60 and both
    together the whole seconds of the duration.  Hours are never split off. *)
Theorem formatDuration_parts (ms : Z) :
  (ms < 60000 -> formatDuration ms = JS.decimal (ms / 1000) +:+ "s")
  /\ (60000 <= ms ->
      exists m s,
        formatDuration ms = JS.decimal m +:+ "m " +:+ JS.decimal s +:+ "s"
        /\ 1 <= m /\ 0 <= s < 60
        /\ 1000 * (60 * m + s) <= ms < 1000 * (60 * m + s) + 1000).
Proof.
  unfold formatDuration. split; intros H.
  - destruct (Z.ltb_spec 0 (ms / 1000 / 60)) as [Hm|Hm]; [|reflexivity].
    exfalso. Z.to_euclidean_division_equations. lia.
  - exists (ms / 1000 / 60), (Z.rem (ms / 1000) 60).
    destruct (Z.ltb_spec 0 (ms / 1000 / 60)) as [Hm|Hm].
    + split; [reflexivity|]. Z.to_euclidean_division_equations. lia.
    + exfalso. Z.to_euclidean_division_equations. lia.
Qed.

Lemma filter_sublist {A} (f : A -> bool) (l : list A) : sublist (List.filter f l) l.
Proof.
  induction l as [|x l IH]; cbn [List.filter]; [constructor|].
  destruct (f x); [apply sublist_skip | apply sublist_cons]; exact IH.
Qed.

Lemma elem_of_filter {A} (f : A -> bool) (l : list A) (x : A) :
  x ∈ List.filter f l <-> x ∈ l /\ f x = true.
Proof. rewrite !list_elem_of_In. apply List.filter_In. Qed.

(** X2.  Whatever tools are installed, the native platform is offered, so the
    list of available platforms is never empty and [main] never stops for
    want of a build target.  The list is the registry thinned out, in the
    order of the registry: with both tools all of it, and never a platform
    whose tool is missing. *)
Theorem native_always_available (hasCross hasDocker : bool) :
  nativePlatform ∈ availablePlatforms hasCross hasDocker
  /\ availablePlatforms hasCross hasDocker <> []
  /\ sublist (availablePlatforms hasCross hasDocker) PLATFORMS
  /\ (forall p, p ∈ availablePlatforms hasCross hasDocker ->
        (requiresCross p = true -> hasCross = true)
        /\ (requiresDocker p = true -> hasDocker = true))
  /\ availablePlatforms true true = PLATFORMS.
Proof.
  assert (Hin : nativePlatform ∈ availablePlatforms hasCross hasDocker).
  { apply elem_of_filter. split.
    - unfold PLATFORMS. do 8 apply list_elem_of_further. apply list_elem_of_here.
    - reflexivity. }
  split; [exact Hin|].
  split; [intros E; rewrite E in Hin; inversion Hin|].
  split; [apply filter_sublist|].
  split; [|reflexivity].
  intros p Hp. apply elem_of_filter in Hp as [_ Hp].
  destruct (requiresCross p), (requiresDocker p), hasCross, hasDocker;
    cbn in Hp; try discriminate; auto.
Qed.

End BuildSummary.
Section BuildSelection.
Import Build.

Lemma existsb_eqb (x : string) (l : list string) :
  existsb (String.eqb x) l = true <-> x ∈ l.
Proof.
  rewrite existsb_exists. split.
  - intros (y & Hy & E). apply String.eqb_eq in E as ->. apply list_elem_of_In. exact Hy.
  - intros H. exists x. split; [apply list_elem_of_In; exact H | apply String.eqb_refl].
Qed.

Lemma registry_ids_distinct : NoDup (idsOf PLATFORMS).
Proof. apply (bool_decide_unpack _). vm_compute. exact I. Qed.

Lemma selected_ids (available : list Platform) (ids : list string) :
  NoDup (idsOf available) -> NoDup ids ->
  (forall i, i ∈ ids -> i ∈ idsOf available) ->
  idsOf (selectedPlatforms available ids) ≡ₚ ids.
Proof.
  intros Hav Hids Hsub. apply NoDup_Permutation; [|exact Hids|].
  - apply (sublist_NoDup _ (idsOf available)); [exact Hav|].
    unfold idsOf. apply fmap_sublist, filter_sublist.
  - intros x. unfold idsOf. rewrite list_elem_of_fmap. split.
    + intros (p & -> & Hp). apply elem_of_filter in Hp as [_ Hp].
      apply existsb_eqb. exact Hp.
    + intros Hx. destruct (proj1 (list_elem_of_fmap _ _ _) (Hsub x Hx)) as (p & -> & Hp).
      exists p. split; [reflexivity|].
      apply elem_of_filter. split; [exact Hp | apply existsb_eqb; exact Hx].
Qed.

(** X3.  The platforms built are the ticked ones, each once, in the order of
    the registry and not in the order they were ticked: the selection is the
    registry thinned out, and its ids are the ticked ids rearranged. *)
Theorem selection_in_registry_order (hasCross hasDocker : bool) (ids : list string) :
  NoDup ids ->
  (forall i, i ∈ ids -> i ∈ idsOf (availablePlatforms hasCross hasDocker)) ->
  sublist (selectedPlatforms (availablePlatforms hasCross hasDocker) ids) PLATFORMS
  /\ idsOf (selectedPlatforms (availablePlatforms hasCross hasDocker) ids) ≡ₚ ids.
Proof.
  intros Hids Hsub. split.
  - transitivity (availablePlatforms hasCross hasDocker); apply filter_sublist.
  - apply selected_ids; [|exact Hids | exact Hsub].
    apply (sublist_NoDup _ (idsOf PLATFORMS)); [apply registry_ids_distinct|].
    unfold idsOf. apply fmap_sublist, filter_sublist.
Qed.

(** Without Docker, the native platform ticked before a Windows one: the
    Windows build comes first. *)
Lemma selection_in_registry_order_witness :
  idsOf (selectedPlatforms (availablePlatforms true false) ["native"; "windows-x64-gnu"])
  = ["windows-x64-gnu"; "native"]
  /\ idsOf (selectedPlatforms (availablePlatforms true false) ["native"; "windows-x64-gnu"])
     ≡ₚ ["native"; "windows-x64-gnu"].
Proof.
  split; [reflexivity|].
  apply (selection_in_registry_order true false ["native"; "windows-x64-gnu"]).
  - apply (bool_decide_unpack _). vm_compute. exact I.
  - intros i Hi. apply elem_of_cons in Hi as [->|Hi].
    + apply list_elem_of_In. vm_compute. auto 10.
    + apply elem_of_cons in Hi as [->|Hi]; [|apply elem_of_nil in Hi; contradiction].
      apply list_elem_of_In. vm_compute. auto 10.
Defined.

End BuildSelection.

Section BuildExit.
Import Build.

Lemma fold_success p options start (evs : list childEvent) (st : Listener)
    (r : BuildResult) :
  settled st = None ->
  settled (fold_left (onEvent p options start) evs st) = Some r ->
  (success r = true
   <-> exists before now after,
         evs = before ++ Close (Some 0) now :: after /\ forallb isData before = true).
Proof.
  revert st. induction evs as [|ev evs IH]; intros st Hst H.
  - cbn in H. congruence.
  - cbn [fold_left] in H.
    assert (Hdata : isData ev = true ->
              success r = true
              <-> exists before now after,
                    ev :: evs = before ++ Close (Some 0) now :: after
                    /\ forallb isData before = true).
    { intros Hev.
      assert (Hnone : settled (onEvent p options start st ev) = None).
      { destruct ev; try discriminate Hev; cbn [onEvent]; case_match; exact Hst. }
      rewrite (IH _ Hnone H). split.
      - intros (b & n & a & -> & Hb). exists (ev :: b), n, a.
        split; [reflexivity|]. cbn [forallb]. rewrite Hev, Hb. reflexivity.
      - intros (b & n & a & E & Hb). destruct b as [|x b].
        + injection E as ->. discriminate Hev.
        + injection E as -> ->. exists b, n, a. split; [reflexivity|].
          cbn [forallb] in Hb. apply andb_true_iff in Hb as [_ Hb]. exact Hb. }
    destruct ev as [d|d|code now|msg now]; try (apply Hdata; reflexivity).
    + cbn [onEvent] in H. unfold resolve in H. rewrite Hst in H.
      case_bool_decide as Hc.
      * erewrite fold_settled in H by reflexivity. injection H as <-. cbn [success].
        split; [|reflexivity]. intros _. exists [], now, evs. subst code. auto.
      * erewrite fold_settled in H by reflexivity. injection H as <-. cbn [success].
        split; [discriminate|]. intros (b & n & a & E & Hb). destruct b as [|x b].
        -- injection E as -> _ _. contradiction.
        -- injection E as <- _. discriminate Hb.
    + cbn [onEvent] in H. unfold resolve in H. rewrite Hst in H.
      erewrite fold_settled in H by reflexivity. injection H as <-. cbn [success].
      split; [discriminate|]. intros (b & n & a & E & Hb). destruct b as [|x b].
      * discriminate E.
      * injection E as <- _. discriminate Hb.
Qed.

Lemma buildPlatform_success p options child r :
  buildPlatform p options child = Some r -> (success r = true <-> exitsClean child).
Proof. unfold buildPlatform, exitsClean. apply fold_success. reflexivity. Qed.

Lemma inOrder_success (platforms : list Platform) options children results :
  inOrder platforms options children 0 results ->
  length results = length platforms
  /\ forall i r, results !! i = Some r -> (success r = true <-> exitsClean (children i)).
Proof.
  intros [Hlen Hres]. split; [exact Hlen|]. intros i r Hr.
  destruct (lookup_lt_is_Some_2 platforms i) as [p Hp].
  { rewrite <- Hlen. apply (lookup_lt_Some _ _ _ Hr). }
  destruct (Hres i p Hp) as (r' & Hr' & Hb & _). cbn [Nat.add] in Hb.
  assert (r' = r) as -> by congruence.
  apply (buildPlatform_success _ _ _ _ Hb).
Qed.

Lemma runAll_success (platforms : list Platform) options children (order : list nat) :
  (forall i p, platforms !! i = Some p ->
     is_Some (buildPlatform p options (children i))) ->
  order ≡ₚ seq 0 (length platforms) ->
  exists results,
    runAll platforms options children order = Some results
    /\ length results = length platforms
    /\ forall i r, results !! i = Some r -> (success r = true <-> exitsClean (children i)).
Proof.
  intros Hall Hperm. unfold runAll. destruct (parallel options).
  - set (promises := imap (fun index p => buildPlatform p options (children index)) platforms).
    assert (Hlen : length promises = length platforms) by apply length_imap.
    assert (Hlook : forall i, promises !! i
                     = (fun p => buildPlatform p options (children i)) <$> platforms !! i)
      by (intros i; apply list_lookup_imap).
    assert (Hsome : forall j, (j < length promises)%nat ->
                              exists v, promises !! j = Some (Some v)).
    { intros j Hj. rewrite Hlen in Hj.
      destruct (lookup_lt_is_Some_2 platforms j Hj) as [p Hp].
      destruct (Hall j p Hp) as [r Hr]. exists r. rewrite Hlook, Hp. cbn. rewrite Hr.
      reflexivity. }
    rewrite (promiseAll_any_order promises order Hsome) by (rewrite Hlen; exact Hperm).
    destruct (mapM (fun slot => slot) promises) as [results|] eqn:Em.
    + exists results. split; [reflexivity|].
      apply mapM_Some_1 in Em.
      split; [rewrite <- (Forall2_length _ _ _ Em); exact Hlen|].
      intros i r Hr.
      destruct (Forall2_lookup_r _ _ _ i r Em Hr) as (slot & Hslot & Heq).
      rewrite Hlook in Hslot.
      destruct (platforms !! i) as [p|] eqn:Hp; [|discriminate Hslot].
      injection Hslot as <-. apply (buildPlatform_success _ _ _ _ Heq).
    + exfalso. apply mapM_None_1, Exists_exists in Em as (x & Hx & Hnone).
      apply list_elem_of_lookup in Hx as [j Hj].
      destruct (Hsome j (lookup_lt_Some _ _ _ Hj)) as [v Hv]. congruence.
  - destruct (sequential_in_order platforms options children 0 []) as (results & Hs & Hin).
    { intros i p Hp. apply Hall. exact Hp. }
    exists results. split; [exact Hs|]. exact (inOrder_success _ _ _ _ Hin).
Qed.

Lemma exitStatus_zero (results : list BuildResult) :
  exitStatus results = 0 <-> Forall (fun r => success r = true) results.
Proof.
  unfold exitStatus. induction results as [|r results IH]; cbn [List.filter].
  - split; [constructor | reflexivity].
  - destruct (success r) eqn:E; cbn [negb].
    + rewrite IH. split; [intros H; constructor; assumption|].
      intros H. apply Forall_cons in H as [_ H]. exact H.
    + cbn [length Nat.ltb Nat.leb]. split; [discriminate|].
      intros H. apply Forall_cons in H as [H _]. congruence.
Qed.

Lemma summary_counts (results : list BuildResult) :
  (length (successful results) + length (failed results))%nat = length results.
Proof.
  unfold successful, failed. induction results as [|r results IH]; [reflexivity|].
  cbn [List.filter]. destruct (success r); cbn [negb length]; lia.
Qed.

(** X4.  When every build settles, the script ends with status 0 exactly when
    every child closed with exit code 0 (and raised no error before), and
    with status 1 otherwise; this holds in sequential and in parallel mode,
    whatever the order the builds finish in.  The two counts of the closing
    line add up to the number of platforms built. *)
Theorem exit_status_reflects_builds (platforms : list Platform) (options : BuildOptions)
    (children : nat -> Child) (order : list nat) :
  (forall i p, platforms !! i = Some p ->
     is_Some (buildPlatform p options (children i))) ->
  order ≡ₚ seq 0 (length platforms) ->
  exists results,
    runAll platforms options children order = Some results
    /\ (exitStatus results = 0
        <-> forall i, (i < length platforms)%nat -> exitsClean (children i))
    /\ (exitStatus results = 0 \/ exitStatus results = 1)
    /\ (length (successful results) + length (failed results))%nat = length platforms
    /\ (statusIcon results = Party <-> exitStatus results = 0).
Proof.
  intros Hall Hperm.
  destruct (runAll_success platforms options children order Hall Hperm)
    as (results & Hrun & Hlen & Hres).
  exists results. split; [exact Hrun|].
  split; [|split; [|split]].
  - rewrite exitStatus_zero, Forall_lookup. split.
    + intros H i Hi. destruct (lookup_lt_is_Some_2 results i) as [r Hr]; [lia|].
      apply (Hres i r Hr). exact (H i r Hr).
    + intros H i r Hr. apply (Hres i r Hr). apply H.
      rewrite <- Hlen. exact (lookup_lt_Some _ _ _ Hr).
  - unfold exitStatus. case_match; auto.
  - rewrite <- Hlen. apply summary_counts.
  - unfold statusIcon, exitStatus, failed.
    destruct (length (List.filter (fun r => negb (success r)) results)) as [|n];
      cbn [Nat.eqb Nat.ltb Nat.leb]; [split; reflexivity|].
    split; [|discriminate]. case_match; discriminate.
Qed.

(** One build that fails and one that succeeds: status 1. *)
Lemma exit_status_reflects_builds_witness :
  exists results,
    runAll (take 2 PLATFORMS) parallelQuiet twoChildren [1; 0]%nat = Some results
    /\ exitStatus results = 1.
Proof.
  destruct (exit_status_reflects_builds (take 2 PLATFORMS) parallelQuiet twoChildren
              [1; 0]%nat) as (results & Hrun & _ & _ & _ & _).
  - intros [|[|i]] p Hp; cbn in Hp; try discriminate; injection Hp as <-;
      eexists; reflexivity.
  - cbn. apply Permutation_swap.
  - exists results. split; [exact Hrun|].
    vm_compute in Hrun. injection Hrun as <-. reflexivity.
Defined.

End BuildExit.
Section BuildCommands.
Import Build.

Lemma split_nonempty (sep : ascii) (s : string) : JS.split sep s <> [].
Proof.
  destruct s as [|a s]; [discriminate|]. cbn [JS.split].
  destruct (JS.eqc a sep); [discriminate|]. destruct (JS.split sep s); discriminate.
Qed.

Lemma join_split (sep : ascii) (s : string) :
  JS.join (String sep "") (JS.split sep s) = s.
Proof.
  induction s as [|a s IH]; [reflexivity|].
  pose proof (split_nonempty sep s) as Hne.
  cbn [JS.split]. unfold JS.eqc. destruct (Ascii.eqb_spec a sep) as [->|Ha].
  - destruct (JS.split sep s) as [|p rest] eqn:E; [contradiction|].
    change (JS.join (String sep "") ("" :: p :: rest))
      with ("" +:+ String sep "" +:+ JS.join (String sep "") (p :: rest)).
    rewrite IH. reflexivity.
  - destruct (JS.split sep s) as [|p rest] eqn:E; [contradiction|].
    destruct rest as [|q rest].
    + cbn [JS.join] in *. subst s. reflexivity.
    + change (JS.join (String sep "") (String a p :: q :: rest))
        with (String a p +:+ String sep "" +:+ JS.join (String sep "") (q :: rest)).
      change (JS.join (String sep "") (p :: q :: rest))
        with (p +:+ String sep "" +:+ JS.join (String sep "") (q :: rest)) in IH.
      rewrite sapp_cons, IH. reflexivity.
Qed.

(** X5.  Splitting a build command at its spaces and joining the words again
    loses nothing: for every platform of the registry the shell is handed the
    build command character for character, also where the command holds two
    spaces in a row (the debug mode of cross and cargo) or ends in a space
    (no feature selected). *)
Theorem shell_gets_the_command (p : Platform) (options : BuildOptions) :
  p ∈ PLATFORMS ->
  shellCommand (buildCommand p options) = buildCommand p options.
Proof. intros _. apply join_split. Qed.

Lemma shell_gets_the_command_witness :
  shellCommand "cargo build  --features  --workspace" = "cargo build  --features  --workspace".
Proof.
  apply (shell_gets_the_command nativePlatform
           {| mode := debug; features := []; parallel := false; verbose := false |}).
  unfold PLATFORMS. do 8 apply list_elem_of_further. apply list_elem_of_here.
Defined.

(** X6.  The command of a registry platform depends on the mode and the
    features only.  The Android commands, the ones that need Docker, do not
    depend on the mode either: a debug and a release build run the same
    command, while the output path reported for them names the mode. *)
Theorem android_build_ignores_mode (p : Platform) (o o' : BuildOptions) :
  p ∈ PLATFORMS -> features o = features o' ->
  (mode o = mode o' -> buildCommand p o = buildCommand p o')
  /\ (requiresDocker p = true -> buildCommand p o = buildCommand p o')
  /\ (mode o <> mode o' ->
      outputPathOf (target p) (mode o) <> outputPathOf (target p) (mode o')).
Proof.
  intros Hp Hf. unfold PLATFORMS in Hp.
  repeat (apply elem_of_cons in Hp as [->|Hp]); [..|apply elem_of_nil in Hp; contradiction];
    (split; [|split]);
    try (intros Hm; cbn [buildCommand crossPlatform dockerPlatform];
         unfold crossBuild, dockerBuild, cargoBuild, releaseFlag;
         rewrite ?Hf, ?Hm; reflexivity);
    try (intros Hm; discriminate Hm);
    try (intros Hm; cbn [target crossPlatform dockerPlatform];
         destruct (mode o), (mode o'); try contradiction; discriminate).
Qed.

(** The 64-bit Android platform, debug against release. *)
Lemma android_build_ignores_mode_witness :
  buildCommand (dockerPlatform "android-arm64" "Android ARM64"
                  "Android ARM64 (modern phones)" "aarch64-linux-android"
                  "quiche-nwep-android-arm64")
    {| mode := debug; features := ["ffi"]; parallel := false; verbose := false |}
  = buildCommand (dockerPlatform "android-arm64" "Android ARM64"
                    "Android ARM64 (modern phones)" "aarch64-linux-android"
                    "quiche-nwep-android-arm64")
      {| mode := release; features := ["ffi"]; parallel := true; verbose := true |}.
Proof.
  apply (android_build_ignores_mode _
           {| mode := debug; features := ["ffi"]; parallel := false; verbose := false |}
           {| mode := release; features := ["ffi"]; parallel := true; verbose := true |}).
  - unfold PLATFORMS. do 2 apply list_elem_of_further. apply list_elem_of_here.
  - reflexivity.
  - reflexivity.
Defined.


Lemma split_first_line (sep : ascii) (first rest : string) :
  JS.includes sep first = false ->
  hd "" (JS.split sep (first +:+ String sep rest)) = first.
Proof.
  induction first as [|a first IH]; intros H.
  - rewrite sapp_nil_l. cbn [JS.split]. unfold JS.eqc. rewrite Ascii.eqb_refl. reflexivity.
  - rewrite sapp_cons. cbn [JS.split JS.includes] in *.
    apply orb_false_iff in H as [Ha H]. rewrite Ha.
    specialize (IH H). destruct (JS.split sep (first +:+ String sep rest)); cbn [hd] in *;
      subst; reflexivity.
Qed.


End BuildCommands.
(* ===================================================================== *)
(** * Printing a version and reading it back *)
(* ===================================================================== *)

Section VersionRoundTrip.
Import Proc.

Lemma rev_app_rev_app (s t u : string) :
  String.rev_app (String.rev_app s t) u = String.rev_app t (s +:+ u).
Proof.
  revert t u. induction s as [|a s IH]; intros t u; [reflexivity|].
  cbn [String.rev_app]. rewrite IH. reflexivity.
Qed.

Lemma rev_rev (s : string) : String.rev (String.rev s) = s.
Proof. unfold String.rev. rewrite rev_app_rev_app. cbn. apply sapp_nil_r. Qed.

Lemma sforallb_rev_app c (s t : string) :
  JS.forallb c (String.rev_app s t) = JS.forallb c s && JS.forallb c t.
Proof.
  revert t. induction s as [|a s IH]; intros t; [reflexivity|].
  cbn [String.rev_app JS.forallb]. rewrite IH. cbn [JS.forallb].
  destruct (c a), (JS.forallb c s); reflexivity.
Qed.

Lemma dropWhile_none c (s : string) :
  JS.forallb (fun a => negb (c a)) s = true -> JS.dropWhile c s = s.
Proof.
  destruct s as [|a s]; [reflexivity|]. cbn [JS.forallb JS.dropWhile].
  destruct (c a); [discriminate | reflexivity].
Qed.

(** A text without white space is its own trim. *)
Lemma trim_clean (s : string) :
  JS.forallb (fun a => negb (JS.isWhiteSpace a)) s = true -> JS.trim s = s.
Proof.
  intros H. unfold JS.trim. rewrite (dropWhile_none _ s H), dropWhile_none.
  - apply rev_rev.
  - unfold String.rev. rewrite sforallb_rev_app, H. reflexivity.
Qed.

Lemma digit_notSpace (a : ascii) : JS.isDigit a = true -> negb (JS.isWhiteSpace a) = true.
Proof.
  destruct a as [[] [] [] [] [] [] [] []]; intros H; try discriminate H; reflexivity.
Qed.

Lemma digits_uint (d : Decimal.uint) : JS.forallb JS.isDigit (NilEmpty.string_of_uint d) = true.
Proof.
  induction d; cbn [NilEmpty.string_of_uint JS.forallb]; try rewrite IHd; reflexivity.
Qed.

Lemma readRadix_uint_acc (d : Decimal.uint) (acc : positive) :
  JS.readRadix 10 (Z.pos acc) (NilEmpty.string_of_uint d)
  = Some (Z.pos (Pos.of_uint_acc d acc)).
Proof.
  revert acc. induction d; intros acc;
    cbn [NilEmpty.string_of_uint JS.readRadix Pos.of_uint_acc]; [reflexivity|..];
    match goal with
    | |- context [JS.hexValue ?a] =>
        change (JS.hexValue a) with (Some (Z.of_N (JS.code a) - 48));
        cbv [JS.code N_of_ascii N_of_digits]; cbn [Z.of_N N.add N.mul Pos.add Pos.mul Z.sub]
    end.
  all: try (cbn; rewrite <- IHd; f_equal; lia).
Qed.


Lemma readRadix_uint (d : Decimal.uint) :
  JS.readRadix 10 0 (NilEmpty.string_of_uint d) = Some (Z.of_N (Pos.of_uint d)).
Proof.
  induction d; cbn [NilEmpty.string_of_uint Pos.of_uint]; [reflexivity | exact IHd |..];
    cbn [JS.readRadix];
    match goal with
    | |- context [JS.hexValue ?a] =>
        change (JS.hexValue a) with (Some (Z.of_N (JS.code a) - 48))
    end;
    cbn; apply readRadix_uint_acc.
Qed.

Lemma readDigits_pos (p : positive) :
  JS.readDigits 10 (NilEmpty.string_of_uint (Pos.to_uint p)) = JS.toDouble (Z.pos p).
Proof.
  unfold JS.readDigits. rewrite readRadix_uint, Unsigned.of_to.
  pose proof (Unsigned.to_uint_nonnil p) as H.
  destruct (Pos.to_uint p); [contradiction | reflexivity..].
Qed.

(** A run of digits converts as a decimal literal. *)
Lemma Number_digits (s : string) :
  JS.forallb JS.isDigit s = true -> s <> "" -> JS.Number s = JS.readDigits 10 s.
Proof.
  intros H Hne. unfold JS.Number.
  rewrite trim_clean by (apply (sforallb_impl JS.isDigit); [apply digit_notSpace | exact H]).
  destruct s as [|a t]; [contradiction|].
  cbn [JS.forallb] in H. apply andb_true_iff in H as [Ha Ht].
  destruct a as [[] [] [] [] [] [] [] []]; try discriminate Ha; try reflexivity.
  destruct t as [|b t]; [reflexivity|].
  cbn [JS.forallb] in Ht. apply andb_true_iff in Ht as [Hb _].
  destruct b as [[] [] [] [] [] [] [] []]; try discriminate Hb; reflexivity.
Qed.

Lemma Number_minus_digits (s : string) :
  JS.forallb JS.isDigit s = true -> s <> "" ->
  JS.Number (String "-" s) = JS.negate (JS.readDigits 10 s).
Proof.
  intros H Hne. unfold JS.Number.
  rewrite trim_clean.
  2:{ cbn [JS.forallb]. rewrite (sforallb_impl JS.isDigit _ s digit_notSpace H). reflexivity. }
  destruct s as [|a t]; [contradiction|].
  cbn [JS.forallb] in H. apply andb_true_iff in H as [Ha Ht].
  destruct a as [[] [] [] [] [] [] [] []]; try discriminate Ha; reflexivity.
Qed.

(** Printing an integer and converting the text gives the integer back, up to
    2^53 in absolute value. *)
Lemma Number_decimal (z : Z) : Z.abs z <= 2 ^ 53 -> JS.Number (JS.decimal z) = JS.Int z.
Proof.
  intros Hz. unfold JS.decimal. destruct z as [|p|p]; cbn [Z.to_int NilEmpty.string_of_int].
  - reflexivity.
  - rewrite Number_digits, readDigits_pos.
    + apply toDouble_exact. exact Hz.
    + apply digits_uint.
    + pose proof (Unsigned.to_uint_nonnil p) as H.
      destruct (Pos.to_uint p); [contradiction | discriminate..].
  - rewrite Number_minus_digits, readDigits_pos.
    + rewrite toDouble_exact by exact Hz. reflexivity.
    + apply digits_uint.
    + pose proof (Unsigned.to_uint_nonnil p) as H.
      destruct (Pos.to_uint p); [contradiction | discriminate..].
Qed.

Lemma split_clean (sep : ascii) (s : string) :
  JS.includes sep s = false -> JS.split sep s = [s].
Proof.
  induction s as [|a s IH]; intros H; [reflexivity|].
  cbn [JS.includes] in H. apply orb_false_iff in H as [Ha H].
  cbn [JS.split]. rewrite Ha, (IH H). reflexivity.
Qed.

Lemma split_app (sep : ascii) (s rest : string) :
  JS.includes sep s = false ->
  JS.split sep (s +:+ String sep rest) = s :: JS.split sep rest.
Proof.
  induction s as [|a s IH]; intros H.
  - rewrite sapp_nil_l. cbn [JS.split]. unfold JS.eqc. rewrite Ascii.eqb_refl. reflexivity.
  - cbn [JS.includes] in H. apply orb_false_iff in H as [Ha H].
    rewrite sapp_cons. cbn [JS.split]. rewrite Ha, (IH H). reflexivity.
Qed.

Lemma includes_none (c : ascii) (p : ascii -> bool) (s : string) :
  (forall a, p a = true -> JS.eqc a c = false) ->
  JS.forallb p s = true -> JS.includes c s = false.
Proof.
  intros Hp. induction s as [|a s IH]; intros H; [reflexivity|].
  cbn [JS.forallb] in H. apply andb_true_iff in H as [Ha H].
  cbn [JS.includes]. rewrite (Hp a Ha), (IH H). reflexivity.
Qed.

Lemma digit_notPoint (a : ascii) : JS.isDigit a = true -> JS.eqc a "." = false.
Proof.
  destruct a as [[] [] [] [] [] [] [] []]; intros H; try discriminate H; reflexivity.
Qed.

Lemma decimal_noPoint (z : Z) : JS.includes "." (JS.decimal z) = false.
Proof.
  unfold JS.decimal. destruct (Z.to_int z) as [d|d]; cbn [NilEmpty.string_of_int JS.includes];
    try (change (JS.eqc "-" ".") with false; cbn [orb]);
    apply (includes_none _ JS.isDigit); try apply digit_notPoint; apply digits_uint.
Qed.

Lemma split_three (a b c : string) :
  JS.includes "." a = false -> JS.includes "." b = false -> JS.includes "." c = false ->
  JS.split "." (a +:+ "." +:+ b +:+ "." +:+ c) = [a; b; c].
Proof.
  intros Ha Hb Hc.
  change (a +:+ "." +:+ b +:+ "." +:+ c)
    with (a +:+ String "." (b +:+ String "." c)).
  rewrite (split_app _ _ _ Ha), (split_app _ _ _ Hb), (split_clean _ _ Hc). reflexivity.
Qed.

Lemma workflow_parse_format (a b c : Z) :
  Z.abs a <= 2 ^ 53 -> Z.abs b <= 2 ^ 53 -> Z.abs c <= 2 ^ 53 ->
  Workflow.parseVersion
    (Workflow.formatVersion
       {| Workflow.major := JS.Int a; Workflow.minor := JS.Int b;
          Workflow.patch := JS.Int c |})
  = Done {| Workflow.major := JS.Int a; Workflow.minor := JS.Int b;
            Workflow.patch := JS.Int c |}.
Proof.
  intros Ha Hb Hc. unfold Workflow.parseVersion, Workflow.formatVersion.
  cbn [Workflow.major Workflow.minor Workflow.patch JS.numberToString].
  rewrite (split_three _ _ _ (decimal_noPoint a) (decimal_noPoint b) (decimal_noPoint c)).
  cbn [fmap list_fmap]. rewrite !Number_decimal by assumption. reflexivity.
Qed.

Lemma release_parse_format (a b c : Z) :
  Z.abs a <= 2 ^ 53 -> Z.abs b <= 2 ^ 53 -> Z.abs c <= 2 ^ 53 ->
  Release.parseVersion
    (Release.formatVersion
       {| Release.major := JS.Int a; Release.minor := JS.Int b;
          Release.patch := JS.Int c |})
  = Done {| Release.major := JS.Int a; Release.minor := JS.Int b;
            Release.patch := JS.Int c |}.
Proof.
  intros Ha Hb Hc. unfold Release.parseVersion, Release.formatVersion.
  cbn [Release.major Release.minor Release.patch JS.numberToString].
  rewrite (split_three _ _ _ (decimal_noPoint a) (decimal_noPoint b) (decimal_noPoint c)).
  cbn [fmap list_fmap]. rewrite !Number_decimal by assumption. reflexivity.
Qed.

(** X8.  A version of whole numbers up to 2^53 in absolute value, printed by
    [formatVersion], is read back by [parseVersion] as the same version, in
    the workflow and in the release script.  So the version a bump prints is
    the version the next run reads. *)
Theorem parse_format_round_trip (a b c : Z) :
  Z.abs a <= 2 ^ 53 -> Z.abs b <= 2 ^ 53 -> Z.abs c <= 2 ^ 53 ->
  Workflow.parseVersion
    (Workflow.formatVersion
       {| Workflow.major := JS.Int a; Workflow.minor := JS.Int b;
          Workflow.patch := JS.Int c |})
  = Done {| Workflow.major := JS.Int a; Workflow.minor := JS.Int b;
            Workflow.patch := JS.Int c |}
  /\ Release.parseVersion
       (Release.formatVersion
          {| Release.major := JS.Int a; Release.minor := JS.Int b;
             Release.patch := JS.Int c |})
     = Done {| Release.major := JS.Int a; Release.minor := JS.Int b;
               Release.patch := JS.Int c |}.
Proof.
  intros Ha Hb Hc.
  split; [apply workflow_parse_format | apply release_parse_format]; assumption.
Qed.

Lemma parse_format_round_trip_witness :
  Workflow.parseVersion "2.4.0"
  = Done {| Workflow.major := JS.Int 2; Workflow.minor := JS.Int 4;
            Workflow.patch := JS.Int 0 |}.
Proof.
  apply (parse_format_round_trip 2 4 0); vm_compute; discriminate.
Defined.

End VersionRoundTrip.
Section CustomVersion.
Import Proc.

Lemma hexValue_digit (a : ascii) :
  JS.isDigit a = true -> exists d, JS.hexValue a = Some d /\ 0 <= d < 10.
Proof.
  destruct a as [[] [] [] [] [] [] [] []]; intros H; try discriminate H;
    eexists; (split; [vm_compute; reflexivity | lia]).
Qed.

Lemma readRadix_digits (s : string) (acc : Z) :
  JS.forallb JS.isDigit s = true -> 0 <= acc ->
  exists n, JS.readRadix 10 acc s = Some n /\ 0 <= n.
Proof.
  revert acc. induction s as [|a s IH]; intros acc H Hacc.
  - exists acc. split; [reflexivity | exact Hacc].
  - cbn [JS.forallb] in H. apply andb_true_iff in H as [Ha H].
    destruct (hexValue_digit a Ha) as (d & Hd & Hr).
    cbn [JS.readRadix]. rewrite Hd.
    destruct (Z.ltb_spec d 10) as [_|]; [|lia].
    apply IH; [exact H | lia].
Qed.

Lemma toDouble_number (z : Z) : JS.isNaN (Some (JS.toDouble z)) = false.
Proof. unfold JS.toDouble. repeat case_match; reflexivity. Qed.

Lemma Number_digits_value (s : string) :
  JS.forallb JS.isDigit s = true -> s <> "" ->
  exists n, 0 <= n /\ JS.Number s = JS.toDouble n.
Proof.
  intros H Hne. rewrite (Number_digits s H Hne).
  destruct (readRadix_digits s 0 H) as (n & Hn & Hpos); [lia|].
  exists n. split; [exact Hpos|]. unfold JS.readDigits. rewrite Hn.
  destruct s; [contradiction | reflexivity].
Qed.

Lemma custom_shape (s : string) :
  JS.testAnchored Workflow.customFormat s = true ->
  exists a b c,
    s = a +:+ "." +:+ b +:+ "." +:+ c
    /\ (JS.forallb JS.isDigit a = true /\ a <> "")
    /\ (JS.forallb JS.isDigit b = true /\ b <> "")
    /\ (JS.forallb JS.isDigit c = true /\ c <> "").
Proof.
  unfold JS.testAnchored. intros H.
  destruct (JS.matchHere Workflow.customFormat s) as [[pieces rest]|] eqn:E;
    [|discriminate].
  assert (Hin : In JS.End_ Workflow.customFormat)
    by (unfold Workflow.customFormat; cbn [In]; auto 10).
  pose proof (matchHere_end _ _ _ _ Hin E) as ->.
  destruct (matchHere_sound _ _ _ _ E) as [-> Hf].
  unfold Workflow.customFormat in Hf.
  repeat match goal with
         | Hf : Forall2 _ (_ :: _) _ |- _ =>
             apply Forall2_cons_inv_l in Hf as (? & ? & ? & Hf & ->)
         | Hf : Forall2 _ [] _ |- _ => apply Forall2_nil_inv_l in Hf as ->
         end.
  cbn [pieceOf] in *. subst.
  repeat match goal with Hp : _ /\ _ |- _ => destruct Hp end.
  match type of E with
  | JS.matchHere _ (JS.concat [?a; _; ?b; _; ?c; _] +:+ _) = _ => exists a, b, c
  end.
  split.
  - cbn [JS.concat]. rewrite !sapp_nil_r. reflexivity.
  - auto.
Qed.

(** X9.  A version the custom prompt accepts (digits, a point, digits, a
    point, digits) is parsed without error by the workflow and by the release
    script, as three numbers that are zero or positive: what the validator
    lets through, the parser never rejects. *)
Theorem accepted_custom_version_parses (s : string) :
  JS.testAnchored Workflow.customFormat s = true ->
  exists x y z,
    0 <= x /\ 0 <= y /\ 0 <= z
    /\ Workflow.parseVersion s
       = Done {| Workflow.major := JS.toDouble x; Workflow.minor := JS.toDouble y;
                 Workflow.patch := JS.toDouble z |}
    /\ Release.parseVersion s
       = Done {| Release.major := JS.toDouble x; Release.minor := JS.toDouble y;
                 Release.patch := JS.toDouble z |}.
Proof.
  intros H. destruct (custom_shape s H) as (a & b & c & -> & [Ha Hane] & [Hb Hbne] & [Hc Hcne]).
  destruct (Number_digits_value a Ha Hane) as (x & Hx & Ex).
  destruct (Number_digits_value b Hb Hbne) as (y & Hy & Ey).
  destruct (Number_digits_value c Hc Hcne) as (z & Hz & Ez).
  exists x, y, z. repeat (split; [assumption|]).
  unfold Workflow.parseVersion, Release.parseVersion.
  rewrite split_three by (apply (includes_none _ JS.isDigit); try apply digit_notPoint; assumption).
  cbn [fmap list_fmap]. rewrite Ex, Ey, Ez.
  cbn [lookup list_lookup existsb length Nat.eqb negb orb nth default from_option].
  rewrite !toDouble_number. split; reflexivity.
Qed.

Lemma accepted_custom_version_parses_witness :
  exists x y z,
    0 <= x /\ 0 <= y /\ 0 <= z
    /\ Workflow.parseVersion "007.10.0"
       = Done {| Workflow.major := JS.toDouble x; Workflow.minor := JS.toDouble y;
                 Workflow.patch := JS.toDouble z |}
    /\ Release.parseVersion "007.10.0"
       = Done {| Release.major := JS.toDouble x; Release.minor := JS.toDouble y;
                 Release.patch := JS.toDouble z |}.
Proof. apply (accepted_custom_version_parses "007.10.0"). reflexivity. Defined.

End CustomVersion.
(* ===================================================================== *)
(** * Rewriting the manifests (workflow.ts) *)
(* ===================================================================== *)

Section ManifestRewrite.
Import Proc.

Lemma withQuicheVersion_line (content nv pre post : string) (pieces : list string) :
  dollarFree nv ->
  JS.execM Workflow.versionField content = Some (pre, (pieces, post)) ->
  exists w1 w2 old,
    content = pre +:+ lineWith w1 w2 old post
    /\ pieces = piecesWith w1 w2 old
    /\ Workflow.withQuicheVersion nv content = pre +:+ lineWith w1 w2 nv post
    /\ JS.forallb JS.isWhiteSpace w1 = true /\ JS.forallb JS.isWhiteSpace w2 = true
    /\ JS.forallb JS.notQuote old = true /\ old <> "".
Proof.
  intros Hnv E.
  destruct (searchLines_sound _ _ _ _ _ E) as (here & Hc & Hm).
  destruct (versionField_shape _ _ _ Hm) as (w1 & w2 & old & -> & -> & H1 & H2 & Hv & Hne).
  destruct (replace_frame Workflow.versionField 5 nv _ pre post _ Hnv E) as [_ Hr];
    [cbn; lia|].
  exists w1, w2, old. repeat split; try assumption.
  unfold Workflow.withQuicheVersion. cbn [length Workflow.versionField Nat.sub] in Hr.
  rewrite Hr. cbn [take drop JS.concat]. unfold lineWith.
  rewrite !sapp_nil_r, !sapp_assoc. reflexivity.
Qed.

Lemma withQuicheVersion_again (content a b : string) :
  plain a -> a <> "" -> plain b ->
  Workflow.withQuicheVersion b (Workflow.withQuicheVersion a content)
  = Workflow.withQuicheVersion b content.
Proof.
  intros Ha Hane Hb.
  destruct (JS.execM Workflow.versionField content) as [[pre [pieces post]]|] eqn:E.
  - destruct (withQuicheVersion_line content a pre post pieces (plain_dollarFree _ Ha) E)
      as (w1 & w2 & old & Hc & Hp & Hwa & H1 & H2 & Hold & Holdne).
    destruct (withQuicheVersion_line content b pre post pieces (plain_dollarFree _ Hb) E)
      as (w1' & w2' & old' & Hc' & Hp' & Hwb & _).
    assert (Heq : piecesWith w1 w2 old = piecesWith w1' w2' old') by congruence.
    injection Heq as <- <- <-.
    rewrite Hwa, Hwb.
    assert (E' : JS.execM Workflow.versionField (pre +:+ lineWith w1 w2 a post)
                 = Some (pre, (piecesWith w1 w2 a, post))).
    { unfold JS.execM. apply (searchLines_swap pre true w1 w2 old a post); try assumption.
      - apply plain_notQuote. exact Ha.
      - unfold JS.execM in E. rewrite <- Hc, <- Hp. exact E. }
    destruct (withQuicheVersion_line _ b pre post _ (plain_dollarFree _ Hb) E')
      as (w1'' & w2'' & old'' & _ & Hp'' & Hw'' & _).
    injection Hp'' as <- <- _. exact Hw''.
  - assert (Hsame : Workflow.withQuicheVersion a content = content).
    { unfold Workflow.withQuicheVersion, JS.replace. rewrite E. reflexivity. }
    rewrite Hsame. reflexivity.
Qed.

(** X10.  Rewriting the version twice leaves what the second rewrite alone
    leaves: of two versions written one after the other the last one wins,
    and writing the same version again changes nothing.  This holds for the
    text and for the file [updateQuicheVersion] writes. *)
Theorem last_version_written_wins (content a b : string) (e : env) (w : world) (f : file) :
  plain a -> a <> "" -> plain b ->
  files w !! Workflow.quicheManifest = Some f -> readOnly f = false -> data f = content ->
  Workflow.withQuicheVersion b (Workflow.withQuicheVersion a content)
  = Workflow.withQuicheVersion b content
  /\ Workflow.withQuicheVersion a (Workflow.withQuicheVersion a content)
     = Workflow.withQuicheVersion a content
  /\ files ((Workflow.updateQuicheVersion a;; Workflow.updateQuicheVersion b) e w).2
       !! Workflow.quicheManifest
     = files (Workflow.updateQuicheVersion b e w).2 !! Workflow.quicheManifest.
Proof.
  intros Ha Hane Hb Hf Hro Hd.
  split; [apply withQuicheVersion_again; assumption|].
  split; [apply withQuicheVersion_again; assumption|].
  rewrite (bind_done _ _ _ _ _ _ (updateQuicheVersion_writes a e w f Hf Hro)).
  rewrite (updateQuicheVersion_writes b e w f Hf Hro).
  erewrite (updateQuicheVersion_writes b e (wrote _ _ w)).
  2:{ cbn [wrote emit files]. apply lookup_insert_eq. }
  2:{ reflexivity. }
  cbn [snd wrote emit files data]. rewrite !lookup_insert_eq.
  rewrite Hd, withQuicheVersion_again by assumption. reflexivity.
Qed.

Lemma last_version_written_wins_witness :
  Workflow.withQuicheVersion "3.0.0" (Workflow.withQuicheVersion "2.4.0" sampleManifest)
  = Workflow.withQuicheVersion "3.0.0" sampleManifest.
Proof.
  apply (last_version_written_wins sampleManifest "2.4.0" "3.0.0" anyone
           (start (onlyManifest sampleManifest))
           {| data := sampleManifest; readOnly := false |});
    try reflexivity. discriminate.
Defined.


(** X11.  Writing a version with [updateQuicheVersion] and reading the
    manifest back gives the version written: when the manifest has a version
    line and can be written, the version the workflow reads afterwards, with
    [getCurrentVersion] and [parseVersion], is the version that was printed
    into it.  The version is one of whole numbers up to 2^53 in absolute
    value. *)
Theorem workflow_write_then_read (a b c : Z) (e : env) (w : world) (f : file) :
  Z.abs a <= 2 ^ 53 -> Z.abs b <= 2 ^ 53 -> Z.abs c <= 2 ^ 53 ->
  files w !! Workflow.quicheManifest = Some f -> readOnly f = false ->
  JS.execM Workflow.versionField (data f) <> None ->
  exists w',
    Workflow.updateQuicheVersion
      (Workflow.formatVersion
         {| Workflow.major := JS.Int a; Workflow.minor := JS.Int b;
            Workflow.patch := JS.Int c |}) e w = (Done tt, w')
    /\ readVersion e w'
       = (Done {| Workflow.major := JS.Int a; Workflow.minor := JS.Int b;
                  Workflow.patch := JS.Int c |}, w').
Proof.
  intros Ha Hb Hc Hf Hro Hex.
  set (v := {| Workflow.major := JS.Int a; Workflow.minor := JS.Int b;
               Workflow.patch := JS.Int c |}).
  destruct (plain_formatVersion v) as [Hplain Hne].
  eexists. split; [apply updateQuicheVersion_writes; eassumption|].
  unfold readVersion, Workflow.getCurrentVersion.
  erewrite (bind_done (readFileSync Workflow.quicheManifest ≫= _)).
  2:{ erewrite bind_done.
      2:{ apply readFileSync_some. cbn [wrote emit files]. apply lookup_insert_eq. }
      reflexivity. }
  cbn [data].
  rewrite (read_after_write (data f) (Workflow.formatVersion v) Hex
             (plain_notQuote _ Hplain) (plain_dollarFree _ Hplain) Hne).
  unfold lift, v. rewrite (workflow_parse_format a b c Ha Hb Hc). reflexivity.
Qed.

Lemma workflow_write_then_read_witness :
  exists w',
    Workflow.updateQuicheVersion "2.4.0" anyone (start (onlyManifest sampleManifest))
    = (Done tt, w')
    /\ readVersion anyone w'
       = (Done {| Workflow.major := JS.Int 2; Workflow.minor := JS.Int 4;
                  Workflow.patch := JS.Int 0 |}, w').
Proof.
  apply (workflow_write_then_read 2 4 0 anyone (start (onlyManifest sampleManifest))
           {| data := sampleManifest; readOnly := false |});
    try reflexivity; vm_compute; discriminate.
Defined.

End ManifestRewrite.
Section WorkspaceRewrite.
Import Proc.

Lemma replace_none (p : list JS.atom) groups (template s : string) :
  JS.execM p s = None -> JS.replace p groups template s = s.
Proof. intros E. unfold JS.replace. rewrite E. reflexivity. Qed.

Lemma updateWorkspaceVersion_writes (nv : string) (e : env) (w : world) (f : file) :
  files w !! Workflow.workspaceManifest = Some f -> readOnly f = false ->
  Workflow.updateWorkspaceVersion nv e w
  = (Done tt, wrote Workflow.workspaceManifest (Workflow.withWorkspaceVersion nv (data f)) w).
Proof.
  intros Hf Hro. unfold Workflow.updateWorkspaceVersion.
  rewrite (bind_done _ _ _ _ _ _ (readFileSync_some _ e w f Hf)).
  apply writeFileSync_ok with (f := f); assumption.
Qed.

(** X12.  [updateWorkspaceVersion] writes the workspace manifest and no other
    file.  When the manifest has the quiche dependency line, the text written
    is the manifest with the version value of that line replaced: what stands
    before the value (from the word quiche to the opening quote) and what
    follows it stand unchanged.  When the line is missing, the manifest is
    written back as it was and no error is raised. *)
Theorem workspace_rewrite_frame (content nv : string) (e : env) (w : world) (f : file) :
  plain nv ->
  files w !! Workflow.workspaceManifest = Some f -> readOnly f = false ->
  data f = content ->
  Workflow.updateWorkspaceVersion nv e w
  = (Done tt, wrote Workflow.workspaceManifest (Workflow.withWorkspaceVersion nv content) w)
  /\ (forall path, path <> Workflow.workspaceManifest ->
        files (Workflow.updateWorkspaceVersion nv e w).2 !! path = files w !! path)
  /\ (JS.execM Workflow.workspaceDependency content = None ->
        Workflow.withWorkspaceVersion nv content = content)
  /\ (forall pre pieces post,
        JS.execM Workflow.workspaceDependency content = Some (pre, (pieces, post)) ->
        exists head old,
          content = pre +:+ head +:+ old +:+ JS.quote +:+ post
          /\ Workflow.withWorkspaceVersion nv content
             = pre +:+ head +:+ nv +:+ JS.quote +:+ post
          /\ JS.stripPrefix "quiche" head <> None
          /\ JS.forallb JS.notQuote old = true /\ old <> "").
Proof.
  intros Hnv Hf Hro Hd.
  pose proof (updateWorkspaceVersion_writes nv e w f Hf Hro) as Hw. rewrite Hd in Hw.
  split; [exact Hw|]. split; [|split].
  - intros path Hne. rewrite Hw. cbn [snd wrote emit files].
    apply lookup_insert_ne. congruence.
  - apply replace_none.
  - intros pre pieces post E.
    destruct (searchLines_sound _ _ _ _ _ E) as (here & Hc & Hm).
    destruct (matchHere_sound _ _ _ _ Hm) as [_ Hfa].
    assert (Hlen : length pieces = 13%nat)
      by (rewrite <- (Forall2_length _ _ _ Hfa); reflexivity).
    destruct (replace_frame Workflow.workspaceDependency 11 nv _ pre post _
                (plain_dollarFree _ Hnv) E) as [Hs Hr]; [lia|].
    unfold Workflow.workspaceDependency in Hfa.
    repeat match goal with
           | Hfa : Forall2 _ (_ :: _) _ |- _ =>
               apply Forall2_cons_inv_l in Hfa as (? & ? & ? & Hfa & ->)
           | Hfa : Forall2 _ [] _ |- _ => apply Forall2_nil_inv_l in Hfa as ->
           end.
    cbn [pieceOf] in *.
    repeat match goal with Hp : _ /\ _ |- _ => destruct Hp end. subst.
    cbn [take drop nth JS.concat] in Hs, Hr.
    rewrite ?sapp_nil_r in Hs, Hr.
    eexists _, _. split; [|split; [|split]].
    + rewrite Hs at 1. reflexivity.
    + exact Hr.
    + cbn. discriminate.
    + auto.
Qed.

Lemma workspace_rewrite_frame_witness :
  Workflow.withWorkspaceVersion "2.4.0" bareWorkspace = bareWorkspace.
Proof.
  apply (workspace_rewrite_frame bareWorkspace "2.4.0" anyone
           (start (bothManifests sampleManifest bareWorkspace))
           {| data := bareWorkspace; readOnly := false |});
    reflexivity.
Defined.

End WorkspaceRewrite.
Section UpdateWithoutLine.
Import Proc.

(** X13.  When the quiche manifest has no version line and the workspace
    manifest no quiche dependency line, the version update still reports
    success: both manifests are written back with the text they had, the
    update is announced as done and [versionChanged] is set, while the version
    read from the manifest stays the default 1.0.0. *)
Theorem update_without_version_line (nv : string) (e : env) (w : world) (fq fw : file) :
  files w !! Workflow.quicheManifest = Some fq -> readOnly fq = false ->
  JS.execM Workflow.versionField (data fq) = None ->
  files w !! Workflow.workspaceManifest = Some fw -> readOnly fw = false ->
  JS.execM Workflow.workspaceDependency (data fw) = None ->
  exists w',
    Workflow.applyVersion nv e w = (Done true, w')
    /\ files w' !! Workflow.quicheManifest = Some fq
    /\ files w' !! Workflow.workspaceManifest = Some fw
    /\ last (trace w') = Some (EvSay Spinner ("Updated version to " +:+ nv))
    /\ Workflow.currentVersionOf (data fq) = "1.0.0".
Proof.
  intros Hq Hqro Eq Hw Hwro Ew.
  rewrite applyVersion_eq.
  set (w0 := emit (EvSay Spinner "Updating version in Cargo.toml files...") w).
  assert (Hq0 : files w0 !! Workflow.quicheManifest = Some fq) by exact Hq.
  rewrite (bind_done _ _ _ _ _ _ (updateQuicheVersion_writes nv e w0 fq Hq0 Hqro)).
  unfold Workflow.withQuicheVersion. rewrite (replace_none _ _ _ _ Eq).
  set (w1 := wrote Workflow.quicheManifest (data fq) w0).
  assert (Hw1 : files w1 !! Workflow.workspaceManifest = Some fw).
  { unfold w1. cbn [wrote emit files]. rewrite lookup_insert_ne by discriminate. exact Hw. }
  rewrite (bind_done _ _ _ _ _ _ (updateWorkspaceVersion_writes nv e w1 fw Hw1 Hwro)).
  unfold Workflow.withWorkspaceVersion. rewrite (replace_none _ _ _ _ Ew).
  eexists. split; [reflexivity|].
  unfold w1, w0. cbn [wrote emit files trace]. split; [|split; [|split]].
  - rewrite lookup_insert_ne by discriminate. rewrite lookup_insert_eq.
    destruct fq as [d ro]. cbn in Hqro. subst ro. reflexivity.
  - rewrite lookup_insert_eq. destruct fw as [d ro]. cbn in Hwro. subst ro. reflexivity.
  - apply last_snoc.
  - unfold Workflow.currentVersionOf. rewrite Eq. reflexivity.
Qed.

Lemma update_without_version_line_witness :
  exists w',
    Workflow.applyVersion "1.0.1" (operator Patch) (start noVersionAnywhere) = (Done true, w')
    /\ files w' !! Workflow.quicheManifest = Some {| data := noVersionLine; readOnly := false |}.
Proof.
  destruct (update_without_version_line "1.0.1" (operator Patch) (start noVersionAnywhere)
              {| data := noVersionLine; readOnly := false |}
              {| data := bareWorkspace; readOnly := false |})
    as (w' & Ha & Hq & _); try reflexivity.
  exists w'. split; [exact Ha | exact Hq].
Defined.

End UpdateWithoutLine.
(* ===================================================================== *)
(** * Runs of the workflow (workflow.ts) *)
(* ===================================================================== *)

Section KeepVersion.
Import Proc.

Lemma onlyAt_of_only ok {A} (m : M A) (e : env) (w : world) : only ok m -> onlyAt ok m e w.
Proof. intros H. exact (H e w). Qed.

Lemma onlyAt_bind ok {A B} (m : M A) (k : A -> M B) (e : env) (w : world) :
  onlyAt ok m e w -> (forall a w', onlyAt ok (k a) e w') -> onlyAt ok (m ≫= k) e w.
Proof.
  intros (evs & Ht & Hok & Hfs) Hk. unfold onlyAt, mbind, M_bind, bind.
  destruct (m e w) as [[a|c|msg] w1]; cbn [snd] in *.
  - destruct (Hk a w1) as (evs' & Ht' & Hok' & Hfs').
    exists (evs ++ evs'). rewrite Ht', Ht, app_assoc, forallb_app, Hok, Hok', Hfs', Hfs.
    auto.
  - exists evs. auto.
  - exists evs. auto.
Qed.





End KeepVersion.
Section Scripts.
Import Proc.

(** X15.  The silent [exec] returns for every outcome of the command: the
    trimmed output, and the empty string when the command fails or hands back
    no output.  It never throws and never ends the process, so no error of
    the command reaches the caller.  The other [exec] returns only when the
    command hands back its output, and throws otherwise.  The [exec] of the
    commit script is the same function. *)
Theorem silent_exec_always_returns (command : string) (e : env) (w : world) :
  (exists out,
     Workflow.exec command true e w = (Done out, ranCommand command true w)
     /\ (out = ""
         \/ exists stdout, shell e (ran w) command = Returned (Some stdout)
                           /\ out = JS.trim stdout))
  /\ (notCaptured (shell e (ran w) command) ->
      Workflow.exec command true e w = (Done "", ranCommand command true w)
      /\ exists message,
           Workflow.exec command false e w = (Raise message, ranCommand command false w))
  /\ (forall silent, Commit.exec command silent e w = Workflow.exec command silent e w).
Proof.
  split; [|split; [|reflexivity]];
    unfold Workflow.exec, try, execSync, throw, notCaptured, ranCommand,
      mbind, M_bind, bind, mret, M_ret, ret;
    destruct (shell e (ran w) command) as [[stdout|]|message] eqn:E; cbn.
  - exists (JS.trim stdout). split; [reflexivity|]. right. exists stdout. auto.
  - exists "". auto.
  - exists "". auto.
  - contradiction.
  - intros _. split; [reflexivity|]. eexists. reflexivity.
  - intros _. split; [reflexivity|]. eexists. reflexivity.
Qed.

Lemma silent_exec_always_returns_witness :
  Workflow.exec "git tag v1.0.0" true noGit (start ∅)
  = (Done "", ranCommand "git tag v1.0.0" true (start ∅)).
Proof.
  apply (silent_exec_always_returns "git tag v1.0.0" noGit (start ∅)). exact I.
Defined.

Lemma runScript_true (scriptName npmScript : string) (e : env) (w w' : world) :
  Workflow.runScript scriptName npmScript e w = (Done true, w') ->
  confirms e (asked w) = Some true
  /\ exists out, shell e (ran w) (Workflow.npmRun npmScript) = Returned (Some out).
Proof.
  unfold Workflow.runScript, Workflow.exec, try, confirm, say, execSync, throw, exit,
    mbind, M_bind, bind, mret, M_ret, ret.
  cbn [emit files asked ran trace].
  destruct (confirms e (asked w)) as [[|]|]; cbn; try discriminate.
  destruct (shell e (ran w) (Workflow.npmRun npmScript)) as [[out|]|message]; cbn.
  - intros _. split; [reflexivity|]. exists out. reflexivity.
  - destruct (confirms e (S (asked w))) as [[|]|]; cbn; discriminate.
  - destruct (confirms e (S (asked w))) as [[|]|]; cbn; discriminate.
Qed.

(** X16.  [runScript] answers true, the script ran, only when the operator
    agreed to run it and the command handed its output back to [exec].  A
    command whose output goes to the terminal hands back null: the script is
    then reported as failed although it ran, and the operator is asked
    whether to continue. *)
Theorem script_counts_only_with_output (scriptName npmScript : string) (e : env)
    (w : world) :
  (forall w', Workflow.runScript scriptName npmScript e w = (Done true, w') ->
     confirms e (asked w) = Some true
     /\ exists out, shell e (ran w) (Workflow.npmRun npmScript) = Returned (Some out))
  /\ (confirms e (asked w) = Some true ->
      shell e (ran w) (Workflow.npmRun npmScript) = Returned None ->
      exists evs,
        trace (Workflow.runScript scriptName npmScript e w).2
        = trace w ++ [EvConfirm ("Run " +:+ scriptName +:+ "?");
                      EvSay Info ("Running " +:+ scriptName +:+ "...");
                      EvExec (Workflow.npmRun npmScript) false;
                      EvSay Err (scriptName +:+ " failed");
                      EvConfirm "Continue with workflow despite error?"] ++ evs
        /\ (Workflow.runScript scriptName npmScript e w).1 <> Done true).
Proof.
  split; [intros w'; apply runScript_true|].
  intros Hc Hs.
  unfold Workflow.runScript, Workflow.exec, try, confirm, say, execSync, throw, exit,
    mbind, M_bind, bind, mret, M_ret, ret.
  cbn [emit files asked ran trace]. rewrite Hc. cbn. rewrite Hs. cbn.
  destruct (confirms e (S (asked w))) as [[|]|]; cbn;
    rewrite <- ?app_assoc; cbn [app];
    eexists; (split; [reflexivity | discriminate]).
Qed.

Lemma script_counts_only_with_output_witness :
  exists evs,
    trace (Workflow.runScript "build script" "build" (operator Patch) (start ∅)).2
    = trace (start ∅) ++ [EvConfirm "Run build script?";
                          EvSay Info "Running build script...";
                          EvExec "npm run build" false;
                          EvSay Err "build script failed";
                          EvConfirm "Continue with workflow despite error?"] ++ evs.
Proof.
  destruct (proj2 (script_counts_only_with_output "build script" "build" (operator Patch)
                     (start ∅)) eq_refl eq_refl) as (evs & H & _).
  exists evs. exact H.
Defined.

End Scripts.
Section PackagePhase.
Import Proc.

Lemma isPackage_isScript (ev : event) : isPackage ev = true -> isScript ev = true.
Proof.
  destruct ev; try discriminate. cbn. intros H. apply andb_true_iff in H as [H _]. exact H.
Qed.

Lemma noScript_noPackage (evs : list event) :
  forallb (fun ev => negb (isScript ev)) evs = true ->
  forallb (fun ev => negb (isPackage ev)) evs = true.
Proof.
  rewrite !forallb_forall. intros H ev Hin. specialize (H ev Hin).
  destruct (isPackage ev) eqn:E; [|reflexivity].
  rewrite (isPackage_isScript ev E) in H. discriminate.
Qed.

Lemma runScript_noPackage (scriptName npmScript : string) :
  String.eqb (Workflow.npmRun npmScript) (Workflow.npmRun "package") = false ->
  only (fun ev => negb (isPackage ev)) (Workflow.runScript scriptName npmScript).
Proof.
  intros H. unfold Workflow.runScript.
  repeat first [apply only_exec; cbn [isPackage negb andb]; rewrite H; reflexivity
               | only_step].
Qed.

Lemma afterBuild_noPackage (newVersion : string) (versionChanged : bool) :
  only (fun ev => negb (isPackage ev)) (Workflow.afterBuild newVersion versionChanged false).
Proof.
  unfold Workflow.afterBuild. cbn [orb].
  repeat first [apply runScript_noPackage; reflexivity
               | apply only_exec; reflexivity
               | progress unfold Workflow.checkGitClean
               | only_step].
Qed.

(** X17.  A build script whose output is never handed back to the workflow
    (it fails, or its output goes to the terminal and the command returns
    null) never counts as run: in no such run of the workflow is the package
    script started. *)
Theorem package_needs_captured_build (e : env) (fs : gmap string file) :
  (forall n, notCaptured (shell e n (Workflow.npmRun "build"))) ->
  existsb isPackage (trace (Workflow.run e fs).2) = false.
Proof.
  intros Hbuild.
  assert (Hmain : exists evs, trace (Workflow.main e (start fs)).2 = evs
                              /\ forallb (fun ev => negb (isPackage ev)) evs = true).
  { rewrite main_eq. destruct (tame_untilBuild e (start fs)) as (evsA & Ht & Hs & _ & _).
    cbn [start trace app] in Ht. apply noScript_noPackage in Hs.
    unfold mbind, M_bind, bind.
    destruct (untilBuild e (start fs)) as [[[nv ch]|c|msg] w1]; cbn [fst snd] in *;
      [|eexists; split; [reflexivity | rewrite Ht; exact Hs]..].
    unfold fromBuild, mbind, M_bind, bind.
    assert (Hb : only (fun ev => negb (isPackage ev)) Workflow.buildPhase).
    { unfold Workflow.buildPhase.
      repeat first [apply runScript_noPackage; reflexivity | only_step]. }
    destruct (Hb e w1) as (evsB & HtB & HokB & _).
    destruct (Workflow.buildPhase e w1) as [[buildRan|c|msg] w2] eqn:Eb; cbn [fst snd] in *;
      [|eexists; split; [reflexivity | rewrite HtB, Ht, forallb_app, Hs, HokB; reflexivity]..].
    destruct buildRan.
    - exfalso. unfold Workflow.buildPhase, say, mbind, M_bind, bind in Eb.
      apply runScript_true in Eb as (_ & out & Hout).
      specialize (Hbuild (ran (emit (EvSay Info "Build Phase") w1))).
      rewrite Hout in Hbuild. exact Hbuild.
    - destruct (afterBuild_noPackage nv ch e w2) as (evsC & HtC & HokC & _).
      eexists. split; [reflexivity|].
      rewrite HtC, HtB, Ht, !forallb_app, Hs, HokB, HokC. reflexivity. }
  destruct Hmain as (evs & Ht & Hok).
  assert (Hnone : forall l, forallb (fun ev => negb (isPackage ev)) l = true ->
                            existsb isPackage l = false).
  { intros l. induction l as [|x l IH]; [reflexivity|]. cbn [forallb existsb].
    intros H. apply andb_true_iff in H as [Hx H]. rewrite (IH H).
    destruct (isPackage x); [discriminate | reflexivity]. }
  unfold Workflow.run.
  destruct (Workflow.main e (start fs)) as [[a|c|msg] w1]; cbn [fst snd emit trace] in *;
    subst evs; try (apply Hnone; exact Hok).
  apply Hnone. rewrite forallb_app, Hok. reflexivity.
Qed.

Lemma package_needs_captured_build_witness :
  existsb isPackage
    (trace (Workflow.run (operator Patch) (bothManifests sampleManifest workspaceText)).2)
  = false.
Proof.
  apply (package_needs_captured_build (operator Patch)).
  intros n. exact I.
Defined.

End PackagePhase.
Section ExitStatus.
Import Proc.

Lemma exits_ret {A} (a : A) : exitsZeroOrOne (mret a).
Proof. intros e w. exact I. Qed.

Lemma exits_exit {A} (c : Z) : c = 0 \/ c = 1 -> exitsZeroOrOne (@exit A c).
Proof. intros H e w. exact H. Qed.

Lemma exits_throw {A} (msg : string) : exitsZeroOrOne (@throw A msg).
Proof. intros e w. exact I. Qed.

Lemma exits_lift {A} (o : outcome A) :
  (forall c, o = Exit c -> c = 0 \/ c = 1) -> exitsZeroOrOne (lift o).
Proof. intros H e w. cbn. destruct o; auto. Qed.

Lemma exits_bind {A B} (m : M A) (k : A -> M B) :
  exitsZeroOrOne m -> (forall a, exitsZeroOrOne (k a)) -> exitsZeroOrOne (m ≫= k).
Proof.
  intros Hm Hk e w. specialize (Hm e w). unfold mbind, M_bind, bind.
  destruct (m e w) as [[a|c|msg] w1]; cbn [fst] in *; [apply Hk | exact Hm | exact I].
Qed.

Lemma exits_try {A} (body : M A) (handler : string -> M A) :
  exitsZeroOrOne body -> (forall msg, exitsZeroOrOne (handler msg)) ->
  exitsZeroOrOne (try body handler).
Proof.
  intros Hb Hh e w. specialize (Hb e w). unfold try.
  destruct (body e w) as [[a|c|msg] w1]; cbn [fst] in *; [exact I | exact Hb | apply Hh].
Qed.

Lemma exits_never {A} (m : M A) :
  (forall e w c, (m e w).1 <> Exit c) -> exitsZeroOrOne m.
Proof.
  intros H e w. specialize (H e w). destruct (m e w).1; try exact I.
  exfalso. exact (H status eq_refl).
Qed.

End ExitStatus.

Ltac exits_step :=
  first
    [ apply exits_bind; [|intros ?]
    | apply exits_try; [|intros ?]
    | apply exits_ret
    | apply exits_exit; auto
    | apply exits_throw
    | apply exits_never; intros ? ? ?; cbv [Proc.say Proc.confirm Proc.select Proc.text Proc.execSync];
      cbn [fst]; discriminate
    | apply exits_never; intros ? ? ?; cbv [Proc.readFileSync Proc.writeFileSync];
      repeat case_match; cbn [fst]; discriminate
    | match goal with
      | |- exitsZeroOrOne (match ?x with _ => _ end) => destruct x
      | |- exitsZeroOrOne (if ?b then _ else _) => destruct b
      end ].

Section WorkflowStatus.
Import Proc.

Lemma exits_parseVersion (s : string) : exitsZeroOrOne (lift (Workflow.parseVersion s)).
Proof.
  apply exits_lift. intros c. unfold Workflow.parseVersion. case_match; discriminate.
Qed.

Lemma exits_main : exitsZeroOrOne Workflow.main.
Proof.
  unfold Workflow.main, Workflow.preflight, Workflow.versionStep, Workflow.buildPhase,
    Workflow.afterBuild, Workflow.applyVersion, Workflow.checkGitClean,
    Workflow.getCurrentVersion, Workflow.updateQuicheVersion,
    Workflow.updateWorkspaceVersion, Workflow.runScript, Workflow.exec.
  repeat first [apply exits_parseVersion | exits_step].
Qed.

(** X18.  Every run of the workflow ends with status 0 or 1: 0 when [main]
    returns, the status of [process.exit] (never another than 0 or 1) when a
    step ends the process, and 1 when an error escapes [main]. *)
Theorem workflow_status_zero_or_one (e : env) (fs : gmap string file) :
  ((Workflow.run e fs).1 = 0 \/ (Workflow.run e fs).1 = 1)
  /\ (forall a w, Workflow.main e (start fs) = (Done a, w) -> (Workflow.run e fs).1 = 0)
  /\ (forall message w, Workflow.main e (start fs) = (Raise message, w) ->
        (Workflow.run e fs).1 = 1).
Proof.
  pose proof (exits_main e (start fs)) as H. unfold Workflow.run.
  destruct (Workflow.main e (start fs)) as [[a|c|msg] w1]; cbn [fst] in *.
  - split; [left; reflexivity|]. split; [reflexivity | discriminate].
  - split; [exact H|]. split; discriminate.
  - split; [right; reflexivity|]. split; [discriminate | reflexivity].
Qed.

End WorkflowStatus.
(* ===================================================================== *)
(** * The commit script: the status of the working tree *)
(* ===================================================================== *)

Section GitStatus.
Import Proc.

Lemma classify_files (status : Commit.GitStatus) (line : string) :
  Commit.allFiles (Commit.classify status line)
  ≡ₚ Commit.allFiles status ++ [JS.substringFrom 3 line].
Proof.
  unfold Commit.classify, Commit.allFiles.
  repeat case_match; cbn [Commit.modified Commit.added Commit.deleted Commit.untracked];
    solve_Permutation.
Qed.

Lemma fold_classify_files (lines : list string) (status : Commit.GitStatus) :
  Commit.allFiles (fold_left Commit.classify lines status)
  ≡ₚ Commit.allFiles status ++ (JS.substringFrom 3 <$> lines).
Proof.
  revert status. induction lines as [|line lines IH]; intros status.
  - cbn. rewrite app_nil_r. reflexivity.
  - cbn [fold_left fmap list_fmap]. rewrite IH, classify_files, <- app_assoc. reflexivity.
Qed.

Lemma getGitStatus_files (e : env) (w : world) :
  exists status out,
    Commit.getGitStatus e w
    = (Done status, ranCommand "git status --porcelain" true w)
    /\ Commit.exec "git status --porcelain" true e w
       = (Done out, ranCommand "git status --porcelain" true w)
    /\ Commit.allFiles status ≡ₚ (JS.substringFrom 3 <$> Commit.statusLines out).
Proof.
  unfold Commit.getGitStatus, Commit.exec, try, execSync, throw, ranCommand,
    mbind, M_bind, bind, mret, M_ret, ret.
  destruct (shell e (ran w) "git status --porcelain") as [[stdout|]|message]; cbn [fst snd];
    eexists _, _; (split; [reflexivity|]); (split; [reflexivity|]);
    rewrite fold_classify_files; reflexivity.
Qed.

(** X19.  [getGitStatus] never fails.  Every line of the status that is not
    blank puts exactly one file into one of the four lists, the text of the
    line from its fourth character on; when the status command fails, or
    hands back no output, the four lists are empty. *)
Theorem getGitStatus_one_file_per_line (e : env) (w : world) :
  exists status out,
    Commit.getGitStatus e w
    = (Done status, ranCommand "git status --porcelain" true w)
    /\ Commit.exec "git status --porcelain" true e w
       = (Done out, ranCommand "git status --porcelain" true w)
    /\ Commit.allFiles status ≡ₚ (JS.substringFrom 3 <$> Commit.statusLines out)
    /\ (notCaptured (shell e (ran w) "git status --porcelain") ->
        status = {| Commit.modified := []; Commit.added := []; Commit.deleted := [];
                    Commit.untracked := [] |}).
Proof.
  destruct (getGitStatus_files e w) as (status & out & Hg & Hex & Hperm).
  exists status, out. split; [exact Hg|]. split; [exact Hex|]. split; [exact Hperm|].
  intros Hn. revert Hg.
  unfold Commit.getGitStatus, Commit.exec, try, execSync, throw, notCaptured, ranCommand,
    mbind, M_bind, bind, mret, M_ret, ret in *.
  destruct (shell e (ran w) "git status --porcelain") as [[stdout|]|message]; cbn [fst snd];
    [contradiction|..]; intros [= <-]; reflexivity.
Qed.

End GitStatus.
Section FirstStatusLine.
Import Proc.

Lemma rev_app_app (s t u : string) :
  String.rev_app (s +:+ t) u = String.rev_app t (String.rev_app s u).
Proof. revert u. induction s as [|a s IH]; intros u; [reflexivity|]. cbn. apply IH. Qed.

Lemma dropWhile_skip c (w rest : string) :
  JS.forallb c w = true -> JS.dropWhile c (w +:+ rest) = JS.dropWhile c rest.
Proof.
  induction w as [|a w IH]; intros H; [reflexivity|].
  cbn [JS.forallb] in H. apply andb_true_iff in H as [Ha H].
  rewrite sapp_cons. cbn [JS.dropWhile]. rewrite Ha. exact (IH H).
Qed.

Lemma rev_app_head (s u : string) :
  JS.forallb (fun a => negb (JS.isWhiteSpace a)) s = true -> s <> "" ->
  exists b t, String.rev_app s u = String b t /\ JS.isWhiteSpace b = false.
Proof.
  revert u. induction s as [|a s IH]; intros u H Hne; [contradiction|].
  cbn [JS.forallb] in H. apply andb_true_iff in H as [Ha H].
  cbn [String.rev_app]. destruct s as [|a' s'].
  - exists a, u. split; [reflexivity|]. apply negb_true_iff. exact Ha.
  - apply IH; [exact H | discriminate].
Qed.

(** The trim of a text between two runs of white space, when the text starts
    and ends with a character that is no white space. *)
Lemma trim_core (w1 w2 : string) (a : ascii) (mid last : string) :
  JS.forallb JS.isWhiteSpace w1 = true -> JS.forallb JS.isWhiteSpace w2 = true ->
  JS.isWhiteSpace a = false ->
  JS.forallb (fun a => negb (JS.isWhiteSpace a)) last = true -> last <> "" ->
  JS.trim (w1 +:+ String a (mid +:+ last) +:+ w2) = String a (mid +:+ last).
Proof.
  intros H1 H2 Ha Hlast Hne. unfold JS.trim.
  rewrite (dropWhile_skip _ w1 _ H1). rewrite sapp_cons. cbn [JS.dropWhile]. rewrite Ha.
  unfold String.rev at 2.
  change (String a ((mid +:+ last) +:+ w2)) with (String a (mid +:+ last) +:+ w2).
  rewrite rev_app_app.
  assert (Hrev : exists b t, String.rev_app (String a (mid +:+ last)) "" = String b t
                             /\ JS.isWhiteSpace b = false).
  { change (String a (mid +:+ last)) with (String a mid +:+ last).
    rewrite rev_app_app. apply rev_app_head; assumption. }
  destruct Hrev as (b & t & Hrev & Hb).
  assert (Hw2 : forall u, String.rev_app w2 u
                          = String.rev_app w2 "" +:+ u).
  { clear. induction w2 as [|c w2 IH]; intros u; [reflexivity|].
    cbn [String.rev_app]. rewrite IH, (IH (String c "")), sapp_assoc. reflexivity. }
  rewrite Hw2, dropWhile_skip.
  2:{ pose proof (sforallb_rev_app JS.isWhiteSpace w2 "") as Hr.
      rewrite H2 in Hr. exact Hr. }
  rewrite Hrev. cbn [JS.dropWhile]. rewrite Hb, <- Hrev.
  apply (rev_rev (String a (mid +:+ last))).
Qed.

Lemma notSpace_notLF (file : string) :
  JS.forallb (fun a => negb (JS.isWhiteSpace a)) file = true ->
  JS.includes "010" file = false.
Proof.
  apply includes_none. intros a H. unfold JS.eqc.
  destruct (Ascii.eqb_spec a "010") as [->|]; [discriminate H | reflexivity].
Qed.

(** X20.  [exec] trims the output of the status command before the lines are
    cut up, and the file of a line is taken from its fourth character on.  So
    when the first line of the status starts with a space (a change that is
    not staged), the space is trimmed away and the file recorded for that
    line lacks its first character. *)
Theorem first_status_line_loses_a_character (file : string) (y : ascii) (e : env)
    (w : world) :
  JS.forallb (fun a => negb (JS.isWhiteSpace a)) file = true -> file <> "" ->
  JS.isWhiteSpace y = false ->
  shell e (ran w) "git status --porcelain"
  = Returned (Some (String " " (String y (String " " (file +:+ String "010" ""))))) ->
  exists status,
    Commit.getGitStatus e w = (Done status, ranCommand "git status --porcelain" true w)
    /\ Commit.allFiles status = [JS.substringFrom 1 file].
Proof.
  intros Hfile Hne Hy Hs.
  destruct (getGitStatus_files e w) as (status & out & Hg & Hex & Hperm).
  exists status. split; [exact Hg|].
  assert (Hout : out = String y (String " " file)).
  { unfold Commit.exec, try, execSync, throw, ranCommand, mbind, M_bind, bind,
      mret, M_ret, ret in Hex.
    rewrite Hs in Hex. cbn in Hex. injection Hex as <-.
    apply (trim_core " " (String "010" "") y " " file); auto. }
  subst out.
  assert (Hlines : Commit.statusLines (String y (String " " file))
                   = [String y (String " " file)]).
  { unfold Commit.statusLines. rewrite split_clean.
    - cbn [List.filter].
      pose proof (trim_core "" "" y " " file eq_refl eq_refl Hy Hfile Hne) as Ht.
      rewrite sapp_nil_l, sapp_nil_r in Ht.
      change (" " +:+ file) with (String " " file) in Ht. rewrite Ht.
      reflexivity.
    - cbn [JS.includes]. rewrite (notSpace_notLF file Hfile).
      unfold JS.eqc. destruct (Ascii.eqb_spec y "010") as [->|]; [discriminate Hy|].
      reflexivity. }
  rewrite Hlines in Hperm. cbn in Hperm.
  apply Permutation_singleton_r in Hperm. exact Hperm.
Qed.

Lemma first_status_line_loses_a_character_witness :
  exists status,
    Commit.getGitStatus
      {| confirms := fun _ => None; versionAction := None; customInputs := [];
         shell := fun _ _ => Returned (Some (String " " ("M src/lib.rs" +:+ String "010" ""))) |}
      (start ∅)
    = (Done status, ranCommand "git status --porcelain" true (start ∅))
    /\ Commit.allFiles status = ["rc/lib.rs"].
Proof.
  apply (first_status_line_loses_a_character "src/lib.rs" "M"); try reflexivity.
  discriminate.
Defined.

End FirstStatusLine.
Section CommitMessage.
Import Proc.

Lemma includes_app (c : ascii) (s t : string) :
  JS.includes c (s +:+ t) = JS.includes c s || JS.includes c t.
Proof.
  induction s as [|a s IH]; [reflexivity|].
  rewrite sapp_cons. cbn [JS.includes]. rewrite IH, orb_assoc. reflexivity.
Qed.

Lemma formatCommitMessage_header (o : Commit.CommitOptions) :
  exists rest,
    Commit.formatCommitMessage o = header o +:+ rest
    /\ (rest = "" \/ exists rest', rest = String "010" rest')
    /\ (Commit.breaking o = false -> Commit.given (Commit.body o) = None -> rest = "").
Proof.
  exists (match Commit.given (Commit.body o) with
          | Some b => String "010" (String "010" "") +:+ b
          | None => ""
          end
          +:+ (if Commit.breaking o
               then String "010" (String "010" "")
                    +:+ "BREAKING CHANGE: This commit contains breaking changes"
               else "")).
  unfold Commit.formatCommitMessage, header.
  destruct (Commit.given (Commit.scope o)) as [s|];
    destruct (Commit.breaking o); destruct (Commit.given (Commit.body o)) as [b|];
    (split; [repeat (rewrite sapp_assoc || rewrite sapp_nil_l || rewrite sapp_nil_r);
             reflexivity|]);
    (split; [first [left; reflexivity | right; eexists; reflexivity]
            | intros; first [reflexivity | discriminate]]).
Qed.

(** X21.  The first line of a commit message is its header, the type, the
    scope in parentheses, an exclamation mark for a breaking change, a colon
    and the subject, whenever none of these holds a line feed; a body and the
    note of a breaking change follow after an empty line.  An empty scope and
    an empty body count as absent. *)
Theorem commit_message_header (o : Commit.CommitOptions) :
  (oneLine (Commit.type o) ->
   (forall s, Commit.scope o = Some s -> oneLine s) ->
   oneLine (Commit.message o) ->
   hd "" (JS.split "010" (Commit.formatCommitMessage o)) = header o)
  /\ (Commit.breaking o = false -> Commit.given (Commit.body o) = None ->
      Commit.formatCommitMessage o = header o)
  /\ (Commit.scope o = Some "" ->
      header o = Commit.type o +:+ (if Commit.breaking o then "!" else "") +:+ ": "
                 +:+ Commit.message o).
Proof.
  destruct (formatCommitMessage_header o) as (rest & Heq & Hrest & Hnone).
  split; [|split].
  - intros Ht Hs Hm. rewrite Heq.
    assert (Hh : JS.includes "010" (header o) = false).
    { unfold header, oneLine in *. rewrite !includes_app, Ht, Hm.
      destruct (Commit.scope o) as [s|] eqn:Es; cbn [Commit.given].
      - destruct (String.eqb s ""); destruct (Commit.breaking o);
          rewrite ?includes_app, ?(Hs s eq_refl); reflexivity.
      - destruct (Commit.breaking o); reflexivity. }
    destruct Hrest as [-> | (rest' & ->)].
    + rewrite sapp_nil_r, (split_clean _ _ Hh). reflexivity.
    + apply split_first_line. exact Hh.
  - intros Hb Hbody. rewrite Heq, (Hnone Hb Hbody). apply sapp_nil_r.
  - intros Hs. unfold header. rewrite Hs. reflexivity.
Qed.

End CommitMessage.
(* ===================================================================== *)
(** * The release script: its checks and its builds *)
(* ===================================================================== *)

Section ReleaseChecks.
Import Proc.

(** X22.  The clean-tree check of the release script never fails: it answers
    true exactly when both [git diff] commands end without error, and false
    as soon as one of them fails, the second not being run after a failure
    of the first.  So a machine on which every command fails (git missing)
    reads as not clean here, while the check of the workflow reads it as
    clean. *)
Theorem release_check_fails_closed (e : env) (w : world) :
  (exists clean w',
     Release.checkGitClean e w = (Done clean, w')
     /\ (clean = true
         <-> exists o1 o2,
               shell e (ran w) "git diff --quiet --exit-code" = Returned o1
               /\ shell e (S (ran w)) "git diff --cached --quiet --exit-code"
                  = Returned o2))
  /\ (forall message,
        shell e (ran w) "git diff --quiet --exit-code" = Failed message ->
        Release.checkGitClean e w
        = (Done false, ranCommand "git diff --quiet --exit-code" true w))
  /\ (forall message,
        (forall n command, shell e n command = Failed message) ->
        (Release.checkGitClean e w).1 = Done false
        /\ (Workflow.checkGitClean e w).1 = Done true).
Proof.
  split; [|split].
  - unfold Release.checkGitClean, try, execSync, throw, mbind, M_bind, bind, mret, M_ret, ret.
    cbn [emit files asked ran trace].
    destruct (shell e (ran w) "git diff --quiet --exit-code") as [o1|m1] eqn:E1; cbn.
    + destruct (shell e (S (ran w)) "git diff --cached --quiet --exit-code") as [o2|m2] eqn:E2;
        cbn; eexists _, _; (split; [reflexivity|]).
      * split; [intros _; exists o1, o2; auto | reflexivity].
      * split; [discriminate|]. intros (o1' & o2' & _ & H). discriminate.
    + eexists _, _. split; [reflexivity|].
      split; [discriminate|]. intros (o1' & o2' & H & _). discriminate.
  - intros message H.
    unfold Release.checkGitClean, try, execSync, throw, ranCommand,
      mbind, M_bind, bind, mret, M_ret, ret.
    rewrite H. reflexivity.
  - intros message H. split.
    + unfold Release.checkGitClean, try, execSync, throw, mbind, M_bind, bind, mret, M_ret, ret.
      rewrite H. reflexivity.
    + unfold Workflow.checkGitClean, Workflow.exec, try, execSync, throw,
        mbind, M_bind, bind, mret, M_ret, ret.
      rewrite H. reflexivity.
Qed.

(** X23.  When the manifest has no version line, [updateVersion] of the
    release script writes nothing: it reports that the line was not found and
    ends the process with status 1.  A manifest that cannot be read ends it
    the same way.  [updateVersion] never throws, and whenever it ends the
    process, the status is 1 and the files are as they were. *)
Theorem release_update_needs_version_line (v : Release.Version) (e : env) (w : world) :
  (forall f, files w !! Release.CARGO_TOML_PATH = Some f ->
     JS.execM Release.versionRegex (data f) = None ->
     Release.updateVersion v e w
     = (Exit 1,
        emit (EvSay Err "failed to update version: could not find version line in Cargo.toml")
          w))
  /\ (files w !! Release.CARGO_TOML_PATH = None ->
      exists message,
        Release.updateVersion v e w = (Exit 1, emit (EvSay Err message) w))
  /\ (forall status w', Release.updateVersion v e w = (Exit status, w') ->
        status = 1 /\ files w' = files w)
  /\ (forall message w', Release.updateVersion v e w <> (Raise message, w')).
Proof.
  unfold Release.updateVersion, try, readFileSync, writeFileSync, say, throw, exit,
    mbind, M_bind, bind, mret, M_ret, ret.
  split; [|split; [|split]].
  - intros f Hf E. rewrite Hf, E. reflexivity.
  - intros Hf. rewrite Hf. eexists. reflexivity.
  - intros status w'. destruct (files w !! Release.CARGO_TOML_PATH) as [[d ro]|] eqn:Hf;
      cbn [data].
    + destruct (JS.execM Release.versionRegex d) as [m|]; cbn.
      * rewrite Hf. destruct ro; cbn; intros [= <- <-]; auto.
      * intros [= <- <-]. auto.
    + cbn. intros [= <- <-]. auto.
  - intros message w'. destruct (files w !! Release.CARGO_TOML_PATH) as [[d ro]|] eqn:Hf;
      cbn [data].
    + destruct (JS.execM Release.versionRegex d) as [m|]; cbn.
      * rewrite Hf. destruct ro; cbn; discriminate.
      * discriminate.
    + cbn. discriminate.
Qed.

Lemma release_update_needs_version_line_witness :
  Release.updateVersion
    {| Release.major := JS.Int 1; Release.minor := JS.Int 0; Release.patch := JS.Int 1 |}
    anyone (start (onlyManifest noVersionLine))
  = (Exit 1,
     emit (EvSay Err "failed to update version: could not find version line in Cargo.toml")
       (start (onlyManifest noVersionLine))).
Proof.
  apply (proj1 (release_update_needs_version_line _ anyone
                  (start (onlyManifest noVersionLine)))
           {| data := noVersionLine; readOnly := false |}); reflexivity.
Defined.

End ReleaseChecks.
Section ReleaseBuilds.
Import Proc.

Lemma eqb_false (s t : string) : s <> t -> String.eqb s t = false.
Proof. intros H. apply String.eqb_neq. exact H. Qed.

(** X24.  For Android and iOS the release script never uses Docker: asked
    for a Docker build, it says so and runs the one native cargo command of
    the target, and no other command.  A native build of a target that is
    none of android, ios and computer throws before any command is run. *)
Theorem mobile_targets_build_natively (ROOT_DIR : string) (now : Z) (target : string)
    (e : env) (w : world) :
  (target = "android" \/ target = "ios" ->
   exists command evs,
     Release.nativeCommand target = Some command
     /\ trace (Release.buildTarget ROOT_DIR now target true e w).2 = trace w ++ evs
     /\ commandsOf evs = [command]
     /\ JS.stripPrefix "cargo build " command <> None)
  /\ (Release.nativeCommand target = None ->
      Release.buildTarget ROOT_DIR now target false e w
      = (Raise ("unknown target: " +:+ target),
         emit (EvSay Info ("building for " +:+ target +:+ "...")) w)).
Proof.
  split.
  - intros [-> | ->];
      match goal with
      | |- exists command _, Release.nativeCommand ?t = _ /\ _ =>
          let c := eval cbv in (Release.nativeCommand t) in
          match c with
          | Some ?cmd =>
              exists cmd; destruct (shell e (ran w) cmd) as [o|m] eqn:E
          end
      end;
      eexists; (split; [reflexivity|]);
      unfold Release.buildTarget, Release.buildNative, Release.runCommand, try, say,
        execSync, throw, mbind, M_bind, bind, mret, M_ret, ret;
      cbn [String.eqb Ascii.eqb Bool.eqb orb Release.nativeCommand emit files asked ran trace];
      cbn; rewrite E; cbn; rewrite <- ?app_assoc; cbn [app];
      (split; [reflexivity|]); (split; [reflexivity | discriminate]).
  - intros H. unfold Release.buildTarget, Release.buildNative, say, throw,
      mbind, M_bind, bind. rewrite H. reflexivity.
Qed.


(** X25.  A Docker build of the release script removes the container it
    created: once the image is built and the container created, the last
    command run is [docker rm] of that container, whether making the target
    directory and copying the artifacts succeed or fail.  The build returns
    only when the copy was run; when building the image or creating the
    container fails, the error is thrown and nothing more is run. *)
Theorem docker_container_is_removed (ROOT_DIR : string) (now : Z) (target : string)
    (e : env) (w : world) :
  target <> "android" -> target <> "ios" ->
  (forall o1 o2,
     shell e (ran w) dockerBuildImage = Returned o1 ->
     shell e (S (ran w)) (dockerCreate (Release.containerName target now)) = Returned o2 ->
     exists evs middle,
       trace (Release.buildTarget ROOT_DIR now target true e w).2 = trace w ++ evs
       /\ commandsOf evs
          = [dockerBuildImage; dockerCreate (Release.containerName target now)]
            ++ middle ++ [dockerRemove (Release.containerName target now)]
       /\ (middle = [makeTargetDir ROOT_DIR]
           \/ middle = [makeTargetDir ROOT_DIR;
                        dockerCopy (Release.containerName target now) ROOT_DIR])
       /\ ((Release.buildTarget ROOT_DIR now target true e w).1 = Done tt ->
           middle = [makeTargetDir ROOT_DIR;
                     dockerCopy (Release.containerName target now) ROOT_DIR]))
  /\ (forall message,
        shell e (ran w) dockerBuildImage = Failed message ->
        exists evs,
          trace (Release.buildTarget ROOT_DIR now target true e w).2 = trace w ++ evs
          /\ commandsOf evs = [dockerBuildImage]
          /\ (Release.buildTarget ROOT_DIR now target true e w).1 = Raise message)
  /\ (forall o1 message,
        shell e (ran w) dockerBuildImage = Returned o1 ->
        shell e (S (ran w)) (dockerCreate (Release.containerName target now))
        = Failed message ->
        exists evs,
          trace (Release.buildTarget ROOT_DIR now target true e w).2 = trace w ++ evs
          /\ commandsOf evs
             = [dockerBuildImage; dockerCreate (Release.containerName target now)]
          /\ (Release.buildTarget ROOT_DIR now target true e w).1 = Raise message).
Proof.
  intros Ha Hi.
  assert (Hsw : String.eqb target "android" || String.eqb target "ios" = false)
    by (rewrite !eqb_false by assumption; reflexivity).
  unfold Release.buildTarget. rewrite Hsw.
  fold dockerBuildImage.
  fold (dockerCreate (Release.containerName target now)).
  fold (makeTargetDir ROOT_DIR).
  fold (dockerCopy (Release.containerName target now) ROOT_DIR).
  fold (dockerRemove (Release.containerName target now)).
  generalize dockerBuildImage (dockerCreate (Release.containerName target now))
    (makeTargetDir ROOT_DIR) (dockerCopy (Release.containerName target now) ROOT_DIR)
    (dockerRemove (Release.containerName target now)).
  intros build create mkdir cp rm.
  unfold Release.runCommand, Release.finally, try, say, execSync, throw,
    mbind, M_bind, bind, mret, M_ret, ret.
  cbn [emit files asked ran trace].
  split; [|split].
  - intros o1 o2 H1 H2. rewrite H1. cbn. rewrite H2. cbn.
    destruct (shell e (S (S (ran w))) mkdir) as [o3|m3]; cbn.
    + destruct (shell e (S (S (S (ran w)))) cp) as [o4|m4]; cbn;
        destruct (shell e (S (S (S (S (ran w))))) rm) as [o5|m5]; cbn;
        rewrite <- ?app_assoc; cbn [app];
        eexists _, [mkdir; cp]; (split; [reflexivity|]); (split; [reflexivity|]);
        (split; [right; reflexivity | intros _; reflexivity]).
    + destruct (shell e (S (S (S (ran w)))) rm) as [o5|m5]; cbn;
        rewrite <- ?app_assoc; cbn [app];
        eexists _, [mkdir]; (split; [reflexivity|]); (split; [reflexivity|]);
        (split; [left; reflexivity | discriminate]).
  - intros message H1. rewrite H1. cbn. rewrite <- ?app_assoc; cbn [app].
    eexists. split; [reflexivity|]. split; reflexivity.
  - intros o1 message H1 H2. rewrite H1. cbn. rewrite H2. cbn.
    rewrite <- ?app_assoc; cbn [app].
    eexists. split; [reflexivity|]. split; reflexivity.
Qed.

(** A build for the desktop in which copying the artifacts fails. *)
Lemma docker_container_is_removed_witness :
  exists evs middle,
    trace (Release.buildTarget "/repo" 1700000000000 "computer" true
             {| confirms := fun _ => None; versionAction := None; customInputs := [];
                shell := fun n _ => if (n =? 3)%nat then Failed "No such container"
                                    else Returned None |}
             (start ∅)).2
    = trace (start ∅) ++ evs
    /\ commandsOf evs
       = [dockerBuildImage; dockerCreate (Release.containerName "computer" 1700000000000)]
         ++ middle ++ [dockerRemove (Release.containerName "computer" 1700000000000)].
Proof.
  destruct (proj1 (docker_container_is_removed "/repo" 1700000000000 "computer"
                     {| confirms := fun _ => None; versionAction := None;
                        customInputs := [];
                        shell := fun n _ => if (n =? 3)%nat then Failed "No such container"
                                            else Returned None |}
                     (start ∅) ltac:(discriminate) ltac:(discriminate))
             None None eq_refl eq_refl)
    as (evs & middle & Ht & Hc & _).
  exists evs, middle. split; [exact Ht | exact Hc].
Defined.

End ReleaseBuilds.
(* ===================================================================== *)
(** * The release script: writing the version and reading it back *)
(* ===================================================================== *)

Section ReleaseLine.
Import Proc.

Abbreviation ws := JS.isWhiteSpace.
Abbreviation nq := JS.notQuote.
Abbreviation Q := JS.quote.
Abbreviation nl := JS.notLineTerminator.

Lemma versionMatch_match (w0 w1 w2 val r : string) :
  JS.forallb ws w0 = true -> JS.forallb ws w1 = true -> JS.forallb ws w2 = true ->
  JS.forallb nq val = true -> val <> "" ->
  JS.matchHere Release.versionMatch (w0 +:+ lineWith w1 w2 val r)
  = Some (w0 :: piecesWith w1 w2 val, r).
Proof.
  intros H0 H1 H2 Hv Hne. unfold Release.versionMatch, lineWith.
  change ("version" +:+ ?x) with (String "v" ("ersion" +:+ x)).
  rewrite (matchHere_star_lit ws) by (reflexivity || assumption).
  change (String "v" ("ersion" +:+ ?x)) with ("version" +:+ x).
  pose proof (versionField_match w1 w2 val r H1 H2 Hv Hne) as Hm.
  unfold Workflow.versionField in Hm. rewrite Hm. reflexivity.
Qed.

Lemma eol_after_line (r : string) :
  JS.matchHere [JS.Star nl; JS.Eol] r = Some ([JS.takeWhile nl r; ""], JS.dropWhile nl r).
Proof.
  rewrite matchHere_star, star_greedy.
  - assert (Heol : JS.atEol (JS.dropWhile nl r) = true).
    { induction r as [|a r IH]; [reflexivity|]. cbn [JS.dropWhile].
      destruct (nl a) eqn:E; [exact IH|]. cbn [JS.atEol].
      unfold JS.notLineTerminator in E. apply negb_false_iff in E. exact E. }
    cbn [JS.matchHere]. rewrite Heol. reflexivity.
  - intros a t Ha. cbn [JS.matchHere JS.atEol].
    unfold JS.notLineTerminator in Ha. apply negb_true_iff in Ha. rewrite Ha. reflexivity.
Qed.


Lemma versionRegex_match (w0 w1 w2 val r : string) :
  JS.forallb ws w0 = true -> JS.forallb ws w1 = true -> JS.forallb ws w2 = true ->
  JS.forallb nq val = true -> val <> "" ->
  JS.matchHere Release.versionRegex (w0 +:+ lineWith w1 w2 val r)
  = Some (w0 :: piecesWith w1 w2 val ++ [JS.takeWhile nl r; ""], JS.dropWhile nl r).
Proof.
  intros H0 H1 H2 Hv Hne.
  unfold Release.versionRegex, Release.versionMatch, lineWith, JS.quote. cbn [app].
  change ("version" +:+ ?x) with (String "v" ("ersion" +:+ x)).
  rewrite (matchHere_star_lit ws) by (reflexivity || assumption).
  change (String "v" ("ersion" +:+ ?x)) with ("version" +:+ x).
  rewrite matchHere_lit, stripPrefix_app.
  change ("=" +:+ ?x) with (String "=" x).
  rewrite (matchHere_star_lit ws) by (reflexivity || assumption).
  rewrite matchHere_lit. cbn [JS.stripPrefix]. change (JS.eqc "=" "=") with true. cbv iota.
  change (String "034" "" +:+ ?x) with (String "034" x).
  rewrite (matchHere_star_lit ws) by (reflexivity || assumption).
  rewrite matchHere_lit. cbn [JS.stripPrefix]. change (JS.eqc "034" "034") with true.
  cbv iota.
  destruct val as [|a val]; [contradiction|].
  cbn [JS.forallb] in Hv. apply andb_true_iff in Hv as [Ha Hv].
  rewrite sapp_cons, (matchHere_plus nq) by exact Ha.
  rewrite star_greedy by (intros b t Hb; apply (lit_rejects nq); [reflexivity | exact Hb]).
  destruct (takeWhile_run nq val (String "034" "" +:+ r) Hv eq_refl) as [-> ->].
  change (JS.dropWhile nq (String "034" "" +:+ r)) with (String "034" r).
  rewrite matchHere_lit. cbn [JS.stripPrefix]. change (JS.eqc "034" "034") with true.
  cbv iota. rewrite eol_after_line. reflexivity.
Qed.

Lemma versionMatch_shape (s : string) (pieces : list string) (r : string) :
  JS.matchHere Release.versionMatch s = Some (pieces, r) ->
  exists w0 w1 w2 val,
    pieces = w0 :: piecesWith w1 w2 val
    /\ s = w0 +:+ lineWith w1 w2 val r
    /\ JS.forallb ws w0 = true /\ JS.forallb ws w1 = true /\ JS.forallb ws w2 = true
    /\ JS.forallb nq val = true /\ val <> "".
Proof.
  intros H. destruct (matchHere_sound _ _ _ _ H) as [-> Hf].
  unfold Release.versionMatch in Hf.
  repeat match goal with
         | Hf : Forall2 _ (_ :: _) _ |- _ =>
             apply Forall2_cons_inv_l in Hf as (? & ? & ? & Hf & ->)
         | Hf : Forall2 _ [] _ |- _ => apply Forall2_nil_inv_l in Hf as ->
         end.
  cbn [pieceOf] in *. subst.
  match goal with Hp : _ /\ _ |- _ => destruct Hp as [Hv Hne] end.
  eexists _, _, _, _. split; [reflexivity|]. split.
  { cbn [JS.concat]. unfold lineWith. rewrite sapp_nil_r, !sapp_assoc. reflexivity. }
  auto 10.
Qed.

Lemma versionRegex_shape (s : string) (pieces : list string) (post : string) :
  JS.matchHere Release.versionRegex s = Some (pieces, post) ->
  exists w0 w1 w2 val tail,
    pieces = w0 :: piecesWith w1 w2 val ++ [tail; ""]
    /\ s = w0 +:+ lineWith w1 w2 val (tail +:+ post)
    /\ JS.forallb ws w0 = true /\ JS.forallb ws w1 = true /\ JS.forallb ws w2 = true
    /\ JS.forallb nq val = true /\ val <> "".
Proof.
  intros H. destruct (matchHere_sound _ _ _ _ H) as [-> Hf].
  unfold Release.versionRegex, Release.versionMatch in Hf. cbn [app] in Hf.
  repeat match goal with
         | Hf : Forall2 _ (_ :: _) _ |- _ =>
             apply Forall2_cons_inv_l in Hf as (? & ? & ? & Hf & ->)
         | Hf : Forall2 _ [] _ |- _ => apply Forall2_nil_inv_l in Hf as ->
         end.
  cbn [pieceOf] in *. subst.
  match goal with Hp : _ /\ _ |- _ => destruct Hp as [Hv Hne] end.
  eexists _, _, _, _, _. split; [reflexivity|]. split.
  { cbn [JS.concat]. unfold lineWith. rewrite !sapp_nil_r, !sapp_assoc. reflexivity. }
  auto 10.
Qed.

Lemma startsVersionLine_lineWith (w1 w2 val r : string) :
  JS.forallb ws w1 = true -> JS.forallb ws w2 = true ->
  JS.forallb nq val = true -> val <> "" ->
  startsVersionLine (lineWith w1 w2 val r).
Proof.
  intros H1 H2 Hv Hne. exists ("version" +:+ w1 +:+ "=" +:+ w2), val, r.
  split; [unfold lineWith; rewrite !sapp_assoc; reflexivity|].
  split; [exists w1, w2; auto | auto].
Qed.

Lemma startsReleaseLine_match (s : string) :
  startsReleaseLine s ->
  JS.matchHere Release.versionMatch s <> None /\ JS.matchHere Release.versionRegex s <> None.
Proof.
  intros (w0 & rest & -> & H0 & (F & val & r & -> & (w1 & w2 & -> & H1 & H2) & Hv & Hne)).
  pose proof (versionMatch_match w0 w1 w2 val r H0 H1 H2 Hv Hne) as Hm.
  pose proof (versionRegex_match w0 w1 w2 val r H0 H1 H2 Hv Hne) as Hr.
  unfold lineWith in Hm, Hr. rewrite !sapp_assoc. rewrite Hm, Hr. split; discriminate.
Qed.

Lemma match_startsReleaseLine (s : string) :
  JS.matchHere Release.versionMatch s <> None -> startsReleaseLine s.
Proof.
  intros H. destruct (JS.matchHere _ s) as [[pieces r]|] eqn:E; [|contradiction].
  apply versionMatch_shape in E as (w0 & w1 & w2 & val & _ & -> & H0 & H1 & H2 & Hv & Hne).
  exists w0, (lineWith w1 w2 val r). split; [reflexivity|]. split; [exact H0|].
  apply startsVersionLine_lineWith; assumption.
Qed.

(** Whether a text starts a version line of the release script does not
    depend on the value of a later version line. *)
Lemma startsReleaseLine_swap (y F nv old post : string) :
  JS.forallb nq F = true ->
  JS.forallb nq old = true -> old <> "" ->
  JS.forallb nq nv = true ->
  startsReleaseLine (y +:+ F +:+ Q +:+ nv +:+ Q +:+ post) ->
  startsReleaseLine (y +:+ F +:+ Q +:+ old +:+ Q +:+ post).
Proof.
  intros HF Hold Hne Hnv (w0 & rest & Heq & H0 & (F' & val & r & -> & Hhead & Hval & Hvne)).
  pose proof (headOf_notQuote F' Hhead) as HF'.
  assert (HwF : JS.forallb nq (w0 +:+ F') = true).
  { rewrite sforallb_app, (sforallb_impl ws nq w0 whiteSpace_notQuote H0), HF'. reflexivity. }
  rewrite <- (sapp_assoc w0 F') in Heq.
  assert (Hgoal : forall val' r',
            JS.forallb nq val' = true -> val' <> "" ->
            startsReleaseLine (w0 +:+ F' +:+ Q +:+ val' +:+ Q +:+ r')).
  { intros val' r' Hv' Hne'. exists w0, (F' +:+ Q +:+ val' +:+ Q +:+ r').
    split; [reflexivity|]. split; [exact H0|].
    exists F', val', r'. auto. }
  destruct (quote_cases y) as [Hy|(y1 & y2 & -> & Hy1)].
  - rewrite <- sapp_assoc in Heq.
    apply quote_split_unique in Heq as [Hh Heq];
      [|rewrite sforallb_app, Hy, HF; reflexivity | exact HwF].
    rewrite <- (sapp_assoc y F), Hh, !sapp_assoc. apply Hgoal; assumption.
  - rewrite !sapp_assoc in Heq. rewrite <- (sapp_assoc w0 F') in Heq.
    apply quote_split_unique in Heq as [Hh Heq]; [|exact Hy1 | exact HwF].
    rewrite !sapp_assoc, Hh.
    destruct (quote_cases y2) as [Hy2|(y3 & y4 & -> & Hy3)].
    + rewrite <- sapp_assoc in Heq.
      apply quote_split_unique in Heq as [Hv Hr];
        [|rewrite sforallb_app, Hy2, HF; reflexivity | exact Hval].
      rewrite <- (sapp_assoc y2 F), Hv, !sapp_assoc. apply Hgoal; assumption.
    + rewrite !sapp_assoc in Heq.
      apply quote_split_unique in Heq as [Hv Hr]; [|exact Hy3 | exact Hval].
      rewrite !sapp_assoc, Hv. apply (Hgoal val); assumption.
Qed.


(** The search of [getVersion] finds the rewritten line where the search of
    [updateVersion] found the line. *)
Lemma release_search_swap (pre : string) (bol : bool) (w0 w1 w2 old nv r : string)
    (m : JS.mres) :
  JS.forallb ws w0 = true -> JS.forallb ws w1 = true -> JS.forallb ws w2 = true ->
  JS.forallb nq old = true -> old <> "" ->
  JS.forallb nq nv = true -> nv <> "" ->
  JS.searchLines Release.versionRegex bol (pre +:+ w0 +:+ lineWith w1 w2 old r)
  = Some (pre, m) ->
  JS.searchLines Release.versionMatch bol (pre +:+ w0 +:+ lineWith w1 w2 nv r)
  = Some (pre, (w0 :: piecesWith w1 w2 nv, r)).
Proof.
  intros H0 H1 H2 Hold Holdne Hnv Hnvne. revert bol.
  induction pre as [|a pre IH]; intros bol H.
  - rewrite sapp_nil_l in *. rewrite searchLines_eq in H. rewrite searchLines_eq.
    destruct bol.
    + rewrite versionMatch_match by assumption. reflexivity.
    + exfalso. destruct w0 as [|c w0].
      * rewrite sapp_nil_l in H. unfold lineWith in H.
        change ("version" +:+ ?x) with (String "v" ("ersion" +:+ x)) in H.
        cbv iota in H.
        destruct (JS.searchLines _ _ _) as [[pre' m']|]; discriminate.
      * rewrite sapp_cons in H.
        destruct (JS.searchLines _ _ _) as [[pre' m']|]; discriminate.
  - rewrite sapp_cons in *. rewrite searchLines_eq in H. rewrite searchLines_eq.
    assert (Hrec : JS.searchLines Release.versionRegex (JS.isLineTerminator a)
                     (pre +:+ w0 +:+ lineWith w1 w2 old r) = Some (pre, m)).
    { destruct (if bol then _ else None); [discriminate|].
      destruct (JS.searchLines _ _ _) as [[pre' m']|]; [|discriminate].
      injection H as -> ->. reflexivity. }
    assert (Hnone : (if bol then JS.matchHere Release.versionRegex
                                   (String a (pre +:+ w0 +:+ lineWith w1 w2 old r))
                     else None) = None).
    { destruct (if bol then _ else None); [discriminate | reflexivity]. }
    rewrite (IH _ Hrec).
    destruct bol; [|reflexivity].
    destruct (JS.matchHere Release.versionMatch
                (String a (pre +:+ w0 +:+ lineWith w1 w2 nv r))) as [m'|] eqn:Em;
      [|reflexivity].
    exfalso.
    assert (HF : JS.forallb nq (w0 +:+ "version" +:+ w1 +:+ "=" +:+ w2) = true).
    { rewrite !sforallb_app, (sforallb_impl ws nq w0 whiteSpace_notQuote H0),
        (sforallb_impl ws nq w1 whiteSpace_notQuote H1),
        (sforallb_impl ws nq w2 whiteSpace_notQuote H2). reflexivity. }
    assert (Hs : startsReleaseLine (String a pre +:+ (w0 +:+ "version" +:+ w1 +:+ "=" +:+ w2)
                                    +:+ Q +:+ old +:+ Q +:+ r)).
    { apply (startsReleaseLine_swap _ _ nv); try assumption.
      apply match_startsReleaseLine. rewrite sapp_cons.
      unfold lineWith in Em. rewrite !sapp_assoc. rewrite Em. discriminate. }
    apply startsReleaseLine_match in Hs as [_ Hs]. apply Hs.
    rewrite sapp_cons, !sapp_assoc. exact Hnone.
Qed.

Lemma release_formatVersion_nonempty (v : Release.Version) : Release.formatVersion v <> "".
Proof.
  unfold Release.formatVersion. intros H. apply sapp_eq_nil in H as [H _].
  exact (proj2 (plain_number _) H).
Qed.

(** X26.  Writing a version with [updateVersion] and reading the manifest
    with [getVersion] gives the version back: when the manifest has a version
    line and can be written, [updateVersion] succeeds, only the value of that
    line changes, and [getVersion] then returns the version written.  The
    version is one of whole numbers up to 2^53 in absolute value. *)
Theorem release_write_then_read (a b c : Z) (e : env) (w : world) (f : file) :
  Z.abs a <= 2 ^ 53 -> Z.abs b <= 2 ^ 53 -> Z.abs c <= 2 ^ 53 ->
  files w !! Release.CARGO_TOML_PATH = Some f -> readOnly f = false ->
  JS.execM Release.versionRegex (data f) <> None ->
  exists w' pre w0 w1 w2 old r,
    Release.updateVersion
      {| Release.major := JS.Int a; Release.minor := JS.Int b; Release.patch := JS.Int c |}
      e w = (Done tt, w')
    /\ Release.getVersion e w'
       = (Done {| Release.major := JS.Int a; Release.minor := JS.Int b;
                  Release.patch := JS.Int c |}, w')
    /\ data f = pre +:+ w0 +:+ lineWith w1 w2 old r
    /\ data <$> files w' !! Release.CARGO_TOML_PATH
       = Some (pre +:+ w0 +:+ lineWith w1 w2
                 (Release.formatVersion
                    {| Release.major := JS.Int a; Release.minor := JS.Int b;
                       Release.patch := JS.Int c |}) r).
Proof.
  intros Ha Hb Hc Hf Hro Hex.
  set (v := {| Release.major := JS.Int a; Release.minor := JS.Int b;
               Release.patch := JS.Int c |}).
  set (nv := Release.formatVersion v).
  assert (Hplain : plain nv) by apply plain_release_formatVersion.
  assert (Hnvne : nv <> "") by apply release_formatVersion_nonempty.
  destruct (JS.execM Release.versionRegex (data f)) as [[pre [pieces post]]|] eqn:E;
    [|contradiction].
  destruct (searchLines_sound _ _ _ _ _ E) as (here & Hc' & Hm).
  destruct (versionRegex_shape _ _ _ Hm)
    as (w0 & w1 & w2 & old & tail & -> & -> & H0 & H1 & H2 & Hold & Holdne).
  destruct (replace_frame Release.versionRegex 6 nv _ pre post _
              (plain_dollarFree _ Hplain) E) as [_ Hr]; [cbn; lia|].
  assert (Hnew : JS.replace Release.versionRegex [(0, 6); (7, 3)]%nat
                   ("$1" +:+ nv +:+ "$2") (data f)
                 = pre +:+ w0 +:+ lineWith w1 w2 nv (tail +:+ post)).
  { etransitivity; [exact Hr|].
    cbn [take drop JS.concat piecesWith app]. unfold lineWith.
    rewrite !sapp_nil_r, !sapp_assoc. reflexivity. }
  set (content' := pre +:+ w0 +:+ lineWith w1 w2 nv (tail +:+ post)) in *.
  set (w1' := wrote Release.CARGO_TOML_PATH content' w).
  exists (emit (EvSay Info ("updated version to " +:+ nv)) w1'),
    pre, w0, w1, w2, old, (tail +:+ post).
  assert (Hup : Release.updateVersion v e w
                = (Done tt, emit (EvSay Info ("updated version to " +:+ nv)) w1')).
  { unfold Release.updateVersion, try.
    rewrite (bind_done _ _ _ _ _ _ (readFileSync_some _ e w f Hf)).
    rewrite E. fold nv. rewrite Hnew.
    rewrite (bind_done _ _ _ _ _ _ (writeFileSync_ok _ content' e w f Hf Hro)).
    reflexivity. }
  split; [exact Hup|].
  assert (Hfile : files (emit (EvSay Info ("updated version to " +:+ nv)) w1')
                    !! Release.CARGO_TOML_PATH
                  = Some {| data := content'; readOnly := false |}).
  { cbn [emit files w1' wrote]. unfold w1'. cbn [wrote emit files]. apply lookup_insert_eq. }
  split; [|split; [exact Hc'|rewrite Hfile; reflexivity]].
  unfold Release.getVersion.
  rewrite (bind_done _ _ _ _ _ _ (readFileSync_some _ e _ _ Hfile)). cbn [data].
  assert (Hread : JS.execM Release.versionMatch content'
                  = Some (pre, (w0 :: piecesWith w1 w2 nv, tail +:+ post))).
  { unfold JS.execM, content'.
    apply (release_search_swap pre true w0 w1 w2 old nv (tail +:+ post)
             (w0 :: piecesWith w1 w2 old ++ [tail; ""], post));
      try assumption.
    - apply plain_notQuote. exact Hplain.
    - unfold JS.execM in E. rewrite <- Hc'. exact E. }
  rewrite Hread. cbn [JS.group piecesWith drop take JS.concat]. rewrite sapp_nil_r.
  destruct (String.eqb_spec nv "") as [Heq|_]; [contradiction|].
  unfold try, lift. unfold nv, v. rewrite (release_parse_format a b c Ha Hb Hc). reflexivity.
Qed.

Lemma release_write_then_read_witness :
  exists w',
    Release.updateVersion
      {| Release.major := JS.Int 2; Release.minor := JS.Int 4; Release.patch := JS.Int 0 |}
      anyone (start (onlyManifest sampleManifest)) = (Done tt, w')
    /\ Release.getVersion anyone w'
       = (Done {| Release.major := JS.Int 2; Release.minor := JS.Int 4;
                  Release.patch := JS.Int 0 |}, w').
Proof.
  destruct (release_write_then_read 2 4 0 anyone (start (onlyManifest sampleManifest))
              {| data := sampleManifest; readOnly := false |})
    as (w' & pre & w0 & w1 & w2 & old & r & Hu & Hg & _).
  - vm_compute. discriminate.
  - vm_compute. discriminate.
  - vm_compute. discriminate.
  - reflexivity.
  - reflexivity.
  - vm_compute. discriminate.
  - exists w'. split; [exact Hu | exact Hg].
Defined.

End ReleaseLine.

(* ===================================================================== *)
(** * What the version prompt accepts *)
(* ===================================================================== *)

Section Validator.
Import Proc.

Lemma customFormat_match (a b c : string) :
  JS.forallb JS.isDigit a = true -> a <> "" ->
  JS.forallb JS.isDigit b = true -> b <> "" ->
  JS.forallb JS.isDigit c = true -> c <> "" ->
  JS.matchHere Workflow.customFormat (a +:+ "." +:+ b +:+ "." +:+ c)
  = Some ([a; "."; b; "."; c; ""], "").
Proof.
  intros Ha Hane Hb Hbne Hc Hcne. unfold Workflow.customFormat.
  destruct a as [|a0 a]; [contradiction|].
  destruct b as [|b0 b]; [contradiction|].
  destruct c as [|c0 c]; [contradiction|].
  cbn [JS.forallb] in Ha, Hb, Hc.
  apply andb_true_iff in Ha as [Ha0 Ha]. apply andb_true_iff in Hb as [Hb0 Hb].
  apply andb_true_iff in Hc as [Hc0 Hc].
  change (String a0 a +:+ "." +:+ String b0 b +:+ "." +:+ String c0 c)
    with (String a0 (a +:+ String "." (String b0 (b +:+ String "." (String c0 c))))).
  rewrite (matchHere_plus JS.isDigit) by exact Ha0.
  rewrite star_greedy
    by (intros x t Hx; apply (lit_rejects JS.isDigit); [reflexivity | exact Hx]).
  destruct (takeWhile_run JS.isDigit a (String "." (String b0 (b +:+ String "." (String c0 c))))
              Ha eq_refl) as [-> ->].
  change (JS.dropWhile JS.isDigit (String "." ?x)) with (String "." x).
  rewrite matchHere_lit. cbn [JS.stripPrefix]. change (JS.eqc "." ".") with true. cbv iota.
  rewrite (matchHere_plus JS.isDigit) by exact Hb0.
  rewrite star_greedy
    by (intros x t Hx; apply (lit_rejects JS.isDigit); [reflexivity | exact Hx]).
  destruct (takeWhile_run JS.isDigit b (String "." (String c0 c)) Hb eq_refl) as [-> ->].
  change (JS.dropWhile JS.isDigit (String "." ?x)) with (String "." x).
  rewrite matchHere_lit. cbn [JS.stripPrefix]. change (JS.eqc "." ".") with true. cbv iota.
  rewrite (matchHere_plus JS.isDigit) by exact Hc0.
  rewrite star_greedy by (intros x t Hx; reflexivity).
  pose proof (takeWhile_run JS.isDigit c "" Hc eq_refl) as [Ht Hd].
  rewrite sapp_nil_r in Ht, Hd. rewrite Ht, Hd. reflexivity.
Qed.


Lemma decimal_digits (z : Z) :
  0 <= z -> JS.forallb JS.isDigit (JS.decimal z) = true /\ JS.decimal z <> "".
Proof.
  intros Hz. split; [|apply decimal_nonempty].
  unfold JS.decimal. destruct z as [|p|p]; cbn [Z.to_int NilEmpty.string_of_int];
    [reflexivity | apply digits_uint | lia].
Qed.

(** X27.  The version prompt accepts exactly the texts made of three
    non-empty runs of digits with a point between them.  So it accepts every
    version the workflow prints whose numbers are safe integers that are zero
    or positive, and it rejects a printed version whose first number is
    negative. *)
Theorem validator_accepts_digit_triples (s : string) :
  (JS.testAnchored Workflow.customFormat s = true
   <-> exists a b c,
         s = a +:+ "." +:+ b +:+ "." +:+ c
         /\ (JS.forallb JS.isDigit a = true /\ a <> "")
         /\ (JS.forallb JS.isDigit b = true /\ b <> "")
         /\ (JS.forallb JS.isDigit c = true /\ c <> ""))
  /\ (forall a b c,
        0 <= a <= JS.MAX_SAFE_INTEGER -> 0 <= b <= JS.MAX_SAFE_INTEGER ->
        0 <= c <= JS.MAX_SAFE_INTEGER ->
        JS.testAnchored Workflow.customFormat
          (Workflow.formatVersion
             {| Workflow.major := JS.Int a; Workflow.minor := JS.Int b;
                Workflow.patch := JS.Int c |}) = true)
  /\ (forall a b c, a < 0 ->
        JS.testAnchored Workflow.customFormat
          (Workflow.formatVersion
             {| Workflow.major := JS.Int a; Workflow.minor := JS.Int b;
                Workflow.patch := JS.Int c |}) = false).
Proof.
  split; [|split].
  - split; [apply custom_shape|].
    intros (a & b & c & -> & [Ha Hane] & [Hb Hbne] & [Hc Hcne]).
    unfold JS.testAnchored. rewrite customFormat_match by assumption. reflexivity.
  - intros a b c Ha Hb Hc. unfold Workflow.formatVersion, JS.testAnchored.
    cbn [Workflow.major Workflow.minor Workflow.patch JS.numberToString].
    destruct (decimal_digits a (proj1 Ha)) as [Da Na].
    destruct (decimal_digits b (proj1 Hb)) as [Db Nb].
    destruct (decimal_digits c (proj1 Hc)) as [Dc Nc].
    rewrite customFormat_match by assumption. reflexivity.
  - intros a b c Ha. destruct a as [|p|p]; try lia. reflexivity.
Qed.

End Validator.

Section CommitBump.
Import Proc.







End CommitBump.
Section CommitPhase.
Import Proc.

Lemma isCommit_isScript (ev : event) : isCommit ev = true -> isScript ev = true.
Proof.
  destruct ev; try discriminate. cbn. intros H. apply andb_true_iff in H as [H _]. exact H.
Qed.

Lemma noScript_noCommit (evs : list event) :
  forallb (fun ev => negb (isScript ev)) evs = true ->
  forallb (fun ev => negb (isCommit ev)) evs = true.
Proof.
  rewrite !forallb_forall. intros H ev Hin. specialize (H ev Hin).
  destruct (isCommit ev) eqn:E; [|reflexivity].
  rewrite (isCommit_isScript ev E) in H. discriminate.
Qed.

Lemma runScript_noCommit (scriptName npmScript : string) :
  String.eqb (Workflow.npmRun npmScript) (Workflow.npmRun "commit") = false ->
  only (fun ev => negb (isCommit ev)) (Workflow.runScript scriptName npmScript).
Proof.
  intros H. unfold Workflow.runScript.
  repeat first [apply only_exec; cbn [isCommit negb andb]; rewrite H; reflexivity
               | only_step].
Qed.

Lemma checkGitClean_blank (e : env) (w : world) :
  readsClean (shell e (ran w) Workflow.gitStatus) ->
  Workflow.checkGitClean e w = (Done true, ranCommand Workflow.gitStatus true w).
Proof.
  intros H. unfold Workflow.checkGitClean, Workflow.exec, try, execSync, throw, ranCommand,
    mbind, M_bind, bind, mret, M_ret, ret.
  cbn [fst snd].
  destruct (shell e (ran w) Workflow.gitStatus) as [[out|]|message]; cbn in *;
    [rewrite H|..]; reflexivity.
Qed.

Lemma afterBuild_noCommit (e : env) (newVersion : string) (versionChanged buildRan : bool) :
  (forall n, readsClean (shell e n Workflow.gitStatus)) ->
  forall w, onlyAt (fun ev => negb (isCommit ev))
              (Workflow.afterBuild newVersion versionChanged buildRan) e w.
Proof.
  intros Hgit w. unfold Workflow.afterBuild.
  apply onlyAt_bind.
  { apply onlyAt_of_only.
    repeat first [apply runScript_noCommit; reflexivity | only_step]. }
  intros _ w1. apply onlyAt_bind.
  { destruct (versionChanged || buildRan); [|apply onlyAt_of_only; only_step].
    apply onlyAt_bind; [apply onlyAt_of_only; only_step|].
    intros _ w2. unfold onlyAt, mbind, M_bind, bind.
    rewrite checkGitClean_blank by apply Hgit.
    exists [EvExec Workflow.gitStatus true; EvSay Info "No changes to commit"].
    cbn. rewrite <- app_assoc. auto. }
  intros _ w2. apply onlyAt_bind; [apply onlyAt_of_only; only_step|].
  intros _ w3. apply onlyAt_bind; [apply onlyAt_of_only; only_step|].
  intros shouldRelease w4. apply onlyAt_bind.
  { apply onlyAt_of_only.
    repeat first [apply runScript_noCommit; reflexivity | only_step]. }
  intros _ w5. unfold onlyAt, mbind, M_bind, bind.
  rewrite checkGitClean_blank by apply Hgit.
  eexists [EvExec Workflow.gitStatus true; EvSay Outro _].
  cbn. rewrite <- app_assoc. auto.
Qed.

(** X29.  The workflow reads a working tree whose status it cannot get as
    clean.  When the status command always fails, hands no output back, or
    prints only blanks, [checkGitClean] answers true each time it is asked,
    and no run of the workflow starts the commit script, whatever the
    operator answers and whether or not the version was changed. *)
Theorem unreadable_status_never_commits (e : env) (fs : gmap string file) :
  (forall n, readsClean (shell e n Workflow.gitStatus)) ->
  (forall w, (Workflow.checkGitClean e w).1 = Done true)
  /\ existsb isCommit (trace (Workflow.run e fs).2) = false.
Proof.
  intros Hgit. split.
  { intros w. rewrite checkGitClean_blank by apply Hgit. reflexivity. }
  assert (Hmain : exists evs, trace (Workflow.main e (start fs)).2 = evs
                              /\ forallb (fun ev => negb (isCommit ev)) evs = true).
  { rewrite main_eq. destruct (tame_untilBuild e (start fs)) as (evsA & Ht & Hs & _ & _).
    cbn [start trace app] in Ht. apply noScript_noCommit in Hs.
    unfold mbind, M_bind, bind.
    destruct (untilBuild e (start fs)) as [[[nv ch]|c|msg] w1]; cbn [fst snd] in *;
      [|eexists; split; [reflexivity | rewrite Ht; exact Hs]..].
    unfold fromBuild, mbind, M_bind, bind.
    assert (Hb : only (fun ev => negb (isCommit ev)) Workflow.buildPhase).
    { unfold Workflow.buildPhase.
      repeat first [apply runScript_noCommit; reflexivity | only_step]. }
    destruct (Hb e w1) as (evsB & HtB & HokB & _).
    destruct (Workflow.buildPhase e w1) as [[buildRan|c|msg] w2] eqn:Eb; cbn [fst snd] in *;
      [|eexists; split; [reflexivity | rewrite HtB, Ht, forallb_app, Hs, HokB; reflexivity]..].
    destruct (afterBuild_noCommit e nv ch buildRan Hgit w2) as (evsC & HtC & HokC & _).
    eexists. split; [reflexivity|].
    rewrite HtC, HtB, Ht, !forallb_app, Hs, HokB, HokC. reflexivity. }
  destruct Hmain as (evs & Ht & Hok).
  assert (Hnone : forall l, forallb (fun ev => negb (isCommit ev)) l = true ->
                            existsb isCommit l = false).
  { intros l. induction l as [|x l IH]; [reflexivity|]. cbn [forallb existsb].
    intros H. apply andb_true_iff in H as [Hx H]. rewrite (IH H).
    destruct (isCommit x); [discriminate | reflexivity]. }
  unfold Workflow.run.
  destruct (Workflow.main e (start fs)) as [[a|c|msg] w1]; cbn [fst snd emit trace] in *;
    subst evs; try (apply Hnone; exact Hok).
  apply Hnone. rewrite forallb_app, Hok. reflexivity.
Qed.

Lemma unreadable_status_never_commits_witness :
  existsb isCommit (trace (Workflow.run eagerWithoutGit (bothManifests sampleManifest workspaceText)).2)
  = false.
Proof.
  apply (proj2 (unreadable_status_never_commits eagerWithoutGit
                  (bothManifests sampleManifest workspaceText) (fun n => I))).
Defined.

End CommitPhase.

(* ===================================================================== *)
(** * A build that never ends *)
(* ===================================================================== *)

Section BuildHangs.
Import Build.

Lemma fold_unsettled p options start (evs : list childEvent) (st : Listener) :
  settled st = None ->
  settled (fold_left (onEvent p options start) evs st) = None ->
  forallb isData evs = true.
Proof.
  revert st. induction evs as [|ev evs IH]; intros st Hst H; [reflexivity|].
  cbn [fold_left] in H. cbn [forallb].
  destruct ev as [d|d|code now|msg now]; cbn [isData andb].
  - apply (IH (onEvent p options start st (Stdout d))); [|exact H].
    cbn [onEvent]. case_match; exact Hst.
  - apply (IH (onEvent p options start st (Stderr d))); [|exact H].
    cbn [onEvent]. case_match; exact Hst.
  - exfalso. cbn [onEvent] in H. unfold resolve in H. rewrite Hst in H.
    case_bool_decide; erewrite fold_settled in H by reflexivity; discriminate H.
  - exfalso. cbn [onEvent] in H. unfold resolve in H. rewrite Hst in H.
    erewrite fold_settled in H by reflexivity. discriminate H.
Qed.

Lemma sequential_hung (platforms : list Platform) options children (i first : nat)
    (p : Platform) (results : list BuildResult) :
  platforms !! i = Some p ->
  buildPlatform p options (children (first + i)%nat) = None ->
  sequential platforms options children first results = None.
Proof.
  revert i first results. induction platforms as [|q rest IH]; intros i first results Hp Hb.
  - discriminate Hp.
  - cbn [sequential]. destruct i as [|i].
    + injection Hp as ->. rewrite Nat.add_0_r in Hb. rewrite Hb. reflexivity.
    + destruct (buildPlatform q options (children first)); [|reflexivity].
      apply (IH i (S first)); [exact Hp|].
      replace (S first + i)%nat with (first + S i)%nat by lia. exact Hb.
Qed.

Lemma fulfil_keeps_hole {A} (promises : list (option A)) (i : nat) (order : list nat)
    (g : Gather A) :
  promises !! i = Some None ->
  values g !! i = Some None ->
  (forall a, handed g = Some a -> a !! i = Some None) ->
  forall a, handed (fold_left (fulfil promises) order g) = Some a -> a !! i = Some None.
Proof.
  intros Hp. revert g. induction order as [|index order IH]; intros g Hv Hh; [exact Hh|].
  cbn [fold_left]. unfold fulfil at 2.
  destruct (promises !! index) as [[v|]|] eqn:E; try (apply IH; assumption).
  assert (Hne : index <> i) by (intros ->; congruence).
  apply IH; cbn [values handed].
  - rewrite list_lookup_insert_ne by exact Hne. exact Hv.
  - intros a. destruct (handed g) as [a'|] eqn:Eh.
    + intros [= <-]. apply Hh. reflexivity.
    + case_match; [|discriminate]. intros [= <-].
      rewrite list_lookup_insert_ne by exact Hne. exact Hv.
Qed.

Lemma promiseAll_hung {A} (promises : list (option A)) (i : nat) (order : list nat) :
  promises !! i = Some None -> promiseAll promises order = None.
Proof.
  intros Hp. unfold promiseAll. destruct promises as [|x promises]; [discriminate Hp|].
  set (ps := x :: promises) in *.
  destruct (handed _) as [a|] eqn:Eh; [|reflexivity].
  assert (Ha : a !! i = Some None).
  { apply (fulfil_keeps_hole ps i order _ Hp) with (a := a) in Eh; [exact Eh| |].
    - cbn [values]. apply lookup_replicate_2. apply (lookup_lt_Some _ _ _ Hp).
    - cbn [handed]. discriminate. }
  destruct (mapM (fun slot => slot) a) as [l|] eqn:Em; [|reflexivity].
  exfalso. assert (Hs : is_Some (mapM (fun slot : option A => slot) a)) by (rewrite Em; eauto).
  rewrite mapM_is_Some, Forall_lookup in Hs. destruct (Hs i None Ha) as [? [=]].
Qed.

(** X30.  The build script sets no time limit on a build.  The promise of
    [buildPlatform] settles exactly when the child emits a close or an error
    event; when one of the selected builds never does, the build loop of
    [main] never finishes, in sequential and in parallel mode and whatever
    the other builds do, so no summary is printed and no exit status set. *)
Theorem hung_build_blocks_the_run (platforms : list Platform) (options : BuildOptions)
    (children : nat -> Child) (order : list nat) (i : nat) :
  (i < length platforms)%nat ->
  forallb isData (events (children i)) = true ->
  runAll platforms options children order = None
  /\ forall p child, buildPlatform p options child = None
                     <-> forallb isData (events child) = true.
Proof.
  intros Hi Hdata.
  assert (Hiff : forall p child, buildPlatform p options child = None
                                 <-> forallb isData (events child) = true).
  { intros p child. unfold buildPlatform. split.
    - apply fold_unsettled. reflexivity.
    - intros H. apply fold_data; [exact H | reflexivity]. }
  split; [|exact Hiff].
  destruct (lookup_lt_is_Some_2 platforms i Hi) as [p Hp].
  unfold runAll. destruct (parallel options).
  - rewrite (promiseAll_hung _ i); [reflexivity|].
    rewrite list_lookup_imap, Hp. cbn. f_equal. apply Hiff. exact Hdata.
  - apply (sequential_hung _ _ _ i 0 p); [exact Hp|]. apply Hiff. exact Hdata.
Qed.

Lemma hung_build_blocks_the_run_witness :
  runAll PLATFORMS parallelQuiet
    (fun i => match i with
              | 3%nat => {| startTime := 0; events := [Stdout "Compiling"] |}
              | _ => twoChildren i
              end)
    (seq 0 (length PLATFORMS))
  = None.
Proof.
  apply (fun H1 H2 => proj1 (hung_build_blocks_the_run PLATFORMS parallelQuiet _ _ 3 H1 H2)).
  - cbn. lia.
  - reflexivity.
Defined.

End BuildHangs.
